(** * iSCSI initiator discovery (iscsid.c): a shallow embedding

    The development follows
    [usr/src/uts/common/io/scsi/adapters/iscsi/iscsid.c].  Kernel state that
    the C code reaches through [ihp] and through the global thread table is
    threaded explicitly; collaborators that live in other files (the
    persistent store, the session and connection layer, the iSNS client, the
    SendTargets ioctl, the thread primitives) are Section variables or, where
    a claim needs their effect on the session list, small models that say so
    in their doc comment. *)

From Stdlib Require Import ZArith Bool String List Lia Arith.
From Equations Require Import Equations.
Import ListNotations.
Local Open Scope Z_scope.

(** ** Parameter copy *)

Module Param.

(** Modelled from the spec: the login-parameter identifiers of
    [iscsi_if.h], a header that is not among the sources.  They are numbered
    in the order of the parameter-copy table, followed by the three
    identifiers the source lists as unsettable; [ISCSI_NUM_LOGIN_PARAM] is
    their count. *)
Definition ISCSI_LOGIN_PARAM_DATA_SEQUENCE_IN_ORDER : Z := 0.
Definition ISCSI_LOGIN_PARAM_IMMEDIATE_DATA : Z := 1.
Definition ISCSI_LOGIN_PARAM_INITIAL_R2T : Z := 2.
Definition ISCSI_LOGIN_PARAM_DATA_PDU_IN_ORDER : Z := 3.
Definition ISCSI_LOGIN_PARAM_HEADER_DIGEST : Z := 4.
Definition ISCSI_LOGIN_PARAM_DATA_DIGEST : Z := 5.
Definition ISCSI_LOGIN_PARAM_DEFAULT_TIME_2_RETAIN : Z := 6.
Definition ISCSI_LOGIN_PARAM_DEFAULT_TIME_2_WAIT : Z := 7.
Definition ISCSI_LOGIN_PARAM_MAX_RECV_DATA_SEGMENT_LENGTH : Z := 8.
Definition ISCSI_LOGIN_PARAM_FIRST_BURST_LENGTH : Z := 9.
Definition ISCSI_LOGIN_PARAM_MAX_BURST_LENGTH : Z := 10.
Definition ISCSI_LOGIN_PARAM_MAX_CONNECTIONS : Z := 11.
Definition ISCSI_LOGIN_PARAM_OUTSTANDING_R2T : Z := 12.
Definition ISCSI_LOGIN_PARAM_ERROR_RECOVERY_LEVEL : Z := 13.
Definition ISCSI_NUM_LOGIN_PARAM : Z := 14.

(** [errno] value returned for an unknown or unsettable identifier. *)
Definition EINVAL : Z := 22.

(** The fields of [iscsi_login_params_t] that the source reads. *)
Record iscsi_login_params_t := {
  immediate_data : bool;
  initial_r2t : bool;
  data_pdu_in_order : bool;
  header_digest : Z;
  data_digest : Z;
  default_time_to_retain : Z;
  default_time_to_wait : Z;
  max_recv_data_seg_len : Z;
  first_burst_length : Z;
  max_burst_length : Z
}.

(** The union [s_value] of [iscsi_param_set_t]: the member last written. *)
Inductive s_value_t :=
| v_none
| v_bool (b : bool)
| v_integer (n : Z)
| v_name (s : string).

Record iscsi_param_set_t := {
  s_oid : Z;
  s_vers : Z;
  s_param : Z;
  s_value : s_value_t
}.

Definition set_s_value (ipsp : iscsi_param_set_t) (v : s_value_t) :=
  {| s_oid := s_oid ipsp; s_vers := s_vers ipsp;
     s_param := s_param ipsp; s_value := v |}.

Definition set_s_param (ipsp : iscsi_param_set_t) (p : Z) :=
  {| s_oid := s_oid ipsp; s_vers := s_vers ipsp;
     s_param := p; s_value := s_value ipsp |}.

(** [iscsid_copyto_param_set]: the return code and the output record.
    [param_id] is a [uint32_t]. *)
Definition iscsid_copyto_param_set (param_id : Z)
    (params : iscsi_login_params_t) (ipsp : iscsi_param_set_t)
    : Z * iscsi_param_set_t :=
  if ISCSI_NUM_LOGIN_PARAM <=? param_id then (EINVAL, ipsp)
  else
    let '(rtn, ipsp1) :=
      if param_id =? ISCSI_LOGIN_PARAM_DATA_SEQUENCE_IN_ORDER then
        (0, set_s_value ipsp (v_bool (data_pdu_in_order params)))
      else if param_id =? ISCSI_LOGIN_PARAM_IMMEDIATE_DATA then
        (0, set_s_value ipsp (v_bool (immediate_data params)))
      else if param_id =? ISCSI_LOGIN_PARAM_INITIAL_R2T then
        (0, set_s_value ipsp (v_bool (initial_r2t params)))
      else if param_id =? ISCSI_LOGIN_PARAM_DATA_PDU_IN_ORDER then
        (0, set_s_value ipsp (v_bool (data_pdu_in_order params)))
      else if param_id =? ISCSI_LOGIN_PARAM_HEADER_DIGEST then
        (0, set_s_value ipsp (v_integer (header_digest params)))
      else if param_id =? ISCSI_LOGIN_PARAM_DATA_DIGEST then
        (0, set_s_value ipsp (v_integer (data_digest params)))
      else if param_id =? ISCSI_LOGIN_PARAM_DEFAULT_TIME_2_RETAIN then
        (0, set_s_value ipsp (v_integer (default_time_to_retain params)))
      else if param_id =? ISCSI_LOGIN_PARAM_DEFAULT_TIME_2_WAIT then
        (0, set_s_value ipsp (v_integer (default_time_to_wait params)))
      else if param_id =? ISCSI_LOGIN_PARAM_MAX_RECV_DATA_SEGMENT_LENGTH then
        (0, set_s_value ipsp (v_integer (max_recv_data_seg_len params)))
      else if param_id =? ISCSI_LOGIN_PARAM_FIRST_BURST_LENGTH then
        (0, set_s_value ipsp (v_integer (first_burst_length params)))
      else if param_id =? ISCSI_LOGIN_PARAM_MAX_BURST_LENGTH then
        (0, set_s_value ipsp (v_integer (max_burst_length params)))
      else (* MAX_CONNECTIONS, OUTSTANDING_R2T, ERROR_RECOVERY_LEVEL, default *)
        (EINVAL, ipsp) in
    if rtn =? 0 then (rtn, set_s_param ipsp1 param_id) else (rtn, ipsp1).

(** The parameter-copy table of the specification, row by row: the
    identifier and the value the row selects from the login parameters. *)
Definition param_copy_table (params : iscsi_login_params_t)
    : list (Z * s_value_t) :=
  [ (ISCSI_LOGIN_PARAM_DATA_SEQUENCE_IN_ORDER, v_bool (data_pdu_in_order params));
    (ISCSI_LOGIN_PARAM_IMMEDIATE_DATA, v_bool (immediate_data params));
    (ISCSI_LOGIN_PARAM_INITIAL_R2T, v_bool (initial_r2t params));
    (ISCSI_LOGIN_PARAM_DATA_PDU_IN_ORDER, v_bool (data_pdu_in_order params));
    (ISCSI_LOGIN_PARAM_HEADER_DIGEST, v_integer (header_digest params));
    (ISCSI_LOGIN_PARAM_DATA_DIGEST, v_integer (data_digest params));
    (ISCSI_LOGIN_PARAM_DEFAULT_TIME_2_RETAIN, v_integer (default_time_to_retain params));
    (ISCSI_LOGIN_PARAM_DEFAULT_TIME_2_WAIT, v_integer (default_time_to_wait params));
    (ISCSI_LOGIN_PARAM_MAX_RECV_DATA_SEGMENT_LENGTH, v_integer (max_recv_data_seg_len params));
    (ISCSI_LOGIN_PARAM_FIRST_BURST_LENGTH, v_integer (first_burst_length params));
    (ISCSI_LOGIN_PARAM_MAX_BURST_LENGTH, v_integer (max_burst_length params)) ].

Fixpoint table_lookup (id : Z) (t : list (Z * s_value_t)) : option s_value_t :=
  match t with
  | [] => None
  | (k, v) :: t' => if id =? k then Some v else table_lookup id t'
  end.

(** The mapping as the specification words it: defined on the rows of the
    table, where it stores the row's field and echoes the identifier;
    [EINVAL] and an untouched record everywhere else. *)
Definition param_copy_spec (param_id : Z) (params : iscsi_login_params_t)
    (ipsp : iscsi_param_set_t) : Z * iscsi_param_set_t :=
  match table_lookup param_id (param_copy_table params) with
  | Some v => (0, set_s_param (set_s_value ipsp v) param_id)
  | None => (EINVAL, ipsp)
  end.

Lemma table_has_eleven_rows params :
  length (param_copy_table params) = 11%nat /\
  NoDup (map fst (param_copy_table params)).
Proof.
  split; [reflexivity|].
  cbn. repeat constructor; cbn; intuition discriminate.
Qed.

Lemma table_lookup_in id t :
  table_lookup id t <> None <-> In id (map fst t).
Proof.
  induction t as [|[k v] t IH]; cbn.
  - tauto.
  - destruct (Z.eqb_spec id k) as [->|Hne].
    + split; [auto | discriminate].
    + rewrite IH. split; [auto | intros [H|H]; congruence].
Qed.

(** C9. [iscsid_copyto_param_set] is the table of the specification: it
    returns 0 exactly on the eleven identifiers of the table, storing the
    row's field and echoing the identifier into [s_param]; every other
    identifier, the three unsettable ones and anything at or beyond
    [ISCSI_NUM_LOGIN_PARAM] included, gets [EINVAL] and an unchanged
    record. *)
Theorem iscsid_copyto_param_set_table :
  forall param_id params ipsp,
    iscsid_copyto_param_set param_id params ipsp
      = param_copy_spec param_id params ipsp
    /\ (fst (iscsid_copyto_param_set param_id params ipsp) = 0
        <-> In param_id (map fst (param_copy_table params)))
    /\ (fst (iscsid_copyto_param_set param_id params ipsp) = 0
        -> s_param (snd (iscsid_copyto_param_set param_id params ipsp))
           = param_id)
    /\ (~ In param_id (map fst (param_copy_table params))
        -> iscsid_copyto_param_set param_id params ipsp = (EINVAL, ipsp))
    /\ iscsid_copyto_param_set ISCSI_LOGIN_PARAM_MAX_CONNECTIONS params ipsp
         = (EINVAL, ipsp)
    /\ iscsid_copyto_param_set ISCSI_LOGIN_PARAM_OUTSTANDING_R2T params ipsp
         = (EINVAL, ipsp)
    /\ iscsid_copyto_param_set ISCSI_LOGIN_PARAM_ERROR_RECOVERY_LEVEL params ipsp
         = (EINVAL, ipsp)
    /\ (ISCSI_NUM_LOGIN_PARAM <= param_id
        -> iscsid_copyto_param_set param_id params ipsp = (EINVAL, ipsp)).
Proof.
  intros param_id params ipsp.
  assert (Heq : iscsid_copyto_param_set param_id params ipsp
                = param_copy_spec param_id params ipsp).
  { unfold iscsid_copyto_param_set, param_copy_spec.
    destruct (Z.leb_spec ISCSI_NUM_LOGIN_PARAM param_id) as [Hge|Hlt].
    - unfold ISCSI_NUM_LOGIN_PARAM in Hge. cbn.
      repeat match goal with
      | |- context [param_id =? ?k] =>
          destruct (Z.eqb_spec param_id k); [unfold
            ISCSI_LOGIN_PARAM_DATA_SEQUENCE_IN_ORDER,
            ISCSI_LOGIN_PARAM_IMMEDIATE_DATA, ISCSI_LOGIN_PARAM_INITIAL_R2T,
            ISCSI_LOGIN_PARAM_DATA_PDU_IN_ORDER,
            ISCSI_LOGIN_PARAM_HEADER_DIGEST, ISCSI_LOGIN_PARAM_DATA_DIGEST,
            ISCSI_LOGIN_PARAM_DEFAULT_TIME_2_RETAIN,
            ISCSI_LOGIN_PARAM_DEFAULT_TIME_2_WAIT,
            ISCSI_LOGIN_PARAM_MAX_RECV_DATA_SEGMENT_LENGTH,
            ISCSI_LOGIN_PARAM_FIRST_BURST_LENGTH,
            ISCSI_LOGIN_PARAM_MAX_BURST_LENGTH in *; lia |]
      end.
      reflexivity.
    - cbn.
      repeat match goal with
      | |- context [param_id =? ?k] =>
          destruct (Z.eqb_spec param_id k); [reflexivity |]
      end.
      reflexivity. }
  assert (Hok : fst (param_copy_spec param_id params ipsp) = 0
                <-> In param_id (map fst (param_copy_table params))).
  { rewrite <- table_lookup_in. unfold param_copy_spec.
    destruct (table_lookup param_id (param_copy_table params)); cbn.
    - split; [discriminate | reflexivity].
    - split; [discriminate | congruence]. }
  assert (Hno : ~ In param_id (map fst (param_copy_table params)) ->
                param_copy_spec param_id params ipsp = (EINVAL, ipsp)).
  { rewrite <- table_lookup_in. unfold param_copy_spec.
    destruct (table_lookup param_id (param_copy_table params)).
    - intros H. exfalso. apply H. discriminate.
    - reflexivity. }
  rewrite Heq.
  repeat split; try reflexivity; try apply Hok; try exact Hno.
  - unfold param_copy_spec.
    destruct (table_lookup param_id (param_copy_table params)); cbn;
      [reflexivity | discriminate].
  - intros Hge. apply Hno. cbn. unfold ISCSI_NUM_LOGIN_PARAM in Hge.
    unfold ISCSI_LOGIN_PARAM_DATA_SEQUENCE_IN_ORDER,
      ISCSI_LOGIN_PARAM_IMMEDIATE_DATA, ISCSI_LOGIN_PARAM_INITIAL_R2T,
      ISCSI_LOGIN_PARAM_DATA_PDU_IN_ORDER,
      ISCSI_LOGIN_PARAM_HEADER_DIGEST, ISCSI_LOGIN_PARAM_DATA_DIGEST,
      ISCSI_LOGIN_PARAM_DEFAULT_TIME_2_RETAIN,
      ISCSI_LOGIN_PARAM_DEFAULT_TIME_2_WAIT,
      ISCSI_LOGIN_PARAM_MAX_RECV_DATA_SEGMENT_LENGTH,
      ISCSI_LOGIN_PARAM_FIRST_BURST_LENGTH,
      ISCSI_LOGIN_PARAM_MAX_BURST_LENGTH.
    intuition lia.
Qed.

End Param.

(** ** Discovery methods, sessions and the driver state *)

(** Modelled from the spec: [iSCSIDiscoveryMethod_t] of [iscsi_if.h], which
    is not among the sources: a flag set with one bit per method, the
    sentinel [iSCSIDiscoveryMethodUnknown] being the empty set, and
    [ISCSI_ALL_DISCOVERY_METHODS] the four bits together. *)
Definition iSCSIDiscoveryMethodUnknown : Z := 0.
Definition iSCSIDiscoveryMethodStatic : Z := 1.
Definition iSCSIDiscoveryMethodSLP : Z := 2.
Definition iSCSIDiscoveryMethodISNS : Z := 4.
Definition iSCSIDiscoveryMethodSendTargets : Z := 8.
Definition ISCSI_ALL_DISCOVERY_METHODS : Z :=
  Z.lor (Z.lor (Z.lor iSCSIDiscoveryMethodStatic iSCSIDiscoveryMethodSendTargets)
               iSCSIDiscoveryMethodISNS)
        iSCSIDiscoveryMethodSLP.

(** The sysevent subclasses named by the source. *)
Inductive esc_iscsi :=
| ESC_ISCSI_STATIC_START | ESC_ISCSI_STATIC_END
| ESC_ISCSI_SEND_TARGETS_START | ESC_ISCSI_SEND_TARGETS_END
| ESC_ISCSI_SLP_START | ESC_ISCSI_SLP_END
| ESC_ISCSI_ISNS_START | ESC_ISCSI_ISNS_END.

(** A socket address is the bytes of an [iscsi_sockaddr_t]. *)
Definition sockaddr := list Z.

(** [bcmp]: zero when the first [n] bytes agree. *)
Definition bcmp (a b : sockaddr) (n : nat) : Z :=
  if list_eq_dec Z.eq_dec (firstn n a) (firstn n b) then 0 else 1.

Record iscsi_conn_t := {
  conn_base_addr : sockaddr
}.

Inductive iscsi_sess_type_t :=
| ISCSI_SESS_TYPE_NORMAL
| ISCSI_SESS_TYPE_DISCOVERY.

(** A session.  [sess_name], [sess_discovered_by], [sess_discovered_addr],
    [sess_conn_act] and [sess_oid] are the fields [iscsid.c] reads; the
    configured portal group tag, the ISID slot, the session type and the
    connection list are the rest of what the create-or-find collaborators
    keep. *)
Record iscsi_sess_t := {
  sess_oid : Z;
  sess_name : string;
  sess_discovered_by : Z;
  sess_discovered_addr : sockaddr;
  sess_tpgt_conf : Z;
  sess_isid : Z;
  sess_type : iscsi_sess_type_t;
  sess_conn_list : list iscsi_conn_t;
  sess_conn_act : option iscsi_conn_t
}.

(** One row of the discovery thread table [iscsid_thr]. *)
Record iscsid_thr_table := {
  thr_id : option nat;
  method : Z;
  name : option string
}.

(** The heap objects whose allocation and release are followed. *)
Inductive heap_obj :=
| obj_scn_callback_arg
| obj_portal_group_list
| obj_sendtgts_list.

(** What the code does to the world outside the modelled state, in the
    order it does it. *)
Inductive event :=
| ev_sysevent (subclass : option esc_iscsi)
| ev_thread_create (m : Z)
| ev_thread_start (thr : nat)
| ev_thread_stop (thr : nat)
| ev_thread_send_wakeup (thr : nat)
| ev_sess_destroy (isp : iscsi_sess_t) (status : Z)
| ev_targetparam_remove_target (t_oid : Z)
| ev_sess_online (isp : iscsi_sess_t)
| ev_set_params (ips : Param.iscsi_param_set_t) (rc : Z)
| ev_persistent_chap_set (nm : string)
| ev_ioctl_sendtgts_get (stl_in_cnt : Z)
| ev_kmem_zalloc (o : heap_obj) (entries : Z)
| ev_kmem_free (o : heap_obj)
| ev_note (msg : string).

(** The state the file works on: the fields of [iscsi_hba_t] it uses, the
    global thread table, the two names it may write to the persistent
    store, and the trace of calls made so far. *)
Record world := {
  hba_name : string;
  hba_alias : string;
  hba_oid : Z;
  hba_sess_list : list iscsi_sess_t;
  hba_discovery_events : Z;
  hba_discovery_in_progress : bool;
  iscsid_thr : list iscsid_thr_table;
  ps_initiator_name : option string;
  ps_alias_name : option string;
  trace : list event
}.

Definition set_hba_name (w : world) (v : string) : world :=
  {| hba_name := v; hba_alias := hba_alias w; hba_oid := hba_oid w;
     hba_sess_list := hba_sess_list w;
     hba_discovery_events := hba_discovery_events w;
     hba_discovery_in_progress := hba_discovery_in_progress w;
     iscsid_thr := iscsid_thr w; ps_initiator_name := ps_initiator_name w;
     ps_alias_name := ps_alias_name w; trace := trace w |}.

Definition set_hba_alias (w : world) (v : string) : world :=
  {| hba_name := hba_name w; hba_alias := v; hba_oid := hba_oid w;
     hba_sess_list := hba_sess_list w;
     hba_discovery_events := hba_discovery_events w;
     hba_discovery_in_progress := hba_discovery_in_progress w;
     iscsid_thr := iscsid_thr w; ps_initiator_name := ps_initiator_name w;
     ps_alias_name := ps_alias_name w; trace := trace w |}.

Definition set_hba_sess_list (w : world) (v : list iscsi_sess_t) : world :=
  {| hba_name := hba_name w; hba_alias := hba_alias w; hba_oid := hba_oid w;
     hba_sess_list := v;
     hba_discovery_events := hba_discovery_events w;
     hba_discovery_in_progress := hba_discovery_in_progress w;
     iscsid_thr := iscsid_thr w; ps_initiator_name := ps_initiator_name w;
     ps_alias_name := ps_alias_name w; trace := trace w |}.

Definition set_hba_discovery_events (w : world) (v : Z) : world :=
  {| hba_name := hba_name w; hba_alias := hba_alias w; hba_oid := hba_oid w;
     hba_sess_list := hba_sess_list w;
     hba_discovery_events := v;
     hba_discovery_in_progress := hba_discovery_in_progress w;
     iscsid_thr := iscsid_thr w; ps_initiator_name := ps_initiator_name w;
     ps_alias_name := ps_alias_name w; trace := trace w |}.

Definition set_hba_discovery_in_progress (w : world) (v : bool) : world :=
  {| hba_name := hba_name w; hba_alias := hba_alias w; hba_oid := hba_oid w;
     hba_sess_list := hba_sess_list w;
     hba_discovery_events := hba_discovery_events w;
     hba_discovery_in_progress := v;
     iscsid_thr := iscsid_thr w; ps_initiator_name := ps_initiator_name w;
     ps_alias_name := ps_alias_name w; trace := trace w |}.

Definition set_iscsid_thr (w : world) (v : list iscsid_thr_table) : world :=
  {| hba_name := hba_name w; hba_alias := hba_alias w; hba_oid := hba_oid w;
     hba_sess_list := hba_sess_list w;
     hba_discovery_events := hba_discovery_events w;
     hba_discovery_in_progress := hba_discovery_in_progress w;
     iscsid_thr := v; ps_initiator_name := ps_initiator_name w;
     ps_alias_name := ps_alias_name w; trace := trace w |}.

Definition set_ps_initiator_name (w : world) (v : option string) : world :=
  {| hba_name := hba_name w; hba_alias := hba_alias w; hba_oid := hba_oid w;
     hba_sess_list := hba_sess_list w;
     hba_discovery_events := hba_discovery_events w;
     hba_discovery_in_progress := hba_discovery_in_progress w;
     iscsid_thr := iscsid_thr w; ps_initiator_name := v;
     ps_alias_name := ps_alias_name w; trace := trace w |}.

Definition set_ps_alias_name (w : world) (v : option string) : world :=
  {| hba_name := hba_name w; hba_alias := hba_alias w; hba_oid := hba_oid w;
     hba_sess_list := hba_sess_list w;
     hba_discovery_events := hba_discovery_events w;
     hba_discovery_in_progress := hba_discovery_in_progress w;
     iscsid_thr := iscsid_thr w; ps_initiator_name := ps_initiator_name w;
     ps_alias_name := v; trace := trace w |}.

Definition set_trace (w : world) (v : list event) : world :=
  {| hba_name := hba_name w; hba_alias := hba_alias w; hba_oid := hba_oid w;
     hba_sess_list := hba_sess_list w;
     hba_discovery_events := hba_discovery_events w;
     hba_discovery_in_progress := hba_discovery_in_progress w;
     iscsid_thr := iscsid_thr w; ps_initiator_name := ps_initiator_name w;
     ps_alias_name := ps_alias_name w; trace := v |}.

(** A computation on the driver state. *)
Definition M (A : Type) : Type := world -> A * world.

Definition ret {A} (a : A) : M A := fun w => (a, w).

Definition bind {A B} (c : M A) (k : A -> M B) : M B :=
  fun w => let (a, w1) := c w in k a w1.

Declare Scope iscsid_scope.
Delimit Scope iscsid_scope with iscsid.
Notation "x <- c ;; k" := (bind c (fun x => k))
  (at level 61, c at next level, right associativity) : iscsid_scope.
Notation "c ;; k" := (bind c (fun _ => k))
  (at level 61, right associativity) : iscsid_scope.
Local Open Scope iscsid_scope.

Definition emit (e : event) : M unit :=
  fun w => (tt, set_trace w (trace w ++ [e])).

(** The thread table as the source initialises it, with its sentinel row. *)
Definition iscsid_thr_initial : list iscsid_thr_table :=
  [ {| thr_id := None; method := iSCSIDiscoveryMethodStatic;
       name := Some "Static"%string |};
    {| thr_id := None; method := iSCSIDiscoveryMethodSendTargets;
       name := Some "SendTarget"%string |};
    {| thr_id := None; method := iSCSIDiscoveryMethodSLP;
       name := Some "SLP"%string |};
    {| thr_id := None; method := iSCSIDiscoveryMethodISNS;
       name := Some "iSNS"%string |};
    {| thr_id := None; method := iSCSIDiscoveryMethodUnknown;
       name := None |} ].

(** The discovery method event table [for_failure], with its terminator. *)
Definition for_failure : list Z :=
  [ iSCSIDiscoveryMethodStatic; iSCSIDiscoveryMethodSLP;
    iSCSIDiscoveryMethodISNS; iSCSIDiscoveryMethodSendTargets;
    iSCSIDiscoveryMethodUnknown ].

(** [iscsi_send_sysevent] *)
Definition iscsi_send_sysevent (subclass : option esc_iscsi) : M unit :=
  emit (ev_sysevent subclass).

(** [iscsi_discovery_event]: an end event records its method in
    [hba_discovery_events]; the switch has no default case. *)
Definition iscsi_discovery_event (m : Z) (start : bool) : M unit :=
  fun w =>
    let '(subclass, w1) :=
      if m =? iSCSIDiscoveryMethodStatic then
        if start then (Some ESC_ISCSI_STATIC_START, w)
        else (Some ESC_ISCSI_STATIC_END,
              set_hba_discovery_events w
                (Z.lor (hba_discovery_events w) iSCSIDiscoveryMethodStatic))
      else if m =? iSCSIDiscoveryMethodSendTargets then
        if start then (Some ESC_ISCSI_SEND_TARGETS_START, w)
        else (Some ESC_ISCSI_SEND_TARGETS_END,
              set_hba_discovery_events w
                (Z.lor (hba_discovery_events w) iSCSIDiscoveryMethodSendTargets))
      else if m =? iSCSIDiscoveryMethodSLP then
        if start then (Some ESC_ISCSI_SLP_START, w)
        else (Some ESC_ISCSI_SLP_END,
              set_hba_discovery_events w
                (Z.lor (hba_discovery_events w) iSCSIDiscoveryMethodSLP))
      else if m =? iSCSIDiscoveryMethodISNS then
        if start then (Some ESC_ISCSI_ISNS_START, w)
        else (Some ESC_ISCSI_ISNS_END,
              set_hba_discovery_events w
                (Z.lor (hba_discovery_events w) iSCSIDiscoveryMethodISNS))
      else (None, w) in
    iscsi_send_sysevent subclass w1.

(** ** The reconciler: [iscsid_del] *)

Definition ISCSI_SUCCESS (status : Z) : bool := status =? 0.

Definition del_measure (pre rest : list iscsi_sess_t) : nat :=
  let n := (length pre + length rest)%nat in (n * n + n + length rest)%nat.

Section Iscsid.

Set Default Proof Using "Type".

(** [SIZEOF_SOCKADDR] is a macro of [iscsi.h], which is not among the
    sources: the length of a socket address, chosen by its family. *)
Variable SIZEOF_SOCKADDR : sockaddr -> nat.

(** Modelled from the spec: [iscsi_sess_destroy], which lives in the session
    layer.  Its status may depend on the session and on the list it is in
    (a busy downstream resource makes it fail); on success the session is
    unlinked from [hba_sess_list], on failure the list is left alone. *)
Variable iscsi_sess_destroy : list iscsi_sess_t -> iscsi_sess_t -> Z.

(** The persistent store, read-only here: whether it holds overridden
    parameters for a name, and the configured-session record of a name
    ([None] for [B_FALSE]; otherwise [ics_out] and [ics_bound]) as a function
    of the name and of the [ics_in] the caller offers. *)
Variable persistent_param_get : string -> bool.
Variable persistent_get_config_session : string -> Z -> option (Z * bool).

(** The object id of a target's parameter record. *)
Variable iscsi_targetparam_get_oid : string -> Z.

(** [iscsid_remove_target_param] *)
Definition iscsid_remove_target_param (nm : string) : list event :=
  if negb (persistent_param_get nm)
     && negb (match persistent_get_config_session nm 1 with
              | Some _ => true
              | None => false
              end)
  then [ev_targetparam_remove_target (iscsi_targetparam_get_oid nm)]
  else [].

(** The first test of the loop body: the name is absent or equal, and the
    session was discovered by [m]. *)
Definition del_name_method_match (target_name : option string) (m : Z)
    (isp : iscsi_sess_t) : bool :=
  (match target_name with
   | None => true
   | Some n => String.eqb (sess_name isp) n
   end)
  && (sess_discovered_by isp =? m).

(** The value the loop body gives [try_destroy]. *)
Definition del_try_destroy (m : Z) (addr_dsc : option sockaddr)
    (isp : iscsi_sess_t) : bool :=
  if (m =? iSCSIDiscoveryMethodISNS) || (m =? iSCSIDiscoveryMethodSendTargets)
  then
    match addr_dsc with
    | None => true
    | Some a =>
        bcmp a (sess_discovered_addr isp)
             (SIZEOF_SOCKADDR (sess_discovered_addr isp)) =? 0
    end
  else if m =? iSCSIDiscoveryMethodStatic then
    match addr_dsc with
    | None => true
    | Some a =>
        match sess_conn_act isp with
        | Some icp =>
            bcmp a (conn_base_addr icp)
                 (SIZEOF_SOCKADDR (conn_base_addr icp)) =? 0
        | None => false
        end
    end
  else true.

(** The [while (isp != NULL)] loop.  [rest] is the list from [isp] on and
    [pre] the sessions already passed, last first; a successful destroy
    unlinks [isp] and starts again from the head of the list. *)
Equations? iscsid_del_loop (target_name : option string) (m : Z)
    (addr_dsc : option sockaddr) (pre rest : list iscsi_sess_t)
    (rtn : bool) (evs : list event)
    : bool * list iscsi_sess_t * list event
    by wf (del_measure pre rest) lt :=
  iscsid_del_loop target_name m addr_dsc pre [] rtn evs :=
    (rtn, rev pre, evs);
  iscsid_del_loop target_name m addr_dsc pre (isp :: tl) rtn evs :=
    if del_name_method_match target_name m isp then
      if del_try_destroy m addr_dsc isp then
        let status := iscsi_sess_destroy (rev pre ++ isp :: tl) isp in
        if ISCSI_SUCCESS status then
          iscsid_del_loop target_name m addr_dsc [] (rev pre ++ tl) rtn
            (evs ++ ev_sess_destroy isp status
                 :: iscsid_remove_target_param (sess_name isp))
        else
          iscsid_del_loop target_name m addr_dsc (isp :: pre) tl false
            (evs ++ [ev_sess_destroy isp status;
                     ev_note "session logout failed"])
      else iscsid_del_loop target_name m addr_dsc (isp :: pre) tl rtn evs
    else iscsid_del_loop target_name m addr_dsc (isp :: pre) tl rtn evs.
Proof.
  all: unfold del_measure; cbn [length];
    rewrite ?length_app, ?length_rev; cbn [length]; nia.
Qed.

(** [iscsid_del] *)
Definition iscsid_del (target_name : option string) (m : Z)
    (addr_dsc : option sockaddr) : M bool :=
  fun w =>
    let '(rtn, l, evs) :=
      iscsid_del_loop target_name m addr_dsc [] (hba_sess_list w) true [] in
    (rtn, set_trace (set_hba_sess_list w l) (trace w ++ evs)).


(** *** Properties of [iscsid_del] *)

(** A session the loop hands to [iscsi_sess_destroy]. *)
Definition del_candidate (target_name : option string) (m : Z)
    (addr_dsc : option sockaddr) (isp : iscsi_sess_t) : bool :=
  del_name_method_match target_name m isp && del_try_destroy m addr_dsc isp.

Lemma iscsid_del_loop_step target_name m addr_dsc pre isp tl rtn evs :
  iscsid_del_loop target_name m addr_dsc pre (isp :: tl) rtn evs =
    if del_candidate target_name m addr_dsc isp then
      if ISCSI_SUCCESS (iscsi_sess_destroy (rev pre ++ isp :: tl) isp) then
        iscsid_del_loop target_name m addr_dsc [] (rev pre ++ tl) rtn
          (evs ++ ev_sess_destroy isp
                    (iscsi_sess_destroy (rev pre ++ isp :: tl) isp)
               :: iscsid_remove_target_param (sess_name isp))
      else
        iscsid_del_loop target_name m addr_dsc (isp :: pre) tl false
          (evs ++ [ev_sess_destroy isp
                     (iscsi_sess_destroy (rev pre ++ isp :: tl) isp);
                   ev_note "session logout failed"])
    else iscsid_del_loop target_name m addr_dsc (isp :: pre) tl rtn evs.
Proof.
  simp iscsid_del_loop. unfold del_candidate.
  destruct (del_name_method_match target_name m isp); cbn [andb];
    [destruct (del_try_destroy m addr_dsc isp)|]; reflexivity.
Qed.

(** Induction along the loop: [P] holds of every configuration if it holds
    at the end of the list and is carried backwards over each of the three
    moves. *)
Lemma iscsid_del_loop_ind' target_name m addr_dsc
    (P : list iscsi_sess_t -> list iscsi_sess_t -> bool -> list event -> Prop) :
  (forall pre rtn evs, P pre [] rtn evs) ->
  (forall pre isp tl rtn evs,
     del_candidate target_name m addr_dsc isp = true ->
     ISCSI_SUCCESS (iscsi_sess_destroy (rev pre ++ isp :: tl) isp) = true ->
     P [] (rev pre ++ tl) rtn
       (evs ++ ev_sess_destroy isp
                 (iscsi_sess_destroy (rev pre ++ isp :: tl) isp)
            :: iscsid_remove_target_param (sess_name isp)) ->
     P pre (isp :: tl) rtn evs) ->
  (forall pre isp tl rtn evs,
     del_candidate target_name m addr_dsc isp = true ->
     ISCSI_SUCCESS (iscsi_sess_destroy (rev pre ++ isp :: tl) isp) = false ->
     P (isp :: pre) tl false
       (evs ++ [ev_sess_destroy isp
                  (iscsi_sess_destroy (rev pre ++ isp :: tl) isp);
                ev_note "session logout failed"]) ->
     P pre (isp :: tl) rtn evs) ->
  (forall pre isp tl rtn evs,
     del_candidate target_name m addr_dsc isp = false ->
     P (isp :: pre) tl rtn evs ->
     P pre (isp :: tl) rtn evs) ->
  forall pre rest rtn evs, P pre rest rtn evs.
Proof.
  intros Hnil Hok Hbusy Hskip pre rest.
  remember (del_measure pre rest) as k eqn:Hk.
  revert pre rest Hk.
  induction k as [k IH] using lt_wf_ind.
  intros pre [|isp tl] Hk rtn evs.
  - apply Hnil.
  - destruct (del_candidate target_name m addr_dsc isp) eqn:Hc.
    + destruct (ISCSI_SUCCESS (iscsi_sess_destroy (rev pre ++ isp :: tl) isp))
        eqn:Hs.
      * apply Hok; auto.
        eapply IH; [|reflexivity]. subst k. unfold del_measure.
        cbn [length]. rewrite ?length_app, ?length_rev. nia.
      * apply Hbusy; auto.
        eapply IH; [|reflexivity]. subst k. unfold del_measure.
        cbn [length]. nia.
    + apply Hskip; auto.
      eapply IH; [|reflexivity]. subst k. unfold del_measure.
      cbn [length]. nia.
Qed.

Lemma iscsid_del_loop_nil target_name m addr_dsc pre rtn evs :
  iscsid_del_loop target_name m addr_dsc pre [] rtn evs = (rtn, rev pre, evs).
Proof. now simp iscsid_del_loop. Qed.

Ltac del_loop_induction target_name m addr_dsc pre rest rtn evs :=
  revert pre rest rtn evs;
  match goal with
  | |- forall p r b e, @?Q p r b e =>
      apply (iscsid_del_loop_ind' target_name m addr_dsc Q)
  end;
  [ intros pre rtn evs; cbv beta; rewrite iscsid_del_loop_nil
  | intros pre isp tl rtn evs Hcand Hstatus IH; cbv beta in IH |- *;
    rewrite iscsid_del_loop_step, Hcand, Hstatus
  | intros pre isp tl rtn evs Hcand Hstatus IH; cbv beta in IH |- *;
    rewrite iscsid_del_loop_step, Hcand, Hstatus
  | intros pre isp tl rtn evs Hcand IH; cbv beta in IH |- *;
    rewrite iscsid_del_loop_step, Hcand ].

Lemma iscsid_del_loop_false target_name m addr_dsc pre rest rtn evs :
  rtn = false ->
  fst (fst (iscsid_del_loop target_name m addr_dsc pre rest rtn evs)) = false.
Proof.
  del_loop_induction target_name m addr_dsc pre rest rtn evs; auto.
Qed.

(** When the loop returns [B_TRUE], what is left is the list it started
    from without its candidates, in the order they were in. *)
Lemma iscsid_del_loop_true target_name m addr_dsc pre rest rtn evs :
  fst (fst (iscsid_del_loop target_name m addr_dsc pre rest rtn evs)) = true ->
  (forall s, In s pre -> del_candidate target_name m addr_dsc s = false) ->
  snd (fst (iscsid_del_loop target_name m addr_dsc pre rest rtn evs))
    = filter (fun s => negb (del_candidate target_name m addr_dsc s))
             (rev pre ++ rest).
Proof.
  del_loop_induction target_name m addr_dsc pre rest rtn evs.
  - intros _ Hp. cbn. rewrite app_nil_r.
    symmetry. apply forallb_filter_id. apply forallb_forall.
    intros s Hs. apply in_rev in Hs. rewrite (Hp s Hs). reflexivity.
  - intros Ht Hp.
    rewrite IH; auto; [|intros s []].
    cbn [rev app]. rewrite !filter_app. cbn [filter]. rewrite Hcand.
    reflexivity.
  - intros Ht _. rewrite iscsid_del_loop_false in Ht; congruence.
  - intros Ht Hp.
    rewrite IH; auto.
    + cbn [rev]. rewrite <- app_assoc. reflexivity.
    + intros s [<-|Hs]; auto.
Qed.

Lemma iscsid_del_loop_events_grow target_name m addr_dsc pre rest rtn evs e :
  In e evs ->
  In e (snd (iscsid_del_loop target_name m addr_dsc pre rest rtn evs)).
Proof.
  del_loop_induction target_name m addr_dsc pre rest rtn evs; auto;
    intros Hin; apply IH; apply in_or_app; auto.
Qed.

(** Every session still ahead of the scan that is a candidate is handed to
    [iscsi_sess_destroy]. *)
Lemma iscsid_del_loop_attempts_all target_name m addr_dsc pre rest rtn evs s :
  In s rest ->
  del_candidate target_name m addr_dsc s = true ->
  exists status,
    In (ev_sess_destroy s status)
       (snd (iscsid_del_loop target_name m addr_dsc pre rest rtn evs)).
Proof.
  del_loop_induction target_name m addr_dsc pre rest rtn evs.
  - intros [].
  - intros [<-|Hin] Hc.
    + eexists. apply iscsid_del_loop_events_grow.
      apply in_or_app. right. left. reflexivity.
    + apply IH; auto. apply in_or_app. auto.
  - intros [<-|Hin] Hc.
    + eexists. apply iscsid_del_loop_events_grow.
      apply in_or_app. right. left. reflexivity.
    + apply IH; auto.
  - intros [<-|Hin] Hc; [congruence|]. apply IH; auto.
Qed.

(** Only candidates of the list are handed to [iscsi_sess_destroy]. *)
Lemma iscsid_del_loop_attempts_only target_name m addr_dsc pre rest rtn evs
    s status :
  In (ev_sess_destroy s status)
     (snd (iscsid_del_loop target_name m addr_dsc pre rest rtn evs)) ->
  In (ev_sess_destroy s status) evs
  \/ (In s (rev pre ++ rest)
      /\ del_candidate target_name m addr_dsc s = true).
Proof.
  del_loop_induction target_name m addr_dsc pre rest rtn evs.
  - cbn. auto.
  - intros Hin. apply IH in Hin. destruct Hin as [Hin|[Hin Hc]].
    + apply in_app_or in Hin. destruct Hin as [Hin|[Heq|Hin]]; auto.
      * inversion Heq; subst. right. split; auto.
        apply in_or_app. right. left. reflexivity.
      * exfalso. unfold iscsid_remove_target_param in Hin.
        destruct (_ && _) in Hin; cbn in Hin; intuition discriminate.
    + right. split; auto. cbn [rev app] in Hin.
      apply in_app_or in Hin. apply in_or_app. cbn. tauto.
  - intros Hin. apply IH in Hin. destruct Hin as [Hin|[Hin Hc]].
    + apply in_app_or in Hin. destruct Hin as [Hin|[Heq|[Heq|[]]]]; auto.
      * inversion Heq; subst. right. split; auto.
        apply in_or_app. right. left. reflexivity.
      * discriminate.
    + right. split; auto. cbn [rev] in Hin. rewrite <- app_assoc in Hin.
      exact Hin.
  - intros Hin. apply IH in Hin. destruct Hin as [Hin|[Hin Hc]]; auto.
    right. split; auto. cbn [rev] in Hin. rewrite <- app_assoc in Hin.
    exact Hin.
Qed.

(** The discovery-address predicate as the specification words it. *)
Inductive disc_addr_predicate (m : Z) (addr_dsc : option sockaddr)
    (isp : iscsi_sess_t) : Prop :=
| dap_discovered_any :
    m = iSCSIDiscoveryMethodISNS \/ m = iSCSIDiscoveryMethodSendTargets ->
    addr_dsc = None ->
    disc_addr_predicate m addr_dsc isp
| dap_discovered_equal a :
    m = iSCSIDiscoveryMethodISNS \/ m = iSCSIDiscoveryMethodSendTargets ->
    addr_dsc = Some a ->
    firstn (SIZEOF_SOCKADDR (sess_discovered_addr isp)) a
      = firstn (SIZEOF_SOCKADDR (sess_discovered_addr isp))
               (sess_discovered_addr isp) ->
    disc_addr_predicate m addr_dsc isp
| dap_static_any :
    m = iSCSIDiscoveryMethodStatic ->
    addr_dsc = None ->
    disc_addr_predicate m addr_dsc isp
| dap_static_equal a icp :
    m = iSCSIDiscoveryMethodStatic ->
    addr_dsc = Some a ->
    sess_conn_act isp = Some icp ->
    firstn (SIZEOF_SOCKADDR (conn_base_addr icp)) a
      = firstn (SIZEOF_SOCKADDR (conn_base_addr icp)) (conn_base_addr icp) ->
    disc_addr_predicate m addr_dsc isp
| dap_other :
    m <> iSCSIDiscoveryMethodISNS ->
    m <> iSCSIDiscoveryMethodSendTargets ->
    m <> iSCSIDiscoveryMethodStatic ->
    disc_addr_predicate m addr_dsc isp.

Lemma bcmp_zero a b n : (bcmp a b n =? 0) = true <-> firstn n a = firstn n b.
Proof.
  unfold bcmp. destruct (list_eq_dec Z.eq_dec (firstn n a) (firstn n b));
    cbn; split; auto; discriminate.
Qed.

Lemma del_try_destroy_predicate m addr_dsc isp :
  del_try_destroy m addr_dsc isp = true <-> disc_addr_predicate m addr_dsc isp.
Proof.
  unfold del_try_destroy.
  destruct (Z.eqb_spec m iSCSIDiscoveryMethodISNS) as [Hi|Hi];
    [|destruct (Z.eqb_spec m iSCSIDiscoveryMethodSendTargets) as [Hs|Hs]];
    cbn [orb].
  1,2: destruct addr_dsc as [a|]; [rewrite bcmp_zero|]; split; intros H;
    try reflexivity;
    [ eapply dap_discovered_equal; eauto
    | inversion H; subst; try congruence; try discriminate
    | apply dap_discovered_any; auto ].
  - destruct (Z.eqb_spec m iSCSIDiscoveryMethodStatic) as [Ht|Ht].
    + destruct addr_dsc as [a|].
      * destruct (sess_conn_act isp) as [icp|] eqn:Hact.
        -- rewrite bcmp_zero. split; intros H.
           ++ eapply dap_static_equal; eauto.
           ++ inversion H; subst; try congruence; try discriminate;
                try (destruct H0; discriminate).
        -- split; [discriminate|]. intros H.
           inversion H; subst; try congruence; try discriminate;
             try (destruct H0; discriminate).
      * split; auto. intros _. apply dap_static_any; auto.
    + split; auto. intros _. apply dap_other; auto.
Qed.

Lemma iscsid_del_unfold target_name m addr_dsc w :
  iscsid_del target_name m addr_dsc w =
    (fst (fst (iscsid_del_loop target_name m addr_dsc []
                 (hba_sess_list w) true [])),
     set_trace
       (set_hba_sess_list w
          (snd (fst (iscsid_del_loop target_name m addr_dsc []
                       (hba_sess_list w) true []))))
       (trace w ++ snd (iscsid_del_loop target_name m addr_dsc []
                          (hba_sess_list w) true []))).
Proof.
  unfold iscsid_del.
  destruct (iscsid_del_loop target_name m addr_dsc [] (hba_sess_list w) true [])
    as [[rtn l] evs].
  reflexivity.
Qed.

(** C4. In [iscsid_del] the value of [try_destroy] is the discovery-address
    predicate of the specification: for iSNS and SendTargets a null
    [addr_dsc] or one equal to [sess_discovered_addr] over the bytes
    [SIZEOF_SOCKADDR] gives for it; for Static a null [addr_dsc] or one equal
    to the base address of the active connection (so never with a non-null
    address and no active connection); true for any other method.  And the
    sessions handed to [iscsi_sess_destroy] are the sessions of the list
    whose name and method match and that satisfy the predicate. *)
Theorem iscsid_del_candidate_predicate :
  forall target_name m addr_dsc w isp,
    (del_try_destroy m addr_dsc isp = true
       <-> disc_addr_predicate m addr_dsc isp)
    /\ (m = iSCSIDiscoveryMethodStatic -> sess_conn_act isp = None ->
        addr_dsc <> None -> del_try_destroy m addr_dsc isp = false)
    /\ exists evs,
         trace (snd (iscsid_del target_name m addr_dsc w)) = trace w ++ evs
         /\ ((exists status, In (ev_sess_destroy isp status) evs)
             <-> (In isp (hba_sess_list w)
                  /\ del_name_method_match target_name m isp = true
                  /\ disc_addr_predicate m addr_dsc isp)).
Proof.
  intros target_name m addr_dsc w isp.
  split; [apply del_try_destroy_predicate|].
  split.
  { intros -> Hact Hnull. unfold del_try_destroy. cbn.
    rewrite Hact. destruct addr_dsc; congruence. }
  rewrite iscsid_del_unfold. cbn [snd trace set_trace].
  eexists. split; [reflexivity|].
  rewrite <- del_try_destroy_predicate.
  split.
  - intros [status Hin].
    apply iscsid_del_loop_attempts_only in Hin.
    destruct Hin as [[]|[Hin Hc]]. cbn in Hin.
    unfold del_candidate in Hc. apply andb_prop in Hc. tauto.
  - intros (Hin & Hnm & Htry).
    apply iscsid_del_loop_attempts_all; auto.
    unfold del_candidate. rewrite Hnm, Htry. reflexivity.
Qed.

Lemma del_candidate_all m isp :
  del_candidate None m None isp = (sess_discovered_by isp =? m).
Proof.
  unfold del_candidate, del_name_method_match, del_try_destroy. cbn [andb].
  destruct (sess_discovered_by isp =? m); [|reflexivity].
  destruct ((m =? iSCSIDiscoveryMethodISNS)
            || (m =? iSCSIDiscoveryMethodSendTargets)); [reflexivity|].
  destruct (m =? iSCSIDiscoveryMethodStatic); reflexivity.
Qed.

(** C7. If [iscsid_del] with a null name and a null discovery address
    returns [B_TRUE] for a method, no session discovered by that method is
    left in the list: what is left is the old list without the sessions of
    that method. *)
Theorem iscsid_del_clears_method :
  forall m w w',
    iscsid_del None m None w = (true, w') ->
    (forall isp, In isp (hba_sess_list w') -> sess_discovered_by isp <> m)
    /\ hba_sess_list w'
         = filter (fun s => negb (sess_discovered_by s =? m)) (hba_sess_list w).
Proof.
  intros m w w' H. rewrite iscsid_del_unfold in H.
  pose proof (f_equal fst H) as Hrtn. pose proof (f_equal snd H) as Hw.
  cbn [fst snd] in Hrtn, Hw. clear H. rewrite <- Hw.
  cbn [hba_sess_list set_trace set_hba_sess_list].
  assert (Hl : snd (fst (iscsid_del_loop None m None [] (hba_sess_list w) true []))
               = filter (fun s => negb (sess_discovered_by s =? m))
                        (hba_sess_list w)).
  { rewrite iscsid_del_loop_true; auto; [|intros s []].
    cbn [rev app]. apply filter_ext. intros s.
    rewrite del_candidate_all. reflexivity. }
  split; [|exact Hl].
  intros isp Hin. rewrite Hl in Hin. apply filter_In in Hin.
  destruct Hin as [_ Hne]. intros Heq. rewrite Heq, Z.eqb_refl in Hne.
  discriminate.
Qed.

(** ** The reconciler: [iscsid_add] *)

Definition sockaddr_eqb (a b : sockaddr) : bool :=
  if list_eq_dec Z.eq_dec a b then true else false.

Definition sess_type_eqb (a b : iscsi_sess_type_t) : bool :=
  match a, b with
  | ISCSI_SESS_TYPE_NORMAL, ISCSI_SESS_TYPE_NORMAL => true
  | ISCSI_SESS_TYPE_DISCOVERY, ISCSI_SESS_TYPE_DISCOVERY => true
  | _, _ => false
  end.

(** The session identity the create-or-find looks for. *)
Definition sess_matches (m : Z) (addr_dsc : sockaddr) (target_name : string)
    (tpgt isid : Z) (type : iscsi_sess_type_t) (isp : iscsi_sess_t) : bool :=
  String.eqb (sess_name isp) target_name
  && (sess_discovered_by isp =? m)
  && sockaddr_eqb (sess_discovered_addr isp) addr_dsc
  && (sess_tpgt_conf isp =? tpgt)
  && (sess_isid isp =? isid)
  && sess_type_eqb (sess_type isp) type.

Fixpoint find_index {A} (f : A -> bool) (l : list A) : option nat :=
  match l with
  | [] => None
  | x :: l' =>
      if f x then Some 0%nat
      else match find_index f l' with
           | Some i => Some (S i)
           | None => None
           end
  end.

Fixpoint list_update {A} (i : nat) (x : A) (l : list A) : list A :=
  match l, i with
  | [], _ => []
  | _ :: l', O => x :: l'
  | y :: l', S i' => y :: list_update i' x l'
  end.

Definition sess_add_conn (isp : iscsi_sess_t) (icp : iscsi_conn_t)
    : iscsi_sess_t :=
  {| sess_oid := sess_oid isp; sess_name := sess_name isp;
     sess_discovered_by := sess_discovered_by isp;
     sess_discovered_addr := sess_discovered_addr isp;
     sess_tpgt_conf := sess_tpgt_conf isp; sess_isid := sess_isid isp;
     sess_type := sess_type isp;
     sess_conn_list := sess_conn_list isp ++ [icp];
     sess_conn_act := sess_conn_act isp |}.

Definition sess_has_conn (addr_tgt : sockaddr) (isp : iscsi_sess_t) : bool :=
  existsb (fun icp => sockaddr_eqb (conn_base_addr icp) addr_tgt)
          (sess_conn_list isp).

(** Whether the session layer can allocate a new session of the given
    identity, or a new connection to an address on the session at a
    position, in a given list; and the object id it gives a new session. *)
Variable sess_alloc_ok :
  list iscsi_sess_t -> Z -> sockaddr -> string -> Z -> Z -> bool.
Variable sess_alloc_oid : list iscsi_sess_t -> Z.
Variable conn_alloc_ok : list iscsi_sess_t -> nat -> sockaddr -> bool.

(** Modelled from the spec: [iscsi_sess_create], which lives in the session
    layer: create-or-find a session matching (name, method, discovery
    address, tpgt, isid slot, type); if one exists it is returned unchanged,
    otherwise a new session with no connection is linked at the end of the
    list, unless the allocation fails ([NULL]).  The session is returned as
    its position in the list. *)
Definition iscsi_sess_create (l : list iscsi_sess_t) (m : Z)
    (addr_dsc : sockaddr) (target_name : string) (tpgt isid : Z)
    (type : iscsi_sess_type_t) : option (nat * list iscsi_sess_t) :=
  match find_index (sess_matches m addr_dsc target_name tpgt isid type) l with
  | Some i => Some (i, l)
  | None =>
      if sess_alloc_ok l m addr_dsc target_name tpgt isid then
        Some (length l,
              l ++ [ {| sess_oid := sess_alloc_oid l;
                        sess_name := target_name;
                        sess_discovered_by := m;
                        sess_discovered_addr := addr_dsc;
                        sess_tpgt_conf := tpgt;
                        sess_isid := isid;
                        sess_type := type;
                        sess_conn_list := [];
                        sess_conn_act := None |} ])
      else None
  end.

(** Modelled from the spec: [iscsi_conn_create], which lives in the
    connection layer: create-or-find a connection to [addr_tgt] on the
    session at position [i]; [None] stands for a failure status. *)
Definition iscsi_conn_create (addr_tgt : sockaddr) (i : nat)
    (l : list iscsi_sess_t) : option (list iscsi_sess_t) :=
  match nth_error l i with
  | None => None
  | Some isp =>
      if sess_has_conn addr_tgt isp then Some l
      else if conn_alloc_ok l i addr_tgt then
        Some (list_update i
                (sess_add_conn isp {| conn_base_addr := addr_tgt |}) l)
      else None
  end.

(** The arguments of one call of [iscsid_add]. *)
Record add_args := {
  a_method : Z;
  a_addr_dsc : sockaddr;
  a_target_name : string;
  a_tpgt : Z;
  a_addr_tgt : sockaddr
}.

(** One turn of the loop over the configured sessions: the value left in
    [rtn] and the list. *)
Definition iscsid_add_slot (a : add_args) (isid : Z) (l : list iscsi_sess_t)
    : bool * list iscsi_sess_t :=
  match iscsi_sess_create l (a_method a) (a_addr_dsc a) (a_target_name a)
          (a_tpgt a) isid ISCSI_SESS_TYPE_NORMAL with
  | None => (false, l)
  | Some (isp, l1) =>
      match iscsi_conn_create (a_addr_tgt a) isp l1 with
      | None => (false, l1)
      | Some l2 => (true, l2)
      end
  end.

(** [for (isid = 0; isid < ics->ics_out; isid++)], over the values [isid]
    is still to take. *)
Fixpoint iscsid_add_loop (a : add_args) (isids : list Z)
    (l : list iscsi_sess_t) : bool * list iscsi_sess_t :=
  match isids with
  | [] => (true, l)
  | isid :: rest =>
      let (ok, l1) := iscsid_add_slot a isid l in
      if ok then iscsid_add_loop a rest l1 else (false, l1)
  end.

Definition isid_range (ics_out : Z) : list Z :=
  map Z.of_nat (seq 0 (Z.to_nat ics_out)).

(** The configured-session lookup at the head of [iscsid_add]: by target
    name, else by initiator name, else one bound session; a count above one
    is fetched again with a buffer of that size.  [None] when the second
    fetch fails, otherwise the [ics_out] the loop runs to. *)
Definition configured_sessions (target_name initiator : string) : option Z :=
  let '(tmp, ics_out) :=
    match persistent_get_config_session target_name 1 with
    | Some (ics_out, _) => (target_name, ics_out)
    | None =>
        match persistent_get_config_session initiator 1 with
        | Some (ics_out, _) => (initiator, ics_out)
        | None => (initiator, 1)
        end
    end in
  if 1 <? ics_out then
    match persistent_get_config_session tmp ics_out with
    | Some (ics_out', _) => Some ics_out'
    | None => None
    end
  else Some ics_out.

(** [iscsid_add] *)
Definition iscsid_add (a : add_args) : M bool :=
  fun w =>
    match configured_sessions (a_target_name a) (hba_name w) with
    | None =>
        (false,
         set_trace w
           (trace w ++
            [ev_note "unable to get configured session information"]))
    | Some ics_out =>
        let (rtn, l) :=
          iscsid_add_loop a (isid_range ics_out) (hba_sess_list w) in
        (rtn, set_hba_sess_list w l)
    end.

(** *** The session list only grows under [iscsid_add] *)

(** [s'] is [s] with, possibly, more connections. *)
Definition sess_le (s s' : iscsi_sess_t) : Prop :=
  sess_oid s = sess_oid s' /\ sess_name s = sess_name s'
  /\ sess_discovered_by s = sess_discovered_by s'
  /\ sess_discovered_addr s = sess_discovered_addr s'
  /\ sess_tpgt_conf s = sess_tpgt_conf s' /\ sess_isid s = sess_isid s'
  /\ sess_type s = sess_type s' /\ sess_conn_act s = sess_conn_act s'
  /\ (forall addr, sess_has_conn addr s = true -> sess_has_conn addr s' = true).

(** [l'] holds the sessions of [l] at their positions, each with, possibly,
    more connections, and possibly further sessions after them. *)
Definition ext (l l' : list iscsi_sess_t) : Prop :=
  forall i s, nth_error l i = Some s ->
    exists s', nth_error l' i = Some s' /\ sess_le s s'.

Lemma sess_le_refl s : sess_le s s.
Proof. unfold sess_le. repeat split; auto. Qed.

Lemma sess_le_trans s1 s2 s3 : sess_le s1 s2 -> sess_le s2 s3 -> sess_le s1 s3.
Proof.
  unfold sess_le.
  intros (H1 & H2 & H3 & H4 & H5 & H6 & H7 & H8 & H9)
         (K1 & K2 & K3 & K4 & K5 & K6 & K7 & K8 & K9).
  repeat split; try congruence. auto.
Qed.

Lemma sess_le_matches m addr_dsc target_name tpgt isid type s s' :
  sess_le s s' ->
  sess_matches m addr_dsc target_name tpgt isid type s'
    = sess_matches m addr_dsc target_name tpgt isid type s.
Proof.
  unfold sess_le, sess_matches. intros (_ & -> & -> & -> & -> & -> & -> & _).
  reflexivity.
Qed.

Lemma ext_refl l : ext l l.
Proof. intros i s H. exists s. split; [exact H | apply sess_le_refl]. Qed.

Lemma ext_trans l1 l2 l3 : ext l1 l2 -> ext l2 l3 -> ext l1 l3.
Proof.
  intros H12 H23 i s H. destruct (H12 i s H) as (s2 & H2 & Hle2).
  destruct (H23 i s2 H2) as (s3 & H3 & Hle3).
  exists s3. split; [exact H3 | eapply sess_le_trans; eauto].
Qed.

Lemma ext_app l t : ext l (l ++ t).
Proof.
  intros i s H. exists s. split; [|apply sess_le_refl].
  rewrite nth_error_app1; [exact H|]. apply nth_error_Some. congruence.
Qed.

Lemma nth_error_list_update {A} (l : list A) i j x :
  nth_error (list_update i x l) j =
    if Nat.eqb i j then
      match nth_error l j with Some _ => Some x | None => None end
    else nth_error l j.
Proof.
  revert i j. induction l as [|y l IH]; intros [|i] [|j]; cbn; auto.
  destruct (Nat.eqb i j); reflexivity.
Qed.

Lemma ext_update l i s s' :
  nth_error l i = Some s -> sess_le s s' -> ext l (list_update i s' l).
Proof.
  intros Hi Hle j t Hj. rewrite nth_error_list_update.
  destruct (Nat.eqb_spec i j) as [->|Hne].
  - rewrite Hj. exists s'. split; [reflexivity|]. congruence.
  - exists t. split; [exact Hj | apply sess_le_refl].
Qed.

Lemma ext_cons_inv x l l' :
  ext (x :: l) l' ->
  exists x' l'', l' = x' :: l'' /\ sess_le x x' /\ ext l l''.
Proof.
  intros H. destruct (H 0%nat x eq_refl) as (x' & Hx' & Hle).
  destruct l' as [|y l'']; [discriminate|]. cbn in Hx'. inversion Hx'; subst.
  exists x', l''. split; [reflexivity|]. split; [exact Hle|].
  intros i s Hi. apply (H (S i) s). exact Hi.
Qed.

Lemma find_index_ext m addr_dsc target_name tpgt isid type l l' i :
  ext l l' ->
  find_index (sess_matches m addr_dsc target_name tpgt isid type) l = Some i ->
  find_index (sess_matches m addr_dsc target_name tpgt isid type) l' = Some i.
Proof.
  revert l' i. induction l as [|x l IH]; intros l' i Hext Hf; [discriminate|].
  apply ext_cons_inv in Hext. destruct Hext as (x' & l'' & -> & Hle & Hext).
  cbn in Hf |- *. rewrite (sess_le_matches _ _ _ _ _ _ _ _ Hle).
  destruct (sess_matches m addr_dsc target_name tpgt isid type x); [exact Hf|].
  destruct (find_index _ l) as [j|] eqn:Hj; [|discriminate].
  rewrite (IH l'' j Hext eq_refl). exact Hf.
Qed.

Lemma find_index_app_new {A} (f : A -> bool) l x :
  find_index f l = None -> f x = true ->
  find_index f (l ++ [x]) = Some (length l).
Proof.
  induction l as [|y l IH]; cbn; intros Hn Hx.
  - rewrite Hx. reflexivity.
  - destruct (f y); [discriminate|].
    destruct (find_index f l); [discriminate|].
    rewrite IH; auto.
Qed.

Lemma find_index_nth {A} (f : A -> bool) l i :
  find_index f l = Some i -> exists x, nth_error l i = Some x /\ f x = true.
Proof.
  revert i. induction l as [|y l IH]; cbn; intros i H; [discriminate|].
  destruct (f y) eqn:Hy.
  - inversion H; subst. exists y. auto.
  - destruct (find_index f l) as [j|]; [|discriminate].
    inversion H; subst. apply (IH j eq_refl).
Qed.

Lemma sockaddr_eqb_refl a : sockaddr_eqb a a = true.
Proof. unfold sockaddr_eqb. destruct (list_eq_dec Z.eq_dec a a); congruence. Qed.


(** The slot's session is in the list, first of its identity at position
    [i], and has a connection to the target address. *)
Definition slot_present (a : add_args) (isid : Z) (l : list iscsi_sess_t)
    : Prop :=
  exists i s,
    find_index (sess_matches (a_method a) (a_addr_dsc a) (a_target_name a)
                  (a_tpgt a) isid ISCSI_SESS_TYPE_NORMAL) l = Some i
    /\ nth_error l i = Some s
    /\ sess_has_conn (a_addr_tgt a) s = true.

Lemma slot_present_ext a isid l l' :
  ext l l' -> slot_present a isid l -> slot_present a isid l'.
Proof.
  intros Hext (i & s & Hf & Hn & Hc).
  destruct (Hext i s Hn) as (s' & Hn' & Hle).
  exists i, s'. split; [eapply find_index_ext; eauto|].
  split; [exact Hn'|]. apply Hle. exact Hc.
Qed.

Lemma iscsi_sess_create_ext l m addr_dsc target_name tpgt isid type i l1 :
  iscsi_sess_create l m addr_dsc target_name tpgt isid type = Some (i, l1) ->
  ext l l1
  /\ find_index (sess_matches m addr_dsc target_name tpgt isid type) l1
       = Some i.
Proof.
  unfold iscsi_sess_create.
  destruct (find_index _ l) as [j|] eqn:Hf.
  - intros H. inversion H; subst. split; [apply ext_refl | exact Hf].
  - destruct (sess_alloc_ok l m addr_dsc target_name tpgt isid);
      [|discriminate].
    intros H. inversion H; subst. split; [apply ext_app|].
    apply find_index_app_new; [exact Hf|].
    unfold sess_matches. cbn.
    rewrite String.eqb_refl, !Z.eqb_refl, sockaddr_eqb_refl.
    destruct type; reflexivity.
Qed.


Lemma sess_le_add_conn s icp : sess_le s (sess_add_conn s icp).
Proof.
  unfold sess_le, sess_add_conn, sess_has_conn. cbn.
  repeat split; auto. intros addr H. rewrite existsb_app, H. reflexivity.
Qed.

Lemma iscsi_conn_create_ext addr_tgt i l l2 :
  iscsi_conn_create addr_tgt i l = Some l2 ->
  ext l l2
  /\ exists s, nth_error l2 i = Some s /\ sess_has_conn addr_tgt s = true.
Proof.
  unfold iscsi_conn_create.
  destruct (nth_error l i) as [isp|] eqn:Hn; [|discriminate].
  destruct (sess_has_conn addr_tgt isp) eqn:Hc.
  - intros H. inversion H; subst. split; [apply ext_refl|]. eauto.
  - destruct (conn_alloc_ok l i addr_tgt); [|discriminate].
    intros H. inversion H; subst. split.
    + eapply ext_update; [exact Hn | apply sess_le_add_conn].
    + eexists. split.
      * rewrite nth_error_list_update, Nat.eqb_refl, Hn. reflexivity.
      * unfold sess_has_conn, sess_add_conn. cbn.
        rewrite existsb_app. cbn. rewrite sockaddr_eqb_refl.
        apply orb_true_r.
Qed.


Lemma iscsid_add_slot_ext a isid l :
  ext l (snd (iscsid_add_slot a isid l)).
Proof.
  unfold iscsid_add_slot.
  destruct (iscsi_sess_create _ _ _ _ _ _ _) as [[i l1]|] eqn:Hs;
    [|apply ext_refl].
  apply iscsi_sess_create_ext in Hs. destruct Hs as [Hext _].
  destruct (iscsi_conn_create _ _ _) as [l2|] eqn:Hc; cbn; [|exact Hext].
  apply iscsi_conn_create_ext in Hc. destruct Hc as [Hext2 _].
  eapply ext_trans; eauto.
Qed.

Lemma iscsid_add_slot_ok a isid l l1 :
  iscsid_add_slot a isid l = (true, l1) -> slot_present a isid l1.
Proof.
  unfold iscsid_add_slot.
  destruct (iscsi_sess_create _ _ _ _ _ _ _) as [[i l0]|] eqn:Hs;
    [|discriminate].
  destruct (iscsi_conn_create _ _ _) as [l2|] eqn:Hc; [|discriminate].
  intros H. inversion H; subst.
  apply iscsi_sess_create_ext in Hs. destruct Hs as [_ Hf].
  apply iscsi_conn_create_ext in Hc. destruct Hc as [Hext (s & Hn & Hh)].
  exists i, s. split; [eapply find_index_ext; eauto|]. auto.
Qed.



Lemma iscsid_add_loop_ext a isids l :
  ext l (snd (iscsid_add_loop a isids l)).
Proof.
  revert l. induction isids as [|isid rest IH]; intros l; cbn.
  - apply ext_refl.
  - pose proof (iscsid_add_slot_ext a isid l) as He.
    destruct (iscsid_add_slot a isid l) as [ok l1]. cbn in He.
    destruct ok; cbn; [|exact He].
    eapply ext_trans; [exact He | apply IH].
Qed.


(** *** Calls that have nothing left to do *)





















(** *** Sequences of calls *)




(** A sequence of calls, one after the other. *)
Definition run_adds (args : list add_args) (w : world) : world :=
  fold_left (fun w a => snd (iscsid_add a w)) args w.


Definition add_args_eq_dec (a b : add_args) : {a = b} + {a <> b}.
Proof.
  decide equality;
    first [ apply Z.eq_dec | apply string_dec | apply (list_eq_dec Z.eq_dec) ].
Defined.

(** The distinct argument tuples of a sequence, each at its first
    occurrence; [seen] are tuples met before. *)
Fixpoint distinct_args (seen l : list add_args) : list add_args :=
  match l with
  | [] => []
  | a :: t =>
      if in_dec add_args_eq_dec a seen then distinct_args seen t
      else a :: distinct_args (a :: seen) t
  end.









(** *** A call that fails part of the way *)

Lemma iscsid_add_loop_app a p q l :
  iscsid_add_loop a (p ++ q) l =
    let (ok, l1) := iscsid_add_loop a p l in
    if ok then iscsid_add_loop a q l1 else (false, l1).
Proof.
  revert l. induction p as [|isid p IH]; intros l; cbn.
  - reflexivity.
  - destruct (iscsid_add_slot a isid l) as [ok l1].
    destruct ok; [apply IH | reflexivity].
Qed.

Lemma iscsid_add_loop_ok a isids l l1 :
  iscsid_add_loop a isids l = (true, l1) ->
  forall isid, In isid isids -> slot_present a isid l1.
Proof.
  revert l. induction isids as [|i0 rest IH]; intros l Hl isid Hin;
    [destruct Hin|].
  cbn in Hl. destruct (iscsid_add_slot a i0 l) as [ok l0] eqn:Hslot.
  destruct ok; [|discriminate].
  destruct Hin as [<-|Hin].
  - eapply slot_present_ext; [|eapply iscsid_add_slot_ok; eauto].
    pose proof (iscsid_add_loop_ext a rest l0) as He. rewrite Hl in He.
    exact He.
  - eapply IH; eauto.
Qed.

Lemma isid_range_split n i :
  0 <= i < n ->
  exists rest, isid_range n = isid_range i ++ i :: rest.
Proof.
  intros Hi. unfold isid_range.
  replace (Z.to_nat n) with (Z.to_nat i + S (Z.to_nat n - S (Z.to_nat i)))%nat
    by lia.
  rewrite seq_app, map_app. cbn [seq map plus].
  rewrite Z2Nat.id by lia. eexists. reflexivity.
Qed.

Lemma isid_range_In n j : In j (isid_range n) <-> 0 <= j < n.
Proof.
  unfold isid_range. rewrite in_map_iff. split.
  - intros (k & <- & Hk). apply in_seq in Hk. lia.
  - intros Hj. exists (Z.to_nat j). split; [lia|]. apply in_seq. lia.
Qed.

(** C10. [iscsid_add] does not undo what it did when it fails: if the
    slots before slot [i] succeed and slot [i] fails ([0 < i] below the
    configured count), the call returns [B_FALSE] and leaves the list that
    the successful slots (and the failing one, which may have created its
    session before its connection was refused) made of it: every slot
    before [i] has its session with its connection in the list, which
    differs from the list before the call whenever the first slot was not
    already there. *)
Theorem iscsid_add_not_atomic :
  forall a w ics_out i l_i,
    configured_sessions (a_target_name a) (hba_name w) = Some ics_out ->
    0 < i < ics_out ->
    iscsid_add_loop a (isid_range i) (hba_sess_list w) = (true, l_i) ->
    fst (iscsid_add_slot a i l_i) = false ->
    fst (iscsid_add a w) = false
    /\ hba_sess_list (snd (iscsid_add a w)) = snd (iscsid_add_slot a i l_i)
    /\ ext l_i (hba_sess_list (snd (iscsid_add a w)))
    /\ (forall j, 0 <= j < i ->
          slot_present a j (hba_sess_list (snd (iscsid_add a w))))
    /\ (~ slot_present a 0 (hba_sess_list w) ->
        hba_sess_list (snd (iscsid_add a w)) <> hba_sess_list w).
Proof.
  intros a w n i l_i Hn Hi Hpre Hfail.
  destruct (isid_range_split n i) as [rest Hsplit]; [lia|].
  assert (Hrun : iscsid_add_loop a (isid_range n) (hba_sess_list w)
                 = (false, snd (iscsid_add_slot a i l_i))).
  { rewrite Hsplit, iscsid_add_loop_app, Hpre. cbn.
    destruct (iscsid_add_slot a i l_i) as [ok l1]. cbn in Hfail. subst ok.
    reflexivity. }
  assert (Hext : ext l_i (snd (iscsid_add_slot a i l_i)))
    by apply iscsid_add_slot_ext.
  assert (Hall : forall j, 0 <= j < i ->
                   slot_present a j (snd (iscsid_add_slot a i l_i))).
  { intros j Hj. eapply slot_present_ext; [exact Hext|].
    eapply iscsid_add_loop_ok; [exact Hpre|]. apply isid_range_In. exact Hj. }
  unfold iscsid_add. rewrite Hn, Hrun.
  cbn [fst snd hba_sess_list set_hba_sess_list].
  repeat split; auto.
  intros Hnot Heq. apply Hnot. rewrite <- Heq. apply Hall. lia.
Qed.

(** ** Starting and stopping the discovery methods *)

(** The thread primitives, which live in [iscsi_thread.c]: whether a start
    or a stop of a thread succeeds, in the state it is asked in, and the
    handle a created thread gets. *)
Variable iscsi_thread_start : world -> nat -> bool.
Variable iscsi_thread_stop : world -> nat -> bool.
Variable iscsi_thread_create : Z -> option nat.

Definition thread_start (thr : nat) : M bool :=
  fun w => (iscsi_thread_start w thr,
            set_trace w (trace w ++ [ev_thread_start thr])).

Definition thread_stop (thr : nat) : M bool :=
  fun w => (iscsi_thread_stop w thr,
            set_trace w (trace w ++ [ev_thread_stop thr])).

(** [idm & dt->method] as a C condition. *)
Definition method_selected (idm : Z) (dt : iscsid_thr_table) : bool :=
  negb (Z.land idm (method dt) =? 0).

(** The loop of [iscsid_enable_discovery] over the rows from [dt] on;
    [ASSERT(B_FALSE)] on a row without a thread does nothing in a
    non-debug kernel. *)
Fixpoint iscsid_enable_loop (idm : Z) (poke : bool)
    (tbl : list iscsid_thr_table) (rval : bool) : M bool :=
  match tbl with
  | [] => ret rval
  | dt :: rest =>
      if method dt =? iSCSIDiscoveryMethodUnknown then ret rval
      else if method_selected idm dt then
        match thr_id dt with
        | Some thr =>
            rval1 <- thread_start thr ;;
            if negb rval1 then ret rval1
            else
              (if poke then emit (ev_thread_send_wakeup thr) else ret tt) ;;
              iscsid_enable_loop idm poke rest rval1
        | None => iscsid_enable_loop idm poke rest rval
        end
      else iscsid_enable_loop idm poke rest rval
  end.

(** [iscsid_enable_discovery] *)
Definition iscsid_enable_discovery (idm : Z) (poke : bool) : M bool :=
  fun w => iscsid_enable_loop idm poke (iscsid_thr w) true w.

(** The loop of [iscsid_disable_discovery] over the rows from [dt] on. *)
Fixpoint iscsid_disable_loop (idm : Z) (tbl : list iscsid_thr_table)
    (rval : bool) : M bool :=
  match tbl with
  | [] => ret rval
  | dt :: rest =>
      if method dt =? iSCSIDiscoveryMethodUnknown then ret rval
      else if method_selected idm dt then
        iscsi_discovery_event (method dt) true ;;
        rval1 <- iscsid_del None (method dt) None ;;
        if rval1 then
          match thr_id dt with
          | Some thr =>
              rval2 <- thread_stop thr ;;
              if negb rval2 then
                iscsi_discovery_event (method dt) false ;;
                ret rval2
              else
                iscsi_discovery_event (method dt) false ;;
                iscsid_disable_loop idm rest rval2
          | None =>
              iscsi_discovery_event (method dt) false ;;
              iscsid_disable_loop idm rest rval1
          end
        else
          iscsi_discovery_event (method dt) false ;;
          iscsid_disable_loop idm rest rval1
      else iscsid_disable_loop idm rest rval
  end.

(** [iscsid_disable_discovery] *)
Definition iscsid_disable_discovery (idm : Z) : M bool :=
  fun w => iscsid_disable_loop idm (iscsid_thr w) true w.

(** The subclass [iscsi_discovery_event] sends, and the methods an end
    event of it records. *)
Definition discovery_subclass (m : Z) (start : bool) : option esc_iscsi :=
  if m =? iSCSIDiscoveryMethodStatic then
    Some (if start then ESC_ISCSI_STATIC_START else ESC_ISCSI_STATIC_END)
  else if m =? iSCSIDiscoveryMethodSendTargets then
    Some (if start then ESC_ISCSI_SEND_TARGETS_START
          else ESC_ISCSI_SEND_TARGETS_END)
  else if m =? iSCSIDiscoveryMethodSLP then
    Some (if start then ESC_ISCSI_SLP_START else ESC_ISCSI_SLP_END)
  else if m =? iSCSIDiscoveryMethodISNS then
    Some (if start then ESC_ISCSI_ISNS_START else ESC_ISCSI_ISNS_END)
  else None.

Definition is_discovery_method (m : Z) : bool :=
  (m =? iSCSIDiscoveryMethodStatic) || (m =? iSCSIDiscoveryMethodSendTargets)
  || (m =? iSCSIDiscoveryMethodSLP) || (m =? iSCSIDiscoveryMethodISNS).

Lemma iscsi_discovery_event_eq m start w :
  iscsi_discovery_event m start w =
    (tt,
     set_trace
       (if negb start && is_discovery_method m
        then set_hba_discovery_events w (Z.lor (hba_discovery_events w) m)
        else w)
       (trace w ++ [ev_sysevent (discovery_subclass m start)])).
Proof.
  unfold iscsi_discovery_event, discovery_subclass, is_discovery_method,
    iscsi_send_sysevent, emit.
  destruct (Z.eqb_spec m iSCSIDiscoveryMethodStatic) as [->|H1];
    [destruct start; reflexivity|].
  destruct (Z.eqb_spec m iSCSIDiscoveryMethodSendTargets) as [->|H2];
    [destruct start; reflexivity|].
  destruct (Z.eqb_spec m iSCSIDiscoveryMethodSLP) as [->|H3];
    [destruct start; reflexivity|].
  destruct (Z.eqb_spec m iSCSIDiscoveryMethodISNS) as [->|H4];
    [destruct start; reflexivity|].
  destruct start; reflexivity.
Qed.

(** The claim that a failed [iscsid_del] ends the loop: after the end
    event nothing more is done and [B_FALSE] is returned. *)
Definition disable_aborts_on_del_failure : Prop :=
  forall idm dt rest rval w,
    method dt <> iSCSIDiscoveryMethodUnknown ->
    method_selected idm dt = true ->
    fst (iscsid_del None (method dt) None
           (snd (iscsi_discovery_event (method dt) true w))) = false ->
    iscsid_disable_loop idm (dt :: rest) rval w =
      (false,
       snd (iscsi_discovery_event (method dt) false
              (snd (iscsid_del None (method dt) None
                      (snd (iscsi_discovery_event (method dt) true w)))))).

(** C1 (amended). In [iscsid_disable_discovery], for a row whose method is
    selected, a start event is sent and [iscsid_del] is called with a null
    name and a null address.  If it returns [B_FALSE] the thread is not
    stopped, the end event is sent and the loop goes on with the next row,
    [rval] being [B_FALSE]; if it returns [B_TRUE] and the thread cannot be
    stopped, the end event is sent and the loop ends with [B_FALSE]; if the
    thread is stopped, the end event is sent and the loop goes on. *)
Theorem iscsid_disable_loop_row :
  forall idm dt rest rval w,
    method dt <> iSCSIDiscoveryMethodUnknown ->
    method_selected idm dt = true ->
    let w1 := snd (iscsi_discovery_event (method dt) true w) in
    let r := iscsid_del None (method dt) None w1 in
    let after_end x := snd (iscsi_discovery_event (method dt) false x) in
    trace w1 = trace w ++ [ev_sysevent (discovery_subclass (method dt) true)]
    /\ (fst r = false ->
        iscsid_disable_loop idm (dt :: rest) rval w
          = iscsid_disable_loop idm rest false (after_end (snd r)))
    /\ (forall thr,
          fst r = true -> thr_id dt = Some thr ->
          iscsi_thread_stop (snd r) thr = false ->
          iscsid_disable_loop idm (dt :: rest) rval w
            = (false, after_end (snd (thread_stop thr (snd r)))))
    /\ (forall thr,
          fst r = true -> thr_id dt = Some thr ->
          iscsi_thread_stop (snd r) thr = true ->
          iscsid_disable_loop idm (dt :: rest) rval w
            = iscsid_disable_loop idm rest true
                (after_end (snd (thread_stop thr (snd r))))).
Proof.
  intros idm dt rest rval w Hm Hsel w1 r after_end.
  apply Z.eqb_neq in Hm.
  split; [subst w1; rewrite iscsi_discovery_event_eq; reflexivity|].
  assert (Hstep : iscsid_disable_loop idm (dt :: rest) rval w =
    (if fst r then
       match thr_id dt with
       | Some thr =>
           if negb (iscsi_thread_stop (snd r) thr)
           then (false, after_end (snd (thread_stop thr (snd r))))
           else iscsid_disable_loop idm rest true
                  (after_end (snd (thread_stop thr (snd r))))
       | None => iscsid_disable_loop idm rest true (after_end (snd r))
       end
     else iscsid_disable_loop idm rest false (after_end (snd r)))).
  { cbn [iscsid_disable_loop]. rewrite Hm, Hsel.
    unfold bind, thread_stop, ret. subst r w1 after_end. cbv beta.
    destruct (iscsi_discovery_event (method dt) true w) as [[] w1].
    cbn [snd].
    destruct (iscsid_del None (method dt) None w1) as [[|] w2];
      cbn [fst snd];
      [destruct (thr_id dt) as [thr|];
       [destruct (iscsi_thread_stop w2 thr); cbn [negb fst snd]|]|];
      match goal with
      | |- context [iscsi_discovery_event (method dt) false ?x] =>
          destruct (iscsi_discovery_event (method dt) false x) as [[] w3]
      end; reflexivity. }
  rewrite Hstep. repeat split.
  - intros ->. reflexivity.
  - intros thr -> -> ->. reflexivity.
  - intros thr -> -> ->. reflexivity.
Qed.

(** ** Bootstrap and [iscsid_init] *)

Record persistent_param_t := {
  p_bitmap : Z;
  p_params : Param.iscsi_login_params_t
}.

(** The rest of the persistent store and of the environment of the
    bootstrap: whether the store opens, the enabled methods, the
    overridden parameters in the order [persistent_param_next] yields them,
    whether the store takes a node name and an alias it is given, whether
    a name has a CHAP record, the result of pushing a parameter to the
    login-parameter collaborator and what the push leaves in [hba_name]
    and [hba_alias], the two identifiers and the version of [iscsi_if.h]
    the bootstrap writes, and the node name and alias a fresh install gets
    (built from the MAC address and the time of day, and the host
    name). *)
Variable persistent_init : bool -> bool.
Variable persistent_disc_meth_get : Z.
Variable persistent_params : list (string * persistent_param_t).
Variable persistent_initiator_name_set : string -> bool.
Variable persistent_alias_name_set : string -> bool.
Variable persistent_chap_get : string -> bool.
Variable iscsi_set_params : Param.iscsi_param_set_t -> Z.
Variable iscsi_set_params_hba :
  Param.iscsi_param_set_t -> world -> string * string.
Variable ISCSI_LOGIN_PARAM_INITIATOR_NAME : Z.
Variable ISCSI_LOGIN_PARAM_INITIATOR_ALIAS : Z.
Variable ISCSI_INTERFACE_VERSION : Z.
Variable default_node_name : string.
Variable utsname_nodename : string.

Definition ips_zero : Param.iscsi_param_set_t :=
  {| Param.s_oid := 0; Param.s_vers := 0; Param.s_param := 0;
     Param.s_value := Param.v_none |}.

(** Whether the member of [s_value] that was written is [v_name]. *)
Definition carries_name (ips : Param.iscsi_param_set_t) : bool :=
  match Param.s_value ips with
  | Param.v_name _ => true
  | _ => false
  end.

(** Modelled from the spec: [iscsi_set_params(&ips, ihp, B_FALSE)] of the
    login-parameter collaborator, which is not among the sources.  The
    call and its result are recorded.  Of the adapter the collaborator is
    handed, this file reads the node name and the alias: a call that
    carries a name may leave anything in the two, [iscsi_set_params_hba]
    says what; the flags and numbers of the other parameters go to the
    login parameters, which this file never reads and the state does not
    hold.  With [B_FALSE] for [persist] the store is not written. *)
Definition set_params (ips : Param.iscsi_param_set_t) : M Z :=
  fun w =>
    let w1 :=
      if carries_name ips then
        let (nm, al) := iscsi_set_params_hba ips w in
        set_hba_alias (set_hba_name w nm) al
      else w in
    (iscsi_set_params ips,
     set_trace w1 (trace w1 ++ [ev_set_params ips (iscsi_set_params ips)])).

(** Modelled from the spec: [persistent_initiator_name_set] and
    [persistent_alias_name_set] of the persistent store, which is not
    among the sources: a set that succeeds leaves the value for the next
    get, one that fails leaves the store as it was. *)
Definition initiator_name_set (nm : string) : M bool :=
  fun w =>
    if persistent_initiator_name_set nm
    then (true, set_ps_initiator_name w (Some nm))
    else (false, w).

Definition alias_name_set (al : string) : M bool :=
  fun w =>
    if persistent_alias_name_set al
    then (true, set_ps_alias_name w (Some al))
    else (false, w).

(** [iscsid_set_default_initiator_node_settings].  The results of the two
    sets are dropped; [persistent_initiator_name_get] then reads the name
    back into [hba_name], and only if it does are the CHAP settings looked
    at. *)
Definition iscsid_set_default_initiator_node_settings : M unit :=
  fun w =>
    let w1 := set_hba_name w default_node_name in
    let w2 := snd (initiator_name_set (hba_name w1) w1) in
    let w3 :=
      if String.eqb (hba_alias w2) ""
      then let w' := set_hba_alias w2 utsname_nodename in
           snd (alias_name_set (hba_alias w') w')
      else w2 in
    match ps_initiator_name w3 with
    | Some nm =>
        let w4 := set_hba_name w3 nm in
        if persistent_chap_get (hba_name w4) then (tt, w4)
        else emit (ev_persistent_chap_set (hba_name w4)) w4
    | None => (tt, w3)
    end.

(** The loop [for (param_id = 0; param_id < ISCSI_NUM_LOGIN_PARAM;
    param_id++)] of the two bootstrap functions, over the identifiers still
    to come; [ips] is carried from one identifier to the next. *)
Fixpoint push_params (ids : list Z) (pp : persistent_param_t)
    (ips : Param.iscsi_param_set_t) : M Param.iscsi_param_set_t :=
  match ids with
  | [] => ret ips
  | param_id :: rest =>
      if negb (Z.land (p_bitmap pp) (Z.shiftl 1 param_id) =? 0) then
        let (rc, ips1) :=
          Param.iscsid_copyto_param_set param_id (p_params pp) ips in
        rc1 <- (if rc =? 0 then set_params ips1 else ret rc) ;;
        (if negb (rc1 =? 0) then emit (ev_note "Failed to set param")
         else ret tt) ;;
        push_params rest pp ips1
      else push_params rest pp ips
  end.

Definition login_param_ids : list Z :=
  map Z.of_nat (seq 0 (Z.to_nat Param.ISCSI_NUM_LOGIN_PARAM)).

(** The [while (persistent_param_next(...))] loop of
    [iscsid_init_config]: the first entry under the initiator name is
    pushed, and the loop ends there. *)
Fixpoint init_config_params (initiatorName : string)
    (entries : list (string * persistent_param_t))
    (ips : Param.iscsi_param_set_t) : M unit :=
  match entries with
  | [] => ret tt
  | (nm, pp) :: rest =>
      if String.eqb nm initiatorName then
        fun w =>
          let ips1 :=
            {| Param.s_oid := hba_oid w;
               Param.s_vers := ISCSI_INTERFACE_VERSION;
               Param.s_param := Param.s_param ips;
               Param.s_value := Param.s_value ips |} in
          (tt, snd (push_params login_param_ids pp ips1 w))
      else init_config_params initiatorName rest ips
  end.

(** [iscsid_init_config] *)
Definition iscsid_init_config : M bool :=
  fun w =>
    let initiatorName :=
      match ps_initiator_name w with Some nm => nm | None => ""%string end in
    let w1 :=
      match ps_initiator_name w with
      | Some nm =>
          snd (set_params
                 {| Param.s_oid := 0;
                    Param.s_vers := ISCSI_INTERFACE_VERSION;
                    Param.s_param := ISCSI_LOGIN_PARAM_INITIATOR_NAME;
                    Param.s_value := Param.v_name nm |} w)
      | None => snd (iscsid_set_default_initiator_node_settings w)
      end in
    let '(ips, w2) :=
      match ps_alias_name w1 with
      | Some al =>
          let ips :=
            {| Param.s_oid := 0; Param.s_vers := 0;
               Param.s_param := ISCSI_LOGIN_PARAM_INITIATOR_ALIAS;
               Param.s_value := Param.v_name al |} in
          (ips, snd (set_params ips w1))
      | None => (ips_zero, w1)
      end in
    (true, snd (init_config_params initiatorName persistent_params ips w2)).

(** The [while] loop of [iscsid_init_targets]: every entry that is not
    under the initiator name is pushed. *)
Fixpoint init_targets_params (iname : string)
    (entries : list (string * persistent_param_t))
    (ips : Param.iscsi_param_set_t) : M unit :=
  match entries with
  | [] => ret tt
  | (nm, pp) :: rest =>
      if String.eqb iname nm then init_targets_params iname rest ips
      else
        let ips1 :=
          {| Param.s_oid := iscsi_targetparam_get_oid nm;
             Param.s_vers := Param.s_vers ips;
             Param.s_param := Param.s_param ips;
             Param.s_value := Param.s_value ips |} in
        ips2 <- push_params login_param_ids pp ips1 ;;
        init_targets_params iname rest ips2
  end.

(** [iscsid_init_targets] *)
Definition iscsid_init_targets : M bool :=
  fun w =>
    let ips :=
      {| Param.s_oid := 0; Param.s_vers := ISCSI_INTERFACE_VERSION;
         Param.s_param := 0; Param.s_value := Param.v_none |} in
    let iname :=
      match ps_initiator_name w with Some nm => nm | None => ""%string end in
    (true, snd (init_targets_params iname persistent_params ips w)).

(** The loop of [iscsid_threads_create] over the rows from [t] on: the
    table with the missing threads created, and the methods they were
    created for. *)
Fixpoint threads_create_loop (tbl : list iscsid_thr_table)
    : list iscsid_thr_table * list event :=
  match tbl with
  | [] => ([], [])
  | t :: rest =>
      if method t =? iSCSIDiscoveryMethodUnknown then (tbl, [])
      else
        let (rest', evs) := threads_create_loop rest in
        match thr_id t with
        | None =>
            ({| thr_id := iscsi_thread_create (method t);
                method := method t; name := name t |} :: rest',
             ev_thread_create (method t) :: evs)
        | Some _ => (t :: rest', evs)
        end
  end.

(** [iscsid_threads_create] *)
Definition iscsid_threads_create : M unit :=
  fun w =>
    let (tbl, evs) := threads_create_loop (iscsid_thr w) in
    (tt, set_trace (set_iscsid_thr w tbl) (trace w ++ evs)).

(** The loop of [iscsid_init] over [for_failure]: a start and an end event
    for each method up to the terminating value. *)
Fixpoint init_failure_events (fdm : list Z) : M unit :=
  match fdm with
  | [] => ret tt
  | m :: rest =>
      if m =? iSCSIDiscoveryMethodUnknown then ret tt
      else
        iscsi_discovery_event m true ;;
        iscsi_discovery_event m false ;;
        init_failure_events rest
  end.

(** [iscsid_init] up to the test of [rval] that guards the failure
    events. *)
Definition iscsid_init_attempt (restart : bool) : M bool :=
  let rval := persistent_init restart in
  rval1 <- (if rval then
              rval' <- iscsid_init_config ;;
              if rval' then iscsid_init_targets else ret rval'
            else ret rval) ;;
  if rval1 then
    (if negb restart then iscsid_threads_create else ret tt) ;;
    let dm := persistent_disc_meth_get in
    rval2 <- iscsid_enable_discovery dm false ;;
    if rval2 then iscsid_disable_discovery (Z.lnot dm) else ret rval2
  else ret rval1.

(** [iscsid_init] *)
Definition iscsid_init (restart : bool) : M bool :=
  rval <- iscsid_init_attempt restart ;;
  (if negb rval then init_failure_events for_failure else ret tt) ;;
  ret rval.

(** *** The events of a failed [iscsid_init] *)

Definition failure_events : list event :=
  [ ev_sysevent (Some ESC_ISCSI_STATIC_START);
    ev_sysevent (Some ESC_ISCSI_STATIC_END);
    ev_sysevent (Some ESC_ISCSI_SLP_START);
    ev_sysevent (Some ESC_ISCSI_SLP_END);
    ev_sysevent (Some ESC_ISCSI_ISNS_START);
    ev_sysevent (Some ESC_ISCSI_ISNS_END);
    ev_sysevent (Some ESC_ISCSI_SEND_TARGETS_START);
    ev_sysevent (Some ESC_ISCSI_SEND_TARGETS_END) ].

Lemma init_failure_events_trace w :
  trace (snd (init_failure_events for_failure w)) = trace w ++ failure_events.
Proof.
  unfold for_failure. cbn [init_failure_events]. unfold bind, ret.
  cbn [Z.eqb iSCSIDiscoveryMethodStatic iSCSIDiscoveryMethodSLP
       iSCSIDiscoveryMethodISNS iSCSIDiscoveryMethodSendTargets
       iSCSIDiscoveryMethodUnknown Pos.eqb].
  rewrite !iscsi_discovery_event_eq. cbn [snd trace set_trace].
  repeat match goal with
  | |- context [trace (if ?c then _ else _)] => destruct c
  end; cbn [trace set_hba_discovery_events set_trace];
    rewrite <- !app_assoc; reflexivity.
Qed.

(** C6. Whenever [iscsid_init] returns [B_FALSE], the last thing it did
    was to send a start event and then an end event for each method, in
    the order Static, SLP, iSNS, SendTargets; when it returns [B_TRUE] it
    sends none of them. *)
Theorem iscsid_init_failure_events :
  forall restart w,
    fst (iscsid_init restart w) = fst (iscsid_init_attempt restart w)
    /\ (fst (iscsid_init restart w) = false ->
        trace (snd (iscsid_init restart w))
          = trace (snd (iscsid_init_attempt restart w)) ++ failure_events)
    /\ (fst (iscsid_init restart w) = true ->
        snd (iscsid_init restart w) = snd (iscsid_init_attempt restart w)).
Proof.
  intros restart w. unfold iscsid_init, bind, ret.
  destruct (iscsid_init_attempt restart w) as [rval w1]. cbn [fst snd].
  destruct rval; cbn [negb].
  - repeat split; auto. discriminate.
  - pose proof (init_failure_events_trace w1) as H.
    destruct (init_failure_events for_failure w1) as [[] w2].
    cbn [fst snd] in *. repeat split; auto. discriminate.
Qed.

(** ** The completion barrier: [iscsid_poke_discovery] *)

(** The part of [iscsi_discovery_event] between [mutex_enter] and
    [mutex_exit]: the subclass chosen by the switch, and the method of an
    end event recorded in [hba_discovery_events]. *)
Definition discovery_event_locked (m : Z) (start : bool) (w : world)
    : option esc_iscsi * world :=
  if m =? iSCSIDiscoveryMethodStatic then
    if start then (Some ESC_ISCSI_STATIC_START, w)
    else (Some ESC_ISCSI_STATIC_END,
          set_hba_discovery_events w
            (Z.lor (hba_discovery_events w) iSCSIDiscoveryMethodStatic))
  else if m =? iSCSIDiscoveryMethodSendTargets then
    if start then (Some ESC_ISCSI_SEND_TARGETS_START, w)
    else (Some ESC_ISCSI_SEND_TARGETS_END,
          set_hba_discovery_events w
            (Z.lor (hba_discovery_events w) iSCSIDiscoveryMethodSendTargets))
  else if m =? iSCSIDiscoveryMethodSLP then
    if start then (Some ESC_ISCSI_SLP_START, w)
    else (Some ESC_ISCSI_SLP_END,
          set_hba_discovery_events w
            (Z.lor (hba_discovery_events w) iSCSIDiscoveryMethodSLP))
  else if m =? iSCSIDiscoveryMethodISNS then
    if start then (Some ESC_ISCSI_ISNS_START, w)
    else (Some ESC_ISCSI_ISNS_END,
          set_hba_discovery_events w
            (Z.lor (hba_discovery_events w) iSCSIDiscoveryMethodISNS))
  else (None, w).

(** What the other threads may do to the state while the caller of
    [iscsid_poke_discovery] runs or sleeps.  A discovery thread that calls
    [iscsi_discovery_event] does it in two steps, and anything may come
    between them: the mutex section, which records the method of an end
    event, and, after [mutex_exit], [iscsi_send_sysevent].  Besides, the
    session list is changed under its lock.  All of it happens outside the
    mutex sections of the caller. *)
Inductive env_action :=
| env_event_locked (m : Z) (start : bool)
| env_send_sysevent (subclass : option esc_iscsi)
| env_sess_list (l : list iscsi_sess_t).

Definition run_env_action (e : env_action) (w : world) : world :=
  match e with
  | env_event_locked m start => snd (discovery_event_locked m start w)
  | env_send_sysevent subclass => snd (iscsi_send_sysevent subclass w)
  | env_sess_list l => set_hba_sess_list w l
  end.

Definition run_env (es : list env_action) (w : world) : world :=
  fold_left (fun w e => run_env_action e w) es w.

(** The loop that wakes the discovery threads, over the rows from [dt]
    on. *)
Fixpoint iscsid_poke_loop (m dm : Z) (tbl : list iscsid_thr_table) : M unit :=
  match tbl with
  | [] => ret tt
  | dt :: rest =>
      if method dt =? iSCSIDiscoveryMethodUnknown then ret tt
      else
        (if (m =? iSCSIDiscoveryMethodUnknown) || (m =? method dt) then
           match (if negb (Z.land dm (method dt) =? 0)
                  then thr_id dt else None) with
           | Some thr => emit (ev_thread_send_wakeup thr)
           | None =>
               iscsi_discovery_event (method dt) true ;;
               iscsi_discovery_event (method dt) false
           end
         else
           iscsi_discovery_event (method dt) true ;;
           iscsi_discovery_event (method dt) false) ;;
        iscsid_poke_loop m dm rest
  end.

(** The [while] loop that waits for the discovery threads: the flags are
    tested under the mutex; each element of [sched] is what the other
    threads do during one [delay].  [None] when the caller is still
    waiting at the end of [sched]. *)
Fixpoint iscsid_poke_wait (sched : list (list env_action)) (w : world)
    : option world :=
  if hba_discovery_events w =? ISCSI_ALL_DISCOVERY_METHODS then
    Some (set_hba_discovery_in_progress w false)
  else
    match sched with
    | [] => None
    | es :: sched' => iscsid_poke_wait sched' (run_env es w)
    end.

(** [iscsid_poke_discovery]; [first] is what the other threads do between
    the reset of the flags and the first test. *)
Definition iscsid_poke_discovery (m : Z) (first : list env_action)
    (sched : list (list env_action)) (w : world) : option world :=
  let w1 :=
    set_hba_discovery_events (set_hba_discovery_in_progress w true)
      iSCSIDiscoveryMethodUnknown in
  let dm := persistent_disc_meth_get in
  let w2 := snd (iscsid_poke_loop m dm (iscsid_thr w1) w1) in
  iscsid_poke_wait sched (run_env first w2).

(** *** What the barrier guarantees *)

Definition discovery_methods : list Z :=
  [ iSCSIDiscoveryMethodStatic; iSCSIDiscoveryMethodSendTargets;
    iSCSIDiscoveryMethodISNS; iSCSIDiscoveryMethodSLP ].

Lemma discovery_event_locked_eq m start w :
  discovery_event_locked m start w
    = (discovery_subclass m start,
       if negb start && is_discovery_method m
       then set_hba_discovery_events w (Z.lor (hba_discovery_events w) m)
       else w).
Proof.
  unfold discovery_event_locked, discovery_subclass, is_discovery_method.
  destruct (Z.eqb_spec m iSCSIDiscoveryMethodStatic) as [->|H1];
    [destruct start; reflexivity|].
  destruct (Z.eqb_spec m iSCSIDiscoveryMethodSendTargets) as [->|H2];
    [destruct start; reflexivity|].
  destruct (Z.eqb_spec m iSCSIDiscoveryMethodSLP) as [->|H3];
    [destruct start; reflexivity|].
  destruct (Z.eqb_spec m iSCSIDiscoveryMethodISNS) as [->|H4];
    [destruct start; reflexivity|].
  destruct start; reflexivity.
Qed.

(** [iscsi_discovery_event] is its mutex section followed by
    [iscsi_send_sysevent]. *)
Lemma iscsi_discovery_event_locked m start w :
  iscsi_discovery_event m start w
    = iscsi_send_sysevent (fst (discovery_event_locked m start w))
        (snd (discovery_event_locked m start w)).
Proof.
  rewrite iscsi_discovery_event_eq, discovery_event_locked_eq.
  cbn [fst snd]. unfold iscsi_send_sysevent, emit.
  destruct (negb start && is_discovery_method m); reflexivity.
Qed.

(** Since the trace was [t0] and the other threads did [ran], every
    method recorded in [hba_discovery_events] was recorded by an end
    event: one whose sysevent has been sent, or one of another thread that
    has passed its mutex section. *)
Definition ends_recorded (t0 : list event) (ran : list env_action)
    (w : world) : Prop :=
  exists new,
    trace w = t0 ++ new
    /\ forall m, In m discovery_methods ->
         Z.land (hba_discovery_events w) m <> 0 ->
         In (ev_sysevent (discovery_subclass m false)) new
         \/ In (env_event_locked m false) ran.

Lemma land_methods m m' :
  In m discovery_methods -> is_discovery_method m' = true ->
  Z.land m' m <> 0 -> m' = m.
Proof.
  unfold is_discovery_method. intros Hm Hm' Hl.
  repeat (apply orb_prop in Hm'; destruct Hm' as [Hm'|Hm']);
    apply Z.eqb_eq in Hm'; subst m';
    cbn in Hm; destruct Hm as [<-|[<-|[<-|[<-|[]]]]];
    try reflexivity; exfalso; apply Hl; reflexivity.
Qed.

Lemma ends_recorded_event t0 ran m start w :
  ends_recorded t0 ran w ->
  ends_recorded t0 ran (snd (iscsi_discovery_event m start w)).
Proof.
  intros (new & Ht & Hrec). rewrite iscsi_discovery_event_eq. cbn [snd].
  exists (new ++ [ev_sysevent (discovery_subclass m start)]). split.
  - cbn [trace set_trace].
    destruct (negb start && is_discovery_method m);
      cbn [trace set_hba_discovery_events]; rewrite Ht, app_assoc;
      reflexivity.
  - intros k Hk Hbit.
    assert (Hold : Z.land (hba_discovery_events w) k <> 0 ->
              In (ev_sysevent (discovery_subclass k false))
                 (new ++ [ev_sysevent (discovery_subclass m start)])
              \/ In (env_event_locked k false) ran).
    { intros Hnz. destruct (Hrec k Hk Hnz) as [Hin|Hin];
        [left; apply in_or_app; left; exact Hin | right; exact Hin]. }
    destruct (negb start && is_discovery_method m) eqn:Hc.
    + cbn [hba_discovery_events set_trace set_hba_discovery_events] in Hbit.
      apply andb_prop in Hc. destruct Hc as [Hs Hm].
      destruct start; [discriminate|].
      destruct (Z.eq_dec (Z.land (hba_discovery_events w) k) 0) as [Hz|Hnz].
      * left. apply in_or_app. right. left. f_equal. f_equal.
        apply land_methods; auto.
        intros Hz'. apply Hbit. rewrite Z.land_lor_distr_l, Hz, Hz'.
        reflexivity.
      * apply Hold. exact Hnz.
    + apply Hold. exact Hbit.
Qed.

Lemma ends_recorded_emit t0 ran e w :
  ends_recorded t0 ran w -> ends_recorded t0 ran (snd (emit e w)).
Proof.
  intros (new & Ht & Hrec). exists (new ++ [e]). split.
  - cbn. rewrite Ht, app_assoc. reflexivity.
  - intros k Hk Hbit. destruct (Hrec k Hk Hbit) as [Hin|Hin];
      [left; apply in_or_app; left; exact Hin | right; exact Hin].
Qed.

Lemma ends_recorded_env_action t0 ran e w :
  ends_recorded t0 ran w ->
  ends_recorded t0 (ran ++ [e]) (run_env_action e w).
Proof.
  intros H.
  assert (Hmono : forall w0, ends_recorded t0 ran w0 ->
            ends_recorded t0 (ran ++ [e]) w0).
  { intros w0 (new & Ht & Hrec). exists new. split; [exact Ht|].
    intros k Hk Hbit. destruct (Hrec k Hk Hbit) as [Hin|Hin];
      [left; exact Hin | right; apply in_or_app; left; exact Hin]. }
  destruct e as [m start|subclass|l]; cbn [run_env_action].
  - destruct H as (new & Ht & Hrec).
    rewrite discovery_event_locked_eq. cbn [snd]. exists new. split.
    + destruct (negb start && is_discovery_method m); exact Ht.
    + intros k Hk Hbit.
      assert (Hold : Z.land (hba_discovery_events w) k <> 0 ->
                In (ev_sysevent (discovery_subclass k false)) new
                \/ In (env_event_locked k false)
                     (ran ++ [env_event_locked m start])).
      { intros Hnz. destruct (Hrec k Hk Hnz) as [Hin|Hin];
          [left; exact Hin | right; apply in_or_app; left; exact Hin]. }
      destruct (negb start && is_discovery_method m) eqn:Hc.
      * cbn [hba_discovery_events set_hba_discovery_events] in Hbit.
        apply andb_prop in Hc. destruct Hc as [Hs Hm].
        destruct start; [discriminate|].
        destruct (Z.eq_dec (Z.land (hba_discovery_events w) k) 0)
          as [Hz|Hnz].
        -- right. apply in_or_app. right. left. f_equal.
           apply land_methods; auto.
           intros Hz'. apply Hbit. rewrite Z.land_lor_distr_l, Hz, Hz'.
           reflexivity.
        -- apply Hold. exact Hnz.
      * apply Hold. exact Hbit.
  - apply Hmono. apply (ends_recorded_emit t0 ran (ev_sysevent subclass) w H).
  - apply Hmono. destruct H as (new & Ht & Hrec). exists new.
    split; [exact Ht | exact Hrec].
Qed.

Lemma ends_recorded_env t0 ran es w :
  ends_recorded t0 ran w -> ends_recorded t0 (ran ++ es) (run_env es w).
Proof.
  unfold run_env. revert ran w.
  induction es as [|e es IH]; intros ran w H; cbn [fold_left].
  - rewrite app_nil_r. exact H.
  - replace (ran ++ e :: es) with ((ran ++ [e]) ++ es)
      by (rewrite <- app_assoc; reflexivity).
    apply IH. apply ends_recorded_env_action. exact H.
Qed.

Lemma ends_recorded_poke_loop t0 ran m dm tbl w :
  ends_recorded t0 ran w ->
  ends_recorded t0 ran (snd (iscsid_poke_loop m dm tbl w)).
Proof.
  revert w. induction tbl as [|dt rest IH]; intros w H; cbn; [exact H|].
  destruct (method dt =? iSCSIDiscoveryMethodUnknown); [exact H|].
  unfold bind.
  assert (Hse : forall w0, ends_recorded t0 ran w0 ->
            ends_recorded t0 ran
              (snd ((iscsi_discovery_event (method dt) true ;;
                     iscsi_discovery_event (method dt) false) w0))).
  { intros w0 H0. unfold bind.
    pose proof (ends_recorded_event t0 ran (method dt) true w0 H0) as H1.
    destruct (iscsi_discovery_event (method dt) true w0) as [[] w1].
    apply ends_recorded_event. exact H1. }
  unfold bind in Hse.
  destruct ((m =? iSCSIDiscoveryMethodUnknown) || (m =? method dt)).
  - destruct (if negb (Z.land dm (method dt) =? 0) then thr_id dt else None)
      as [thr|].
    + pose proof (ends_recorded_emit t0 ran (ev_thread_send_wakeup thr) w H)
        as H1.
      destruct (emit (ev_thread_send_wakeup thr) w) as [[] w1].
      apply IH. exact H1.
    + specialize (Hse w H).
      destruct (let (_, w1) := iscsi_discovery_event (method dt) true w in
                iscsi_discovery_event (method dt) false w1) as [[] w1].
      apply IH. exact Hse.
  - specialize (Hse w H).
    destruct (let (_, w1) := iscsi_discovery_event (method dt) true w in
              iscsi_discovery_event (method dt) false w1) as [[] w1].
    apply IH. exact Hse.
Qed.

Lemma iscsid_poke_wait_returns t0 ran sched w w' :
  ends_recorded t0 ran w ->
  iscsid_poke_wait sched w = Some w' ->
  hba_discovery_events w' = ISCSI_ALL_DISCOVERY_METHODS
  /\ hba_discovery_in_progress w' = false
  /\ exists n, ends_recorded t0 (ran ++ concat (firstn n sched)) w'.
Proof.
  revert ran w. induction sched as [|es sched IH]; intros ran w Hrec;
    cbn [iscsid_poke_wait];
    destruct (Z.eqb_spec (hba_discovery_events w) ISCSI_ALL_DISCOVERY_METHODS)
      as [Hall|Hnot]; try discriminate.
  1,2: intros H; inversion H; subst; split; [exact Hall|];
       split; [reflexivity|]; exists 0%nat; cbn [firstn concat];
       rewrite app_nil_r;
       destruct Hrec as (new & Ht & Hr); exists new; split; auto.
  intros H.
  destruct (IH (ran ++ es) (run_env es w) (ends_recorded_env _ _ _ _ Hrec) H)
    as (Hall & Hprog & n & Hn).
  split; [exact Hall|]. split; [exact Hprog|]. exists (S n).
  cbn [firstn concat]. rewrite app_assoc. exact Hn.
Qed.

(** Nothing but the four methods gets into the flags. *)
Definition events_bounded (w : world) : Prop :=
  Z.lor (hba_discovery_events w) ISCSI_ALL_DISCOVERY_METHODS
    = ISCSI_ALL_DISCOVERY_METHODS.

Lemma events_bounded_event m start w :
  events_bounded w -> events_bounded (snd (iscsi_discovery_event m start w)).
Proof.
  unfold events_bounded. intros H. rewrite iscsi_discovery_event_eq.
  cbn [snd hba_discovery_events set_trace].
  destruct (negb start && is_discovery_method m) eqn:Hc; [|exact H].
  cbn [hba_discovery_events set_hba_discovery_events].
  apply andb_prop in Hc. destruct Hc as [_ Hm].
  rewrite <- Z.lor_assoc.
  replace (Z.lor m ISCSI_ALL_DISCOVERY_METHODS)
    with ISCSI_ALL_DISCOVERY_METHODS; [exact H|].
  unfold is_discovery_method in Hm.
  repeat (apply orb_prop in Hm; destruct Hm as [Hm|Hm]);
    apply Z.eqb_eq in Hm; subst m; reflexivity.
Qed.

Lemma events_bounded_poke_loop m dm tbl w :
  events_bounded w -> events_bounded (snd (iscsid_poke_loop m dm tbl w)).
Proof.
  revert w. induction tbl as [|dt rest IH]; intros w H; cbn; [exact H|].
  destruct (method dt =? iSCSIDiscoveryMethodUnknown); [exact H|].
  unfold bind.
  assert (Hse : forall w0, events_bounded w0 ->
            events_bounded
              (snd (let (_, w1) := iscsi_discovery_event (method dt) true w0 in
                    iscsi_discovery_event (method dt) false w1))).
  { intros w0 H0.
    pose proof (events_bounded_event (method dt) true w0 H0) as H1.
    destruct (iscsi_discovery_event (method dt) true w0) as [[] w1].
    apply events_bounded_event. exact H1. }
  destruct ((m =? iSCSIDiscoveryMethodUnknown) || (m =? method dt)).
  - destruct (if negb (Z.land dm (method dt) =? 0) then thr_id dt else None)
      as [thr|].
    + cbn. apply IH. exact H.
    + specialize (Hse w H).
      destruct (let (_, w1) := iscsi_discovery_event (method dt) true w in
                iscsi_discovery_event (method dt) false w1) as [[] w1].
      apply IH. exact Hse.
  - specialize (Hse w H).
    destruct (let (_, w1) := iscsi_discovery_event (method dt) true w in
              iscsi_discovery_event (method dt) false w1) as [[] w1].
    apply IH. exact Hse.
Qed.

(** The mutex sections of the end events of the four discovery
    threads. *)
Definition all_threads_end : list env_action :=
  map (fun k => env_event_locked k false) discovery_methods.

Lemma all_threads_end_events w :
  events_bounded w ->
  hba_discovery_events (run_env all_threads_end w)
    = ISCSI_ALL_DISCOVERY_METHODS.
Proof.
  unfold events_bounded, all_threads_end, run_env, discovery_methods.
  intros H. cbn [map fold_left run_env_action].
  rewrite !discovery_event_locked_eq.
  cbn [snd negb andb is_discovery_method Z.eqb orb
       iSCSIDiscoveryMethodStatic iSCSIDiscoveryMethodSendTargets
       iSCSIDiscoveryMethodISNS iSCSIDiscoveryMethodSLP Pos.eqb
       hba_discovery_events set_trace set_hba_discovery_events].
  rewrite <- !Z.lor_assoc. exact H.
Qed.

(** C5. When [iscsid_poke_discovery] returns, [hba_discovery_events] is
    the mask of the four methods and [hba_discovery_in_progress] is false.
    The flags were reset at its start, and an end event of a method is the
    only thing that puts the method into [hba_discovery_events], in the
    caller as in the other threads: so for each of the four methods
    [iscsi_discovery_event] has been called with [B_FALSE] since, and
    either its sysevent has been sent or another thread has passed the
    mutex section of the call (its sysevent then may still be to come).
    The call does return, at its first test, once the four discovery
    threads have passed the mutex sections of their end events. *)
Theorem iscsid_poke_discovery_returns :
  (forall m first sched w w',
      iscsid_poke_discovery m first sched w = Some w' ->
      hba_discovery_events w' = ISCSI_ALL_DISCOVERY_METHODS
      /\ hba_discovery_in_progress w' = false
      /\ exists new n,
           trace w' = trace w ++ new
           /\ forall k, In k discovery_methods ->
                In (ev_sysevent (discovery_subclass k false)) new
                \/ In (env_event_locked k false)
                     (first ++ concat (firstn n sched)))
  /\ (forall m start w,
        hba_discovery_events (snd (iscsi_discovery_event m start w))
          = if negb start && is_discovery_method m
            then Z.lor (hba_discovery_events w) m
            else hba_discovery_events w)
  /\ (forall e w,
        hba_discovery_events (run_env_action e w)
          = match e with
            | env_event_locked m start =>
                if negb start && is_discovery_method m
                then Z.lor (hba_discovery_events w) m
                else hba_discovery_events w
            | env_send_sysevent _ | env_sess_list _ =>
                hba_discovery_events w
            end)
  /\ (forall m sched w,
        iscsid_poke_discovery m all_threads_end sched w <> None).
Proof.
  split; [|split; [|split]].
  - intros m first sched w w' H. unfold iscsid_poke_discovery in H.
    apply (iscsid_poke_wait_returns (trace w) first) in H.
    + destruct H as (Hall & Hprog & n & new & Ht & Hrec).
      split; [exact Hall|]. split; [exact Hprog|].
      exists new, n. split; [exact Ht|].
      intros k Hk. apply Hrec; auto. rewrite Hall.
      cbn in Hk. destruct Hk as [<-|[<-|[<-|[<-|[]]]]]; discriminate.
    + apply (ends_recorded_env (trace w) [] first).
      apply ends_recorded_poke_loop.
      exists []. split; [cbn; rewrite app_nil_r; reflexivity|].
      intros k Hk Hbit. exfalso. apply Hbit. reflexivity.
  - intros m start w. rewrite iscsi_discovery_event_eq. cbn [snd].
    destruct (negb start && is_discovery_method m); reflexivity.
  - intros e w. destruct e as [m start|subclass|l]; cbn [run_env_action].
    + rewrite discovery_event_locked_eq. cbn [snd].
      destruct (negb start && is_discovery_method m); reflexivity.
    + reflexivity.
    + reflexivity.
  - intros m sched w. unfold iscsid_poke_discovery.
    match goal with
    | |- iscsid_poke_wait sched (run_env all_threads_end ?x) <> None =>
        assert (Hb : events_bounded x)
          by (apply events_bounded_poke_loop; reflexivity);
        pose proof (all_threads_end_events x Hb) as Hall
    end.
    destruct sched; cbn [iscsid_poke_wait]; rewrite Hall, Z.eqb_refl;
      discriminate.
Qed.

(** ** Logging in, SendTargets and the iSNS notification *)

(** The value the loop body of [iscsid_login_tgt] gives [try_online]. *)
Definition login_try_online (target_name : option string) (m : Z)
    (addr_dsc : option sockaddr) (isp : iscsi_sess_t) : bool :=
  match target_name with
  | None =>
      if m =? iSCSIDiscoveryMethodUnknown then true
      else if negb (Z.land (sess_discovered_by isp) m =? 0) then
        if (m =? iSCSIDiscoveryMethodISNS)
           || (m =? iSCSIDiscoveryMethodSendTargets)
        then
          match addr_dsc with
          | None => true
          | Some a =>
              bcmp (sess_discovered_addr isp) a
                   (SIZEOF_SOCKADDR (sess_discovered_addr isp)) =? 0
          end
        else true
      else false
  | Some n => String.eqb n (sess_name isp)
  end.

(** The loop of [iscsid_login_tgt] over the sessions from [isp] on. *)
Fixpoint iscsid_login_loop (target_name : option string) (m : Z)
    (addr_dsc : option sockaddr) (l : list iscsi_sess_t) (rtn : bool)
    : bool * list event :=
  match l with
  | [] => (rtn, [])
  | isp :: rest =>
      if login_try_online target_name m addr_dsc isp then
        let (rtn', evs) :=
          iscsid_login_loop target_name m addr_dsc rest true in
        (rtn', ev_sess_online isp :: evs)
      else iscsid_login_loop target_name m addr_dsc rest rtn
  end.

(** [iscsid_login_tgt] *)
Definition iscsid_login_tgt (target_name : option string) (m : Z)
    (addr_dsc : option sockaddr) : M bool :=
  fun w =>
    let (rtn, evs) :=
      iscsid_login_loop target_name m addr_dsc (hba_sess_list w) false in
    (rtn, set_trace w (trace w ++ evs)).

(** Layout of socket addresses, from the system headers: the address
    family values and the host-order bytes of a 16-bit field; and what a
    fresh automatic [iscsi_sockaddr_t] holds before it is written. *)
Variable AF_INET : Z.
Variable AF_INET6 : Z.
Variable native_u16 : Z -> list Z.
Variable stack_sockaddr : sockaddr.

Definition write_bytes (off : nat) (bs buf : list Z) : list Z :=
  firstn off buf ++ bs ++ skipn (off + length bs) buf.

(** The two bytes [htons] leaves in memory. *)
Definition htons_bytes (port : Z) : list Z :=
  [ (port / 256) mod 256; port mod 256 ].

(** [iscsid_addr_to_sockaddr]: [dst] before and after.  [bzero] clears
    [sizeof (struct sockaddr)] bytes; the port is at offset 2, an IPv4
    address at offset 4, an IPv6 address at offset 8. *)
Definition iscsid_addr_to_sockaddr (src_insize : Z) (src_addr : list Z)
    (src_port : Z) (dst_addr : sockaddr) : sockaddr :=
  let dst0 := write_bytes 0 (repeat 0 16) dst_addr in
  if src_insize =? 4 then
    let d1 := write_bytes 0 (native_u16 AF_INET) dst0 in
    let d2 := write_bytes 4 (firstn 4 src_addr) d1 in
    write_bytes 2 (htons_bytes src_port) d2
  else
    let d1 := write_bytes 0 (native_u16 AF_INET6) dst0 in
    let d2 := write_bytes 8 (firstn 16 src_addr) d1 in
    write_bytes 2 (htons_bytes src_port) d2.

(** A discovery address of the persistent store. *)
Record entry_t := {
  e_insize : Z;
  e_u : list Z;
  e_port : Z;
  e_tpgt : Z
}.

(** A target descriptor of a SendTargets response. *)
Record iscsi_sendtgts_entry_t := {
  ste_name : string;
  ste_insize : Z;
  ste_addr : list Z;
  ste_port : Z;
  ste_tpgt : Z
}.

Definition ste_zero : iscsi_sendtgts_entry_t :=
  {| ste_name := ""; ste_insize := 0; ste_addr := []; ste_port := 0;
     ste_tpgt := 0 |}.

(** [iscsi_ioctl_sendtgts_get], which lives in the ioctl layer: for the
    n-th call of one [iscsid_do_sendtgts], the discovery address and the
    [stl_in_cnt] offered, the return code, [stl_out_cnt] and the descriptors
    the target reported.  And whether [ddi_get_soft_state] finds the
    driver instance. *)
Variable iscsi_ioctl_sendtgts_get :
  nat -> entry_t -> Z -> Z * Z * list iscsi_sendtgts_entry_t.
Variable ddi_get_soft_state : world -> bool.

Definition SENDTGTS_DEFAULT_NUM_TARGETS : Z := 10.

(** The arguments [iscsid_do_sendtgts] gives [iscsid_add] for a
    descriptor. *)
Definition sendtgts_add_args (disc_addr : entry_t)
    (ste : iscsi_sendtgts_entry_t) : add_args :=
  {| a_method := iSCSIDiscoveryMethodSendTargets;
     a_addr_dsc :=
       iscsid_addr_to_sockaddr (e_insize disc_addr) (e_u disc_addr)
         (e_port disc_addr) stack_sockaddr;
     a_target_name := ste_name ste;
     a_tpgt := ste_tpgt ste;
     a_addr_tgt :=
       iscsid_addr_to_sockaddr (ste_insize ste) (ste_addr ste)
         (ste_port ste) stack_sockaddr |}.

(** The descriptors in a zeroed buffer of [stl_in_cnt] entries after the
    ioctl wrote what it had. *)
Definition stl_list (stl_in_cnt : Z) (reported : list iscsi_sendtgts_entry_t)
    : list iscsi_sendtgts_entry_t :=
  firstn (Z.to_nat stl_in_cnt)
         (reported ++ repeat ste_zero (Z.to_nat stl_in_cnt)).

(** The loop [for (ctr = 0; ctr < stl_hdr->stl_out_cnt; ctr++)] over the
    buffer [stl]: [ctr] is the index of the next descriptor and [n] the
    number of turns left.  The loop is entered with [stl_out_cnt] at most
    [stl_in_cnt], so no index is beyond the buffer. *)
Fixpoint sendtgts_add_loop (disc_addr : entry_t)
    (stl : list iscsi_sendtgts_entry_t) (ctr n : nat) : M unit :=
  match n with
  | O => ret tt
  | S n' =>
      iscsid_add (sendtgts_add_args disc_addr (nth ctr stl ste_zero)) ;;
      sendtgts_add_loop disc_addr stl (S ctr) n'
  end.

(** One pass from the label [retry_sendtgts]: the buffer holds
    [stl_num_tgts] descriptors; [on_overflow] is what the test of [retry]
    leads to when the target reports more. *)
Definition sendtgts_pass (disc_addr : entry_t) (attempt : nat)
    (stl_num_tgts : Z) (on_overflow : Z -> M unit) : M unit :=
  fun w =>
    if negb (ddi_get_soft_state w) then
      (emit (ev_note "SendTargets: failure to get soft state") ;;
       emit (ev_kmem_free obj_sendtgts_list)) w
    else
      let '(rc, stl_out_cnt, reported) :=
        iscsi_ioctl_sendtgts_get attempt disc_addr stl_num_tgts in
      (emit (ev_ioctl_sendtgts_get stl_num_tgts) ;;
       if negb (rc =? 0) then
         emit (ev_note "iscsi discovery failure - SendTargets") ;;
         emit (ev_kmem_free obj_sendtgts_list)
       else if stl_num_tgts <? stl_out_cnt then on_overflow stl_out_cnt
       else
         sendtgts_add_loop disc_addr (stl_list stl_num_tgts reported) 0
           (Z.to_nat stl_out_cnt) ;;
         emit (ev_kmem_free obj_sendtgts_list)) w.

(** [iscsid_do_sendtgts] *)
Definition iscsid_do_sendtgts (disc_addr : entry_t) : M unit :=
  emit (ev_kmem_zalloc obj_sendtgts_list SENDTGTS_DEFAULT_NUM_TARGETS) ;;
  sendtgts_pass disc_addr 0 SENDTGTS_DEFAULT_NUM_TARGETS
    (fun stl_out_cnt =>
       (* retry == B_TRUE *)
       emit (ev_kmem_free obj_sendtgts_list) ;;
       emit (ev_kmem_zalloc obj_sendtgts_list stl_out_cnt) ;;
       sendtgts_pass disc_addr 1 stl_out_cnt
         (fun _ =>
            (* retry == B_FALSE *)
            emit (ev_note
                    "iscsi discovery failure - SendTargets overflow") ;;
            emit (ev_kmem_free obj_sendtgts_list))).

(** *** The overflow retry of [iscsid_do_sendtgts] *)

Definition log (evs : list event) (w : world) : world :=
  set_trace w (trace w ++ evs).

Lemma log_log evs evs' w : log evs' (log evs w) = log (evs ++ evs') w.
Proof. unfold log. cbn. rewrite app_assoc. reflexivity. Qed.

Lemma emit_log e w : emit e w = (tt, log [e] w).
Proof. reflexivity. Qed.

Lemma stl_list_length stl_in_cnt reported n :
  0 <= n <= stl_in_cnt ->
  length (firstn (Z.to_nat n) (stl_list stl_in_cnt reported)) = Z.to_nat n.
Proof.
  intros Hn. unfold stl_list. rewrite !length_firstn, length_app, repeat_length.
  lia.
Qed.

Lemma nth_seq_firstn {A} (l : list A) (d : A) k :
  (k <= length l)%nat ->
  map (fun i => nth i l d) (seq 0 k) = firstn k l.
Proof.
  revert k. induction l as [|x l IH]; intros k Hk.
  - destruct k; [reflexivity | cbn in Hk; lia].
  - destruct k as [|k]; [reflexivity|]. cbn [seq map nth firstn]. f_equal.
    rewrite <- seq_shift, map_map. cbn [nth]. apply IH. cbn in Hk. lia.
Qed.

Lemma sendtgts_add_loop_calls disc_addr stl ctr n w :
  snd (sendtgts_add_loop disc_addr stl ctr n w)
  = run_adds (map (sendtgts_add_args disc_addr)
                  (map (fun i => nth i stl ste_zero) (seq ctr n))) w.
Proof.
  revert ctr w. induction n as [|n IH]; intros ctr w; [reflexivity|].
  cbn [sendtgts_add_loop seq map]. unfold bind, run_adds. cbn [fold_left].
  destruct (iscsid_add (sendtgts_add_args disc_addr (nth ctr stl ste_zero)) w)
    as [r w1]. cbn [snd]. apply IH.
Qed.

Lemma stl_list_buffer stl_in_cnt reported :
  length (stl_list stl_in_cnt reported) = Z.to_nat stl_in_cnt.
Proof.
  unfold stl_list. rewrite length_firstn, length_app, repeat_length. lia.
Qed.

(** The claim that an overflow of the first response always leads to a
    second ioctl, with the reported count. *)
Definition overflow_retries_ioctl : Prop :=
  forall disc_addr w out rep,
    ddi_get_soft_state
      (log [ev_kmem_zalloc obj_sendtgts_list SENDTGTS_DEFAULT_NUM_TARGETS] w)
      = true ->
    iscsi_ioctl_sendtgts_get 0 disc_addr SENDTGTS_DEFAULT_NUM_TARGETS
      = (0, out, rep) ->
    SENDTGTS_DEFAULT_NUM_TARGETS < out ->
    exists evs,
      trace (snd (iscsid_do_sendtgts disc_addr w)) = trace w ++ evs
      /\ In (ev_ioctl_sendtgts_get out) evs.

(** C8. [iscsid_do_sendtgts] first offers a buffer of 10 descriptors.  If
    the ioctl succeeds and the target reports more than the buffer holds,
    the buffer is released and allocated again with the reported count,
    once; the driver instance is then looked up again, and the ioctl is
    issued a second time only if it is still there.  If the second
    response reports more than the second buffer holds, the address is
    given up and [iscsid_add] is not called; otherwise [iscsid_add] is
    called for SendTargets once for each of the [stl_out_cnt] descriptors
    of the buffer, in their order.  A missing driver instance or an ioctl
    that fails ends the call with a note, the release of the buffer and no
    [iscsid_add]. *)
Theorem iscsid_do_sendtgts_overflow :
  forall disc_addr w rc1 out1 rep1 rc2 out2 rep2,
    iscsi_ioctl_sendtgts_get 0 disc_addr SENDTGTS_DEFAULT_NUM_TARGETS
      = (rc1, out1, rep1) ->
    iscsi_ioctl_sendtgts_get 1 disc_addr out1 = (rc2, out2, rep2) ->
    let alloc :=
      [ev_kmem_zalloc obj_sendtgts_list SENDTGTS_DEFAULT_NUM_TARGETS] in
    let first :=
      alloc ++ [ev_ioctl_sendtgts_get SENDTGTS_DEFAULT_NUM_TARGETS] in
    let realloc :=
      [ev_kmem_free obj_sendtgts_list;
       ev_kmem_zalloc obj_sendtgts_list out1] in
    let again := realloc ++ [ev_ioctl_sendtgts_get out1] in
    let gone :=
      [ev_note "SendTargets: failure to get soft state";
       ev_kmem_free obj_sendtgts_list] in
    let failed :=
      [ev_note "iscsi discovery failure - SendTargets";
       ev_kmem_free obj_sendtgts_list] in
    let adds stl_in_cnt stl_out_cnt reported :=
      map (sendtgts_add_args disc_addr)
          (firstn (Z.to_nat stl_out_cnt) (stl_list stl_in_cnt reported)) in
    let here1 := ddi_get_soft_state (log alloc w) in
    let here2 := ddi_get_soft_state (log (first ++ realloc) w) in
    (here1 = false ->
       snd (iscsid_do_sendtgts disc_addr w) = log (alloc ++ gone) w)
    /\ (here1 = true -> rc1 <> 0 ->
          snd (iscsid_do_sendtgts disc_addr w) = log (first ++ failed) w)
    /\ (here1 = true -> rc1 = 0 -> out1 <= SENDTGTS_DEFAULT_NUM_TARGETS ->
          snd (iscsid_do_sendtgts disc_addr w)
            = log [ev_kmem_free obj_sendtgts_list]
                (run_adds (adds SENDTGTS_DEFAULT_NUM_TARGETS out1 rep1)
                   (log first w))
          /\ (0 <= out1 ->
              length (adds SENDTGTS_DEFAULT_NUM_TARGETS out1 rep1)
                = Z.to_nat out1))
    /\ (here1 = true -> rc1 = 0 -> SENDTGTS_DEFAULT_NUM_TARGETS < out1 ->
        here2 = false ->
          snd (iscsid_do_sendtgts disc_addr w)
            = log (first ++ realloc ++ gone) w)
    /\ (here1 = true -> rc1 = 0 -> SENDTGTS_DEFAULT_NUM_TARGETS < out1 ->
        here2 = true -> rc2 <> 0 ->
          snd (iscsid_do_sendtgts disc_addr w)
            = log (first ++ again ++ failed) w)
    /\ (here1 = true -> rc1 = 0 -> SENDTGTS_DEFAULT_NUM_TARGETS < out1 ->
        here2 = true -> rc2 = 0 -> out2 <= out1 ->
          snd (iscsid_do_sendtgts disc_addr w)
            = log [ev_kmem_free obj_sendtgts_list]
                (run_adds (adds out1 out2 rep2) (log (first ++ again) w))
          /\ (0 <= out2 -> length (adds out1 out2 rep2) = Z.to_nat out2))
    /\ (here1 = true -> rc1 = 0 -> SENDTGTS_DEFAULT_NUM_TARGETS < out1 ->
        here2 = true -> rc2 = 0 -> out1 < out2 ->
          snd (iscsid_do_sendtgts disc_addr w)
            = log (first ++ again ++
                   [ev_note "iscsi discovery failure - SendTargets overflow";
                    ev_kmem_free obj_sendtgts_list]) w).
Proof.
  intros disc_addr w rc1 out1 rep1 rc2 out2 rep2 H1 H2 alloc first realloc
    again gone failed adds here1 here2.
  assert (Hpass : forall attempt n k rc out rep w0,
    iscsi_ioctl_sendtgts_get attempt disc_addr n = (rc, out, rep) ->
    sendtgts_pass disc_addr attempt n k w0 =
      (if negb (ddi_get_soft_state w0) then (tt, log gone w0)
       else if negb (rc =? 0) then
         (tt, log failed (log [ev_ioctl_sendtgts_get n] w0))
       else if n <? out then k out (log [ev_ioctl_sendtgts_get n] w0)
       else (tt, log [ev_kmem_free obj_sendtgts_list]
                   (snd (sendtgts_add_loop disc_addr (stl_list n rep) 0
                           (Z.to_nat out)
                           (log [ev_ioctl_sendtgts_get n] w0)))))).
  { intros attempt n k rc out rep w0 Hio.
    unfold sendtgts_pass. destruct (ddi_get_soft_state w0); cbn [negb].
    - rewrite Hio. unfold bind. rewrite emit_log.
      destruct (negb (rc =? 0)).
      + rewrite !emit_log, log_log. reflexivity.
      + destruct (n <? out); [reflexivity|].
        destruct (sendtgts_add_loop disc_addr (stl_list n rep) 0
                    (Z.to_nat out) (log [ev_ioctl_sendtgts_get n] w0))
          as [[] w1].
        rewrite emit_log. reflexivity.
    - unfold bind. rewrite !emit_log, log_log. reflexivity. }
  assert (Hadds : forall n out rep w0,
            out <= n ->
            snd (sendtgts_add_loop disc_addr (stl_list n rep) 0
                   (Z.to_nat out) w0)
            = run_adds (adds n out rep) w0).
  { intros n out rep w0 Hle. rewrite sendtgts_add_loop_calls. unfold adds.
    rewrite nth_seq_firstn; [reflexivity|]. rewrite stl_list_buffer. lia. }
  assert (Hnz : forall rc, rc <> 0 -> negb (rc =? 0) = true)
    by (intros rc Hrc; apply Z.eqb_neq in Hrc; rewrite Hrc; reflexivity).
  assert (Hlen : forall n out rep, out <= n -> 0 <= out ->
                   length (adds n out rep) = Z.to_nat out).
  { intros n out rep Hle H0. unfold adds. rewrite length_map.
    apply stl_list_length. lia. }
  assert (Hh2 : ddi_get_soft_state
                  (log (alloc ++
                        [ev_ioctl_sendtgts_get SENDTGTS_DEFAULT_NUM_TARGETS]
                        ++ [ev_kmem_free obj_sendtgts_list]
                        ++ [ev_kmem_zalloc obj_sendtgts_list out1]) w)
                = here2) by reflexivity.
  unfold iscsid_do_sendtgts, bind. rewrite emit_log.
  rewrite (Hpass _ _ _ _ _ _ _ H1). fold alloc. fold here1.
  split; [|split; [|split; [|split; [|split; [|split]]]]].
  - intros ->. cbn [negb snd]. rewrite log_log. reflexivity.
  - intros -> Hrc. cbn [negb]. rewrite (Hnz _ Hrc). cbn [snd].
    rewrite !log_log. reflexivity.
  - intros -> -> Hle. cbn [Z.eqb negb].
    pose proof Hle as Hle'. apply Z.ltb_ge in Hle'. rewrite Hle'.
    cbn [snd]. rewrite (Hadds _ _ _ _ Hle), log_log.
    split; [reflexivity | apply Hlen; exact Hle].
  - intros -> -> Hlt Hgone. cbn [Z.eqb negb]. apply Z.ltb_lt in Hlt.
    rewrite Hlt. rewrite !emit_log, !log_log.
    rewrite (Hpass _ _ _ _ _ _ _ H2).
    rewrite Hh2.
    rewrite Hgone. cbn [negb snd]. rewrite log_log.
    unfold first, realloc. rewrite <- !app_assoc. reflexivity.
  - intros -> -> Hlt Hhere Hrc. cbn [Z.eqb negb]. apply Z.ltb_lt in Hlt.
    rewrite Hlt. rewrite !emit_log, !log_log.
    rewrite (Hpass _ _ _ _ _ _ _ H2).
    rewrite Hh2.
    rewrite Hhere, (Hnz _ Hrc). cbn [negb snd]. rewrite !log_log.
    unfold first, again, realloc. rewrite <- !app_assoc. reflexivity.
  - intros -> -> Hlt Hhere -> Hle. cbn [Z.eqb negb].
    pose proof Hlt as Hlt'. apply Z.ltb_lt in Hlt'. rewrite Hlt'.
    rewrite !emit_log, !log_log.
    rewrite (Hpass _ _ _ _ _ _ _ H2).
    rewrite Hh2.
    rewrite Hhere. cbn [Z.eqb negb].
    pose proof Hle as Hle'. apply Z.ltb_ge in Hle'. rewrite Hle'.
    cbn [snd]. rewrite (Hadds _ _ _ _ Hle), !log_log. split.
    + unfold first, again, realloc. rewrite <- !app_assoc. reflexivity.
    + apply Hlen. exact Hle.
  - intros -> -> Hlt Hhere -> Hlt2. cbn [Z.eqb negb]. apply Z.ltb_lt in Hlt.
    rewrite Hlt. rewrite !emit_log, !log_log.
    rewrite (Hpass _ _ _ _ _ _ _ H2).
    rewrite Hh2.
    rewrite Hhere. cbn [Z.eqb negb]. apply Z.ltb_lt in Hlt2. rewrite Hlt2.
    rewrite !emit_log, !log_log. cbn [snd].
    unfold first, again, realloc. rewrite <- !app_assoc. reflexivity.
Qed.

(** ** The iSNS state change notification *)

Inductive isns_status_t :=
| isns_ok
| isns_op_partially_failed
| isns_failed.

(** The fields of a portal group entry the callback reads. *)
Record isns_portal_group_t := {
  isns_server_ip_insize : Z;
  isns_server_ip_addr : list Z;
  isns_server_port : Z;
  insize : Z;
  pg_ip_addr : list Z;
  pg_port : Z;
  pg_iscsi_name : string;
  pg_tag : Z
}.

Record isns_scn_callback_arg_t := {
  scn_type : Z;
  source_key_attr : string
}.

(** The notification types of [isns_protocol.h], and the one-node query of
    the iSNS client: its status and the portal group list it hands back
    ([None] for a null list; the list holds [pg_out_cnt] entries). *)
Variable ISNS_OBJ_ADDED : Z.
Variable ISNS_OBJ_REMOVED : Z.
Variable ISNS_OBJ_UPDATED : Z.
Variable isns_query_one_node :
  world -> string -> isns_status_t * option (list isns_portal_group_t).

Definition pg_add_args (pg : isns_portal_group_t) : add_args :=
  {| a_method := iSCSIDiscoveryMethodISNS;
     a_addr_dsc :=
       iscsid_addr_to_sockaddr (isns_server_ip_insize pg)
         (isns_server_ip_addr pg) (isns_server_port pg) stack_sockaddr;
     a_target_name := pg_iscsi_name pg;
     a_tpgt := pg_tag pg;
     a_addr_tgt :=
       iscsid_addr_to_sockaddr (insize pg) (pg_ip_addr pg) (pg_port pg)
         stack_sockaddr |}.

(** The loop over the portal groups of an added object: each is added to
    the discovery cache and its target forced to log in. *)
Fixpoint scn_added_loop (pgs : list isns_portal_group_t) : M unit :=
  match pgs with
  | [] => ret tt
  | pg :: rest =>
      iscsid_add (pg_add_args pg) ;;
      iscsid_login_tgt (Some (pg_iscsi_name pg)) iSCSIDiscoveryMethodISNS
        None ;;
      scn_added_loop rest
  end.

(** The [switch (scn_type)] of [isns_scn_callback]. *)
Definition scn_switch (a : isns_scn_callback_arg_t) : M unit :=
  if scn_type a =? ISNS_OBJ_ADDED then
    fun w =>
      match isns_query_one_node w (source_key_attr a) with
      | (isns_failed, _) => (tt, w)
      | (_, None) => (tt, w)
      | (_, Some pg_list) =>
          (scn_added_loop pg_list ;;
           emit (ev_kmem_free obj_portal_group_list)) w
      end
  else if scn_type a =? ISNS_OBJ_REMOVED then
    rv <- iscsid_del (Some (source_key_attr a)) iSCSIDiscoveryMethodISNS
            None ;;
    if negb rv then emit (ev_note "isns remove scn failed for target")
    else ret tt
  else if scn_type a =? ISNS_OBJ_UPDATED then
    emit (ev_note "received iSNS update SCN")
  else
    emit (ev_note "received unknown iSNS SCN type").

(** [isns_scn_callback]; [arg] is [None] for a null pointer. *)
Definition isns_scn_callback (arg : option isns_scn_callback_arg_t) : M unit :=
  match arg with
  | None => ret tt
  | Some a =>
      fun w =>
        if negb (ddi_get_soft_state w) then (tt, w)
        else (scn_switch a ;; emit (ev_kmem_free obj_scn_callback_arg)) w
  end.

(** *** Release of the callback argument *)

Definition is_arg_free (e : event) : bool :=
  match e with
  | ev_kmem_free obj_scn_callback_arg => true
  | _ => false
  end.

(** How often the callback argument is released in a trace. *)
Definition arg_frees (evs : list event) : nat :=
  length (filter is_arg_free evs).

(** [w'] comes from [w] by events that do not release the argument. *)
Definition keeps_arg (w w' : world) : Prop :=
  exists evs, trace w' = trace w ++ evs /\ arg_frees evs = 0%nat.

Lemma arg_frees_app evs evs' :
  arg_frees (evs ++ evs') = (arg_frees evs + arg_frees evs')%nat.
Proof. unfold arg_frees. rewrite filter_app, length_app. reflexivity. Qed.

Lemma keeps_arg_refl w : keeps_arg w w.
Proof. exists []. split; [rewrite app_nil_r; reflexivity | reflexivity]. Qed.

Lemma keeps_arg_trans w1 w2 w3 :
  keeps_arg w1 w2 -> keeps_arg w2 w3 -> keeps_arg w1 w3.
Proof.
  intros (e1 & H1 & F1) (e2 & H2 & F2). exists (e1 ++ e2). split.
  - rewrite H2, H1, app_assoc. reflexivity.
  - rewrite arg_frees_app, F1, F2. reflexivity.
Qed.

Lemma keeps_arg_emit e w :
  is_arg_free e = false -> keeps_arg w (snd (emit e w)).
Proof.
  intros He. exists [e]. split; [reflexivity|].
  unfold arg_frees. cbn. rewrite He. reflexivity.
Qed.

Lemma keeps_arg_add a w : keeps_arg w (snd (iscsid_add a w)).
Proof.
  unfold iscsid_add.
  destruct (configured_sessions (a_target_name a) (hba_name w)).
  - destruct (iscsid_add_loop a (isid_range z) (hba_sess_list w)).
    exists []. split; [cbn; rewrite app_nil_r; reflexivity | reflexivity].
  - eexists. split; [reflexivity | reflexivity].
Qed.

Lemma iscsid_login_loop_frees target_name m addr_dsc l rtn :
  arg_frees (snd (iscsid_login_loop target_name m addr_dsc l rtn)) = 0%nat.
Proof.
  revert rtn. induction l as [|isp rest IH]; intros rtn; cbn; [reflexivity|].
  destruct (login_try_online target_name m addr_dsc isp); [|apply IH].
  specialize (IH true).
  destruct (iscsid_login_loop target_name m addr_dsc rest true). exact IH.
Qed.

Lemma keeps_arg_login target_name m addr_dsc w :
  keeps_arg w (snd (iscsid_login_tgt target_name m addr_dsc w)).
Proof.
  unfold iscsid_login_tgt.
  pose proof (iscsid_login_loop_frees target_name m addr_dsc (hba_sess_list w)
                false) as H.
  destruct (iscsid_login_loop target_name m addr_dsc (hba_sess_list w) false)
    as [rtn evs].
  exists evs. split; [reflexivity | exact H].
Qed.

Lemma iscsid_del_loop_frees target_name m addr_dsc pre rest rtn evs :
  arg_frees evs = 0%nat ->
  arg_frees (snd (iscsid_del_loop target_name m addr_dsc pre rest rtn evs))
    = 0%nat.
Proof.
  del_loop_induction target_name m addr_dsc pre rest rtn evs; auto;
    intros H; apply IH; rewrite arg_frees_app, H; cbn;
    unfold iscsid_remove_target_param;
    try destruct (_ && _); reflexivity.
Qed.

Lemma keeps_arg_del target_name m addr_dsc w :
  keeps_arg w (snd (iscsid_del target_name m addr_dsc w)).
Proof.
  rewrite iscsid_del_unfold. cbn [snd]. eexists. split; [reflexivity|].
  apply iscsid_del_loop_frees. reflexivity.
Qed.

Lemma keeps_arg_added_loop pgs w :
  keeps_arg w (snd (scn_added_loop pgs w)).
Proof.
  revert w. induction pgs as [|pg rest IH]; intros w; cbn.
  - apply keeps_arg_refl.
  - unfold bind.
    pose proof (keeps_arg_add (pg_add_args pg) w) as H1.
    destruct (iscsid_add (pg_add_args pg) w) as [r1 w1]. cbn [snd] in H1.
    pose proof (keeps_arg_login (Some (pg_iscsi_name pg))
                  iSCSIDiscoveryMethodISNS None w1) as H2.
    destruct (iscsid_login_tgt _ _ _ w1) as [r2 w2]. cbn [snd] in H2.
    eapply keeps_arg_trans; [exact H1|].
    eapply keeps_arg_trans; [exact H2 | apply IH].
Qed.

Lemma keeps_arg_switch a w : keeps_arg w (snd (scn_switch a w)).
Proof.
  unfold scn_switch.
  destruct (scn_type a =? ISNS_OBJ_ADDED).
  - destruct (isns_query_one_node w (source_key_attr a)) as [[| |] [pgs|]];
      cbn [snd]; try apply keeps_arg_refl.
    all: unfold bind;
      pose proof (keeps_arg_added_loop pgs w) as H1;
      destruct (scn_added_loop pgs w) as [[] w1]; cbn [snd] in H1;
      eapply keeps_arg_trans; [exact H1 | apply keeps_arg_emit; reflexivity].
  - destruct (scn_type a =? ISNS_OBJ_REMOVED).
    + unfold bind.
      pose proof (keeps_arg_del (Some (source_key_attr a))
                    iSCSIDiscoveryMethodISNS None w) as H1.
      destruct (iscsid_del _ _ _ w) as [rv w1]. cbn [snd] in H1.
      destruct rv; cbn [negb].
      * exact H1.
      * eapply keeps_arg_trans;
          [exact H1 | apply keeps_arg_emit; reflexivity].
    + destruct (scn_type a =? ISNS_OBJ_UPDATED);
        apply keeps_arg_emit; reflexivity.
Qed.

(** C3.  With the driver instance in place the callback releases its
    argument exactly once, as the last thing it does, whatever the
    notification type; without it ([ddi_get_soft_state] returns null) the
    callback returns at once and the argument is not released, which is
    where the code departs from the claim. *)
Theorem isns_scn_callback_arg_release :
  forall a w,
    (ddi_get_soft_state w = true ->
       exists evs,
         trace (snd (isns_scn_callback (Some a) w))
           = trace w ++ evs ++ [ev_kmem_free obj_scn_callback_arg]
         /\ arg_frees evs = 0%nat
         /\ arg_frees (evs ++ [ev_kmem_free obj_scn_callback_arg]) = 1%nat)
    /\ (ddi_get_soft_state w = false ->
          isns_scn_callback (Some a) w = (tt, w)).
Proof.
  intros a w. unfold isns_scn_callback. split; intros ->; cbn [negb];
    [|reflexivity].
  unfold bind. pose proof (keeps_arg_switch a w) as (evs & Ht & Hf).
  destruct (scn_switch a w) as [[] w1]. cbn [snd] in Ht.
  exists evs. cbn [snd emit trace set_trace].
  rewrite Ht, app_assoc. split; [reflexivity|]. split; [exact Hf|].
  rewrite arg_frees_app, Hf. reflexivity.
Qed.

(** * Further properties of the code *)

(** ** [iscsid_del]: what it keeps and what it returns *)

Lemma iscsid_del_loop_keeps target_name m addr_dsc pre rest rtn evs :
  filter (fun s => negb (del_candidate target_name m addr_dsc s))
         (snd (fst (iscsid_del_loop target_name m addr_dsc pre rest rtn evs)))
    = filter (fun s => negb (del_candidate target_name m addr_dsc s))
             (rev pre ++ rest)
  /\ incl (snd (fst (iscsid_del_loop target_name m addr_dsc pre rest rtn evs)))
          (rev pre ++ rest).
Proof.
  del_loop_induction target_name m addr_dsc pre rest rtn evs.
  - cbn [fst snd]. rewrite app_nil_r. split; [reflexivity | apply incl_refl].
  - destruct IH as [IHf IHi]. cbn [rev app] in IHf, IHi. split.
    + rewrite IHf, !filter_app. cbn [filter]. rewrite Hcand. reflexivity.
    + intros s Hs. apply IHi in Hs. apply in_app_or in Hs.
      apply in_or_app. destruct Hs as [Hs|Hs]; [left | right; right];
        exact Hs.
  - destruct IH as [IHf IHi]. cbn [rev] in IHf, IHi.
    rewrite <- app_assoc in IHf, IHi. split; assumption.
  - destruct IH as [IHf IHi]. cbn [rev] in IHf, IHi.
    rewrite <- app_assoc in IHf, IHi. split; assumption.
Qed.

(** X1. [iscsid_del] never logs out a session it was not asked for: the
    sessions that do not match the name, the method or the address
    predicate are all still in the list afterwards, in their order, and
    nothing is in the list that was not there before. *)
Theorem iscsid_del_keeps_other_sessions :
  forall target_name m addr_dsc w,
    let w' := snd (iscsid_del target_name m addr_dsc w) in
    filter (fun s => negb (del_candidate target_name m addr_dsc s))
           (hba_sess_list w')
      = filter (fun s => negb (del_candidate target_name m addr_dsc s))
               (hba_sess_list w)
    /\ incl (hba_sess_list w') (hba_sess_list w)
    /\ hba_discovery_events w' = hba_discovery_events w
    /\ iscsid_thr w' = iscsid_thr w.
Proof.
  intros target_name m addr_dsc w. cbv zeta. rewrite iscsid_del_unfold.
  cbn [snd hba_sess_list set_trace set_hba_sess_list hba_discovery_events
       iscsid_thr].
  destruct (iscsid_del_loop_keeps target_name m addr_dsc [] (hba_sess_list w)
              true []) as [Hf Hi].
  repeat split; assumption.
Qed.

(** A destroy that failed, in a trace. *)
Definition destroy_failed (e : event) : bool :=
  match e with
  | ev_sess_destroy _ status => negb (ISCSI_SUCCESS status)
  | _ => false
  end.

Lemma iscsid_del_loop_rtn target_name m addr_dsc pre rest rtn evs :
  rtn = negb (existsb destroy_failed evs) ->
  fst (fst (iscsid_del_loop target_name m addr_dsc pre rest rtn evs))
    = negb (existsb destroy_failed
              (snd (iscsid_del_loop target_name m addr_dsc pre rest rtn evs))).
Proof.
  del_loop_induction target_name m addr_dsc pre rest rtn evs; auto.
  - intros H. apply IH. rewrite existsb_app. cbn [existsb destroy_failed].
    rewrite Hstatus. cbn [negb orb].
    assert (Hr : existsb destroy_failed
                   (iscsid_remove_target_param (sess_name isp)) = false).
    { unfold iscsid_remove_target_param. destruct (_ && _); reflexivity. }
    rewrite Hr, orb_false_r. exact H.
  - intros H. apply IH. rewrite existsb_app. cbn [existsb destroy_failed].
    rewrite Hstatus. cbn [negb orb]. rewrite orb_true_r. reflexivity.
Qed.

(** X2. [iscsid_del] returns [B_FALSE] exactly when one of the calls of
    [iscsi_sess_destroy] it made failed; in particular it returns
    [B_TRUE] when no session matches. *)
Theorem iscsid_del_false_iff_destroy_failed :
  forall target_name m addr_dsc w,
    exists evs,
      trace (snd (iscsid_del target_name m addr_dsc w)) = trace w ++ evs
      /\ fst (iscsid_del target_name m addr_dsc w)
         = negb (existsb destroy_failed evs)
      /\ (existsb (del_candidate target_name m addr_dsc) (hba_sess_list w)
            = false ->
          iscsid_del target_name m addr_dsc w = (true, w)).
Proof.
  intros target_name m addr_dsc w. rewrite iscsid_del_unfold.
  cbn [fst snd trace set_trace]. eexists. split; [reflexivity|]. split.
  - apply iscsid_del_loop_rtn. reflexivity.
  - intros Hnone.
    assert (Hskip : forall rest pre rtn evs,
              existsb (del_candidate target_name m addr_dsc) rest = false ->
              iscsid_del_loop target_name m addr_dsc pre rest rtn evs
                = (rtn, rev pre ++ rest, evs)).
    { induction rest as [|s rest IHr]; intros pre rtn evs Hc.
      - rewrite iscsid_del_loop_nil, app_nil_r. reflexivity.
      - cbn [existsb] in Hc. apply orb_false_elim in Hc.
        destruct Hc as [Hs Hc].
        rewrite iscsid_del_loop_step, Hs, (IHr _ _ _ Hc). cbn [rev].
        rewrite <- app_assoc. reflexivity. }
    rewrite (Hskip _ [] true [] Hnone). cbn [fst snd rev app].
    rewrite app_nil_r. destruct w; reflexivity.
Qed.

(** With a status that depends on the session alone: the sessions
    [iscsid_del] leaves, and the sessions that make it fail. *)
Definition del_keeps (target_name : option string) (m : Z)
    (addr_dsc : option sockaddr) (s : iscsi_sess_t) : bool :=
  negb (del_candidate target_name m addr_dsc s
        && ISCSI_SUCCESS (iscsi_sess_destroy [] s)).

Definition del_busy (target_name : option string) (m : Z)
    (addr_dsc : option sockaddr) (s : iscsi_sess_t) : bool :=
  del_candidate target_name m addr_dsc s
  && negb (ISCSI_SUCCESS (iscsi_sess_destroy [] s)).

Lemma iscsid_del_loop_fixed_status target_name m addr_dsc pre rest rtn evs :
  (forall l s, iscsi_sess_destroy l s = iscsi_sess_destroy [] s) ->
  (forall s, In s pre -> del_keeps target_name m addr_dsc s = true) ->
  (rtn = true ->
   existsb (del_busy target_name m addr_dsc) (rev pre) = false) ->
  snd (fst (iscsid_del_loop target_name m addr_dsc pre rest rtn evs))
    = filter (del_keeps target_name m addr_dsc) (rev pre ++ rest)
  /\ fst (fst (iscsid_del_loop target_name m addr_dsc pre rest rtn evs))
     = rtn && negb (existsb (del_busy target_name m addr_dsc)
                      (rev pre ++ rest)).
Proof.
  intros Hfix.
  del_loop_induction target_name m addr_dsc pre rest rtn evs.
  - intros Hp Hr. cbn [fst snd]. rewrite app_nil_r. split.
    + symmetry. apply forallb_filter_id. apply forallb_forall.
      intros s Hs. apply Hp. apply in_rev. exact Hs.
    + destruct rtn; [|reflexivity]. rewrite (Hr eq_refl). reflexivity.
  - intros Hp Hr. rewrite Hfix in Hstatus.
    destruct IH as [IHl IHr]; [intros s [] | reflexivity |].
    cbn [rev app] in IHl, IHr.
    assert (Hk : del_keeps target_name m addr_dsc isp = false)
      by (unfold del_keeps; rewrite Hcand, Hstatus; reflexivity).
    assert (Hb : del_busy target_name m addr_dsc isp = false)
      by (unfold del_busy; rewrite Hcand, Hstatus; reflexivity).
    split.
    + rewrite IHl, !filter_app. cbn [filter]. rewrite Hk. reflexivity.
    + rewrite IHr, !existsb_app. cbn [existsb]. rewrite Hb. reflexivity.
  - intros Hp Hr. rewrite Hfix in Hstatus.
    destruct IH as [IHl IHr].
    + intros s [<-|Hs]; auto. unfold del_keeps. rewrite Hcand, Hstatus.
      reflexivity.
    + discriminate.
    + cbn [rev] in IHl, IHr. rewrite <- app_assoc in IHl, IHr. split.
      * exact IHl.
      * rewrite IHr, !existsb_app. cbn [existsb app andb].
        assert (Hb : del_busy target_name m addr_dsc isp = true)
          by (unfold del_busy; rewrite Hcand, Hstatus; reflexivity).
        rewrite Hb. cbn [orb]. rewrite orb_true_r, andb_false_r.
        reflexivity.
  - intros Hp Hr.
    destruct IH as [IHl IHr].
    + intros s [<-|Hs]; auto. unfold del_keeps. rewrite Hcand. reflexivity.
    + intros Ht. cbn [rev]. rewrite existsb_app, (Hr Ht). cbn.
      unfold del_busy. rewrite Hcand. reflexivity.
    + cbn [rev] in IHl, IHr. rewrite <- app_assoc in IHl, IHr. split; assumption.
Qed.

(** X3. When the status of [iscsi_sess_destroy] depends on the session
    alone, [iscsid_del] removes exactly the matching sessions that can be
    destroyed and returns [B_FALSE] exactly when a matching session
    cannot; a second call with the same arguments finds the same busy
    sessions, leaves the list as it is and returns the same value. *)
Theorem iscsid_del_fixed_status :
  forall target_name m addr_dsc w,
    (forall l s, iscsi_sess_destroy l s = iscsi_sess_destroy [] s) ->
    let r := iscsid_del target_name m addr_dsc w in
    hba_sess_list (snd r)
      = filter (del_keeps target_name m addr_dsc) (hba_sess_list w)
    /\ fst r = negb (existsb (del_busy target_name m addr_dsc)
                       (hba_sess_list w))
    /\ hba_sess_list (snd (iscsid_del target_name m addr_dsc (snd r)))
       = hba_sess_list (snd r)
    /\ fst (iscsid_del target_name m addr_dsc (snd r)) = fst r.
Proof.
  intros target_name m addr_dsc w Hfix. cbv zeta.
  assert (Hone : forall w0,
    hba_sess_list (snd (iscsid_del target_name m addr_dsc w0))
      = filter (del_keeps target_name m addr_dsc) (hba_sess_list w0)
    /\ fst (iscsid_del target_name m addr_dsc w0)
       = negb (existsb (del_busy target_name m addr_dsc) (hba_sess_list w0))).
  { intros w0. rewrite iscsid_del_unfold.
    cbn [fst snd hba_sess_list set_trace set_hba_sess_list].
    destruct (iscsid_del_loop_fixed_status target_name m addr_dsc []
                (hba_sess_list w0) true [] Hfix) as [Hl Hr];
      [intros s [] | reflexivity |].
    split; assumption. }
  destruct (Hone w) as [Hl Hr].
  destruct (Hone (snd (iscsid_del target_name m addr_dsc w))) as [Hl2 Hr2].
  repeat split; auto.
  - rewrite Hl2, Hl.
    apply forallb_filter_id. apply forallb_forall.
    intros s Hs. apply filter_In in Hs. destruct Hs as [_ Hs]. exact Hs.
  - rewrite Hr2, Hr, Hl. f_equal. clear.
    induction (hba_sess_list w) as [|s l IHl']; [reflexivity|].
    cbn [filter existsb].
    destruct (del_keeps target_name m addr_dsc s) eqn:Ek;
      destruct (del_busy target_name m addr_dsc s) eqn:Eb;
      cbn [existsb orb]; rewrite ?Eb; cbn [orb]; try exact IHl';
      try reflexivity.
    exfalso. unfold del_keeps in Ek. unfold del_busy in Eb.
    destruct (del_candidate target_name m addr_dsc s);
      destruct (ISCSI_SUCCESS (iscsi_sess_destroy [] s)); discriminate.
Qed.

(** ** [iscsid_login_tgt]: which sessions are asked to log in *)

Lemma iscsid_login_loop_spec target_name m addr_dsc l rtn :
  iscsid_login_loop target_name m addr_dsc l rtn
  = (rtn || existsb (login_try_online target_name m addr_dsc) l,
     map ev_sess_online
         (filter (login_try_online target_name m addr_dsc) l)).
Proof.
  revert rtn. induction l as [|s l IH]; intros rtn;
    cbn [iscsid_login_loop existsb filter map].
  - rewrite orb_false_r. reflexivity.
  - destruct (login_try_online target_name m addr_dsc s); rewrite IH.
    + cbn [orb map]. rewrite orb_true_r. reflexivity.
    + reflexivity.
Qed.

Lemma iscsid_login_tgt_spec target_name m addr_dsc w :
  iscsid_login_tgt target_name m addr_dsc w
  = (existsb (login_try_online target_name m addr_dsc) (hba_sess_list w),
     log (map ev_sess_online
            (filter (login_try_online target_name m addr_dsc)
                    (hba_sess_list w))) w).
Proof.
  unfold iscsid_login_tgt. rewrite iscsid_login_loop_spec. reflexivity.
Qed.

(** X4. [iscsid_login_tgt] calls [iscsi_sess_online] on the sessions its
    test selects, each once and in list order, and on no other; it returns
    [B_TRUE] exactly when there is such a session, and changes nothing
    else: when none is selected the state is left as it was. *)
Theorem iscsid_login_tgt_onlines_selected :
  forall target_name m addr_dsc w,
    let sel := login_try_online target_name m addr_dsc in
    let r := iscsid_login_tgt target_name m addr_dsc w in
    trace (snd r)
      = trace w ++ map ev_sess_online (filter sel (hba_sess_list w))
    /\ fst r = existsb sel (hba_sess_list w)
    /\ hba_sess_list (snd r) = hba_sess_list w
    /\ hba_discovery_events (snd r) = hba_discovery_events w
    /\ iscsid_thr (snd r) = iscsid_thr w
    /\ (fst r = false -> snd r = w).
Proof.
  intros target_name m addr_dsc w. cbv zeta. rewrite iscsid_login_tgt_spec.
  cbn [fst snd log trace set_trace hba_sess_list hba_discovery_events
       iscsid_thr].
  repeat split.
  intros Hnone.
  assert (Hf : filter (login_try_online target_name m addr_dsc)
                      (hba_sess_list w) = []).
  { induction (hba_sess_list w) as [|s l IH]; [reflexivity|].
    cbn [existsb] in Hnone. apply orb_false_elim in Hnone.
    destruct Hnone as [Hs Hl]. cbn [filter]. rewrite Hs. exact (IH Hl). }
  rewrite Hf. unfold log. cbn [map]. rewrite app_nil_r.
  destruct w; reflexivity.
Qed.

(** X5. The two ways of selecting: with a target name the method and the
    discovery address are not looked at, and the call succeeds exactly
    when a session of that name is in the list; with no name and the
    method Unknown every session is selected. *)
Theorem iscsid_login_tgt_by_name :
  forall n m addr_dsc m' addr_dsc' w,
    iscsid_login_tgt (Some n) m addr_dsc w
      = iscsid_login_tgt (Some n) m' addr_dsc' w
    /\ (fst (iscsid_login_tgt (Some n) m addr_dsc w) = true <->
        exists s, In s (hba_sess_list w) /\ sess_name s = n)
    /\ trace (snd (iscsid_login_tgt None iSCSIDiscoveryMethodUnknown
                     addr_dsc w))
       = trace w ++ map ev_sess_online (hba_sess_list w).
Proof.
  intros n m addr_dsc m' addr_dsc' w. rewrite !iscsid_login_tgt_spec.
  cbn [fst snd log trace set_trace]. split; [reflexivity|]. split.
  - rewrite existsb_exists. split.
    + intros (s & Hin & Hs). exists s. split; [exact Hin|].
      cbn [login_try_online] in Hs. apply String.eqb_eq in Hs.
      symmetry. exact Hs.
    + intros (s & Hin & Hs). exists s. split; [exact Hin|].
      cbn [login_try_online]. apply String.eqb_eq. symmetry. exact Hs.
  - f_equal. f_equal. apply forallb_filter_id. apply forallb_forall.
    intros s _. reflexivity.
Qed.

(** ** [iscsid_add]: what a call leaves *)


(** X7. A call of [iscsid_add] that returns [B_TRUE] leaves every
    configured slot of the target in the list, each with a connection to
    the target address. *)
Theorem iscsid_add_true_all_slots :
  forall a w ics_out,
    configured_sessions (a_target_name a) (hba_name w) = Some ics_out ->
    fst (iscsid_add a w) = true ->
    forall isid, 0 <= isid < ics_out ->
      slot_present a isid (hba_sess_list (snd (iscsid_add a w))).
Proof.
  intros a w n Hn Hok isid Hisid. unfold iscsid_add in *. rewrite Hn in *.
  destruct (iscsid_add_loop a (isid_range n) (hba_sess_list w)) as [rtn l]
    eqn:Hloop.
  cbn [fst snd hba_sess_list set_hba_sess_list] in *. subst rtn.
  eapply iscsid_add_loop_ok; [exact Hloop|]. apply isid_range_In.
  exact Hisid.
Qed.

(** X8. A configured count that is not positive makes [iscsid_add] a
    successful no-op: the loop over the slots is not entered, no session
    is created, and [B_TRUE] is returned. *)
Theorem iscsid_add_no_slots :
  forall a w ics_out,
    configured_sessions (a_target_name a) (hba_name w) = Some ics_out ->
    ics_out <= 0 ->
    iscsid_add a w = (true, w).
Proof.
  intros a w n Hn Hle. unfold iscsid_add. rewrite Hn.
  unfold isid_range. replace (Z.to_nat n) with 0%nat by lia.
  cbn [seq map iscsid_add_loop]. destruct w; reflexivity.
Qed.

(** X9. After a call of [iscsid_add] that returned [B_TRUE] for a target
    with at least one configured session, [iscsid_login_tgt] by that name
    finds a session to log in, whatever method and address it is given. *)
Theorem iscsid_add_then_login :
  forall a w ics_out m addr_dsc,
    configured_sessions (a_target_name a) (hba_name w) = Some ics_out ->
    0 < ics_out ->
    fst (iscsid_add a w) = true ->
    fst (iscsid_login_tgt (Some (a_target_name a)) m addr_dsc
           (snd (iscsid_add a w))) = true.
Proof.
  intros a w n m addr_dsc Hn Hpos Hok.
  assert (Hslot : slot_present a 0 (hba_sess_list (snd (iscsid_add a w)))).
  { unfold iscsid_add in *. rewrite Hn in *.
    destruct (iscsid_add_loop a (isid_range n) (hba_sess_list w)) as [rtn l]
      eqn:Hloop.
    cbn [fst snd hba_sess_list set_hba_sess_list] in *. subst rtn.
    eapply iscsid_add_loop_ok; [exact Hloop|]. apply isid_range_In. lia. }
  destruct Hslot as (i & s & Hfind & Hnth & _).
  apply find_index_nth in Hfind. destruct Hfind as (x & Hx & Hmatch).
  rewrite Hnth in Hx. inversion Hx; subst x. clear Hx.
  rewrite iscsid_login_tgt_spec. cbn [fst]. apply existsb_exists.
  exists s. split; [eapply nth_error_In; exact Hnth|].
  cbn [login_try_online]. unfold sess_matches in Hmatch.
  repeat (apply andb_prop in Hmatch; destruct Hmatch as [Hmatch _]).
  rewrite String.eqb_sym. exact Hmatch.
Qed.

(** ** The loops over the thread table *)

(** The rows a loop over [iscsid_thr] visits: those before the terminating
    row. *)
Fixpoint thr_rows (tbl : list iscsid_thr_table) : list iscsid_thr_table :=
  match tbl with
  | [] => []
  | dt :: rest =>
      if method dt =? iSCSIDiscoveryMethodUnknown then []
      else dt :: thr_rows rest
  end.

(** The threads of some rows, in row order. *)
Definition row_threads (rows : list iscsid_thr_table) : list nat :=
  flat_map (fun dt => match thr_id dt with
                      | Some thr => [thr]
                      | None => []
                      end) rows.

(** The threads of the rows a method set selects. *)
Definition selected_threads (idm : Z) (tbl : list iscsid_thr_table)
    : list nat :=
  row_threads (filter (method_selected idm) (thr_rows tbl)).

(** What [iscsid_enable_discovery] does with a thread that starts. *)
Definition start_events (poke : bool) (thr : nat) : list event :=
  ev_thread_start thr :: (if poke then [ev_thread_send_wakeup thr] else []).

Lemma iscsid_enable_loop_spec idm poke tbl rval w :
  (exists r,
      (r = true \/ r = rval)
      /\ iscsid_enable_loop idm poke tbl rval w
         = (r, log (flat_map (start_events poke) (selected_threads idm tbl))
                   w))
  \/ (exists pre thr post,
        selected_threads idm tbl = pre ++ thr :: post
        /\ iscsid_enable_loop idm poke tbl rval w
           = (false,
              log (flat_map (start_events poke) pre ++ [ev_thread_start thr])
                  w)).
Proof.
  assert (Hlog0 : forall w0, log [] w0 = w0)
    by (intros w0; unfold log; rewrite app_nil_r; destruct w0; reflexivity).
  revert rval w. unfold selected_threads.
  induction tbl as [|dt rest IH]; intros rval w;
    cbn [iscsid_enable_loop thr_rows].
  - left. exists rval. split; [right; reflexivity|].
    cbn. rewrite Hlog0. reflexivity.
  - destruct (method dt =? iSCSIDiscoveryMethodUnknown).
    + left. exists rval. split; [right; reflexivity|].
      cbn. rewrite Hlog0. reflexivity.
    + cbn [filter]. destruct (method_selected idm dt); [|apply IH].
      unfold row_threads. cbn [flat_map]. fold (row_threads
        (filter (method_selected idm) (thr_rows rest))).
      destruct (thr_id dt) as [thr|]; [|apply IH].
      unfold bind, thread_start.
      destruct (iscsi_thread_start w thr); cbn [negb].
      * assert (Hstep :
          (let (_, w2) :=
             (if poke then emit (ev_thread_send_wakeup thr) else ret tt)
               (set_trace w (trace w ++ [ev_thread_start thr])) in
           iscsid_enable_loop idm poke rest true w2)
          = iscsid_enable_loop idm poke rest true
              (log (start_events poke thr) w)).
        { unfold start_events, log, emit, ret. destruct poke;
            cbn [trace set_trace app]; rewrite <- ?app_assoc; reflexivity. }
        rewrite Hstep.
        destruct (IH true (log (start_events poke thr) w))
          as [(r & Hr & Heq)|(pre & t & post & Hsel & Heq)].
        -- left. exists r. split.
           ++ destruct Hr as [Hr|Hr]; left; exact Hr.
           ++ rewrite Heq, log_log. reflexivity.
        -- right. exists (thr :: pre), t, post. split.
           ++ cbn [app]. rewrite Hsel. reflexivity.
           ++ rewrite Heq, log_log. cbn [flat_map].
              rewrite <- app_assoc. reflexivity.
      * right. exists [], thr, (row_threads
          (filter (method_selected idm) (thr_rows rest))).
        split; reflexivity.
Qed.

(** The threads of [thrs] start when they are started one after the
    other from [w], each in the state the starts before it left. *)
Definition threads_start (poke : bool) (w : world) (thrs : list nat)
    : Prop :=
  forall pre thr post,
    thrs = pre ++ thr :: post ->
    iscsi_thread_start (log (flat_map (start_events poke) pre) w) thr = true.

Lemma threads_start_cons poke w thr thrs :
  iscsi_thread_start w thr = true ->
  threads_start poke (log (start_events poke thr) w) thrs ->
  threads_start poke w (thr :: thrs).
Proof.
  intros Hthr Hrest pre t post Heq.
  destruct pre as [|t0 pre]; cbn [app] in Heq; inversion Heq; subst.
  - cbn [flat_map]. unfold log. rewrite app_nil_r.
    destruct w; exact Hthr.
  - cbn [flat_map]. rewrite <- log_log. apply (Hrest pre t post).
    reflexivity.
Qed.

Lemma iscsid_enable_loop_starts idm poke tbl rval w :
  (exists r,
      (r = true \/ r = rval)
      /\ threads_start poke w (selected_threads idm tbl)
      /\ iscsid_enable_loop idm poke tbl rval w
         = (r, log (flat_map (start_events poke) (selected_threads idm tbl))
                   w))
  \/ (exists pre thr post,
        selected_threads idm tbl = pre ++ thr :: post
        /\ threads_start poke w pre
        /\ iscsi_thread_start (log (flat_map (start_events poke) pre) w) thr
           = false
        /\ iscsid_enable_loop idm poke tbl rval w
           = (false,
              log (flat_map (start_events poke) pre ++ [ev_thread_start thr])
                  w)).
Proof.
  assert (Hlog0 : forall w0, log [] w0 = w0)
    by (intros w0; unfold log; rewrite app_nil_r; destruct w0; reflexivity).
  assert (Hnone : forall w0, threads_start poke w0 []).
  { intros w0 pre t post Heq. destruct pre; discriminate Heq. }
  revert rval w. unfold selected_threads.
  induction tbl as [|dt rest IH]; intros rval w;
    cbn [iscsid_enable_loop thr_rows].
  - left. exists rval. split; [right; reflexivity|]. split; [apply Hnone|].
    cbn. rewrite Hlog0. reflexivity.
  - destruct (method dt =? iSCSIDiscoveryMethodUnknown).
    + left. exists rval. split; [right; reflexivity|].
      split; [apply Hnone|]. cbn. rewrite Hlog0. reflexivity.
    + cbn [filter]. destruct (method_selected idm dt); [|apply IH].
      unfold row_threads. cbn [flat_map]. fold (row_threads
        (filter (method_selected idm) (thr_rows rest))).
      destruct (thr_id dt) as [thr|]; [|apply IH].
      unfold bind, thread_start.
      destruct (iscsi_thread_start w thr) eqn:Hthr; cbn [negb].
      * assert (Hstep :
          (let (_, w2) :=
             (if poke then emit (ev_thread_send_wakeup thr) else ret tt)
               (set_trace w (trace w ++ [ev_thread_start thr])) in
           iscsid_enable_loop idm poke rest true w2)
          = iscsid_enable_loop idm poke rest true
              (log (start_events poke thr) w)).
        { unfold start_events, log, emit, ret. destruct poke;
            cbn [trace set_trace app]; rewrite <- ?app_assoc; reflexivity. }
        rewrite Hstep.
        destruct (IH true (log (start_events poke thr) w))
          as [(r & Hr & Hst & Heq)|(pre & t & post & Hsel & Hst & Hf & Heq)].
        -- left. exists r. split; [|split].
           ++ destruct Hr as [Hr|Hr]; left; exact Hr.
           ++ apply threads_start_cons; assumption.
           ++ rewrite Heq, log_log. reflexivity.
        -- right. exists (thr :: pre), t, post. split; [|split; [|split]].
           ++ cbn [app]. rewrite Hsel. reflexivity.
           ++ apply threads_start_cons; assumption.
           ++ cbn [flat_map]. rewrite <- log_log. exact Hf.
           ++ rewrite Heq, log_log. cbn [flat_map].
              rewrite <- app_assoc. reflexivity.
      * right. exists [], thr, (row_threads
          (filter (method_selected idm) (thr_rows rest))).
        split; [reflexivity|]. split; [apply Hnone|].
        split; [cbn [flat_map]; rewrite Hlog0; exact Hthr | reflexivity].
Qed.

(** X10. [iscsid_enable_discovery] starts the threads of the selected
    rows in table order, waking each when [poke] is set, and does nothing
    else to the state.  It returns [B_TRUE] when [iscsi_thread_start]
    succeeded for every one of them, and [B_FALSE] when it failed for one:
    the threads before that one started, its failed start is the last
    thing done, and the threads of the rows after it are neither started
    nor woken. *)
Theorem iscsid_enable_discovery_starts :
  forall idm poke w,
    let r := iscsid_enable_discovery idm poke w in
    let selected := selected_threads idm (iscsid_thr w) in
    (fst r = true ->
       threads_start poke w selected
       /\ snd r = log (flat_map (start_events poke) selected) w)
    /\ (fst r = false ->
          exists pre thr post,
            selected = pre ++ thr :: post
            /\ threads_start poke w pre
            /\ iscsi_thread_start
                 (log (flat_map (start_events poke) pre) w) thr = false
            /\ snd r = log (flat_map (start_events poke) pre
                            ++ [ev_thread_start thr]) w).
Proof.
  intros idm poke w. cbv zeta. unfold iscsid_enable_discovery.
  destruct (iscsid_enable_loop_starts idm poke (iscsid_thr w) true w)
    as [(r & Hr & Hst & Heq)|(pre & thr & post & Hsel & Hst & Hf & Heq)];
    rewrite Heq; cbn [fst snd].
  - assert (r = true) by (destruct Hr; assumption). subst r.
    split; [intros _; split; [exact Hst | reflexivity] | discriminate].
  - split; [discriminate|]. intros _. exists pre, thr, post.
    split; [exact Hsel|]. split; [exact Hst|].
    split; [exact Hf | reflexivity].
Qed.

Lemma threads_create_loop_spec tbl :
  map method (fst (threads_create_loop tbl)) = map method tbl
  /\ map name (fst (threads_create_loop tbl)) = map name tbl
  /\ snd (threads_create_loop tbl)
     = map (fun dt => ev_thread_create (method dt))
           (filter (fun dt => match thr_id dt with
                              | None => true
                              | Some _ => false
                              end) (thr_rows tbl))
  /\ (forall i dt thr,
        nth_error tbl i = Some dt -> thr_id dt = Some thr ->
        nth_error (fst (threads_create_loop tbl)) i = Some dt)
  /\ ((forall m, iscsi_thread_create m <> None) ->
      threads_create_loop (fst (threads_create_loop tbl))
        = (fst (threads_create_loop tbl), [])).
Proof.
  induction tbl as [|t rest IH]; cbn [threads_create_loop thr_rows].
  - cbn. repeat split; auto; intros i dt thr H; destruct i; discriminate.
  - destruct (method t =? iSCSIDiscoveryMethodUnknown) eqn:Hm.
    + cbn [fst snd map filter]. repeat split; auto.
      intros _. cbn [threads_create_loop]. rewrite Hm. reflexivity.
    + destruct IH as (IHm & IHn & IHe & IHk & IHi).
      destruct (threads_create_loop rest) as [rest' evs].
      cbn [fst snd] in *.
      destruct (thr_id t) as [thr|] eqn:Ht; cbn [fst snd map filter];
        rewrite ?Ht; cbn [map].
      * rewrite IHm, IHn, IHe. repeat split; auto.
        -- intros i dt thr0 Hi Hd. destruct i as [|i]; cbn in *; eauto.
        -- intros Hc. cbn [threads_create_loop]. rewrite Hm, Ht.
           rewrite (IHi Hc). reflexivity.
      * rewrite IHm, IHn, IHe. repeat split; auto.
        -- intros i dt thr0 Hi Hd. destruct i as [|i]; cbn in *; eauto.
           inversion Hi; subst dt. rewrite Ht in Hd. discriminate.
        -- intros Hc. cbn [threads_create_loop method thr_id]. rewrite Hm.
           destruct (iscsi_thread_create (method t)) as [thr|] eqn:Hcr;
             [|exfalso; eapply Hc; exact Hcr].
           rewrite (IHi Hc). reflexivity.
Qed.

(** X11. [iscsid_threads_create] creates a thread for each row before the
    terminating row that has none, in table order, and leaves every row
    that has one as it is; methods and names are never changed, nor is the
    session list.  When thread creation does not fail, a second call
    creates nothing. *)
Theorem iscsid_threads_create_fills :
  forall w,
    let w' := snd (iscsid_threads_create w) in
    map method (iscsid_thr w') = map method (iscsid_thr w)
    /\ map name (iscsid_thr w') = map name (iscsid_thr w)
    /\ trace w'
       = trace w ++
         map (fun dt => ev_thread_create (method dt))
             (filter (fun dt => match thr_id dt with
                                | None => true
                                | Some _ => false
                                end) (thr_rows (iscsid_thr w)))
    /\ (forall i dt thr,
          nth_error (iscsid_thr w) i = Some dt -> thr_id dt = Some thr ->
          nth_error (iscsid_thr w') i = Some dt)
    /\ hba_sess_list w' = hba_sess_list w
    /\ ((forall m, iscsi_thread_create m <> None) ->
        snd (iscsid_threads_create w') = w').
Proof.
  intros w. cbv zeta. unfold iscsid_threads_create.
  destruct (threads_create_loop_spec (iscsid_thr w))
    as (Hm & Hn & He & Hk & Hi).
  destruct (threads_create_loop (iscsid_thr w)) as [tbl evs].
  cbn [fst snd iscsid_thr set_trace set_iscsid_thr trace hba_sess_list] in *.
  subst evs. repeat split; auto.
  intros Hc. rewrite (Hi Hc). cbn [set_trace set_iscsid_thr trace iscsid_thr].
  rewrite app_nil_r. reflexivity.
Qed.

(** The calls [iscsid_fini] makes outside the modelled state. *)
Inductive fini_call :=
| call_thread_destroy (thr : nat)
| call_persistent_fini
| call_sema_destroy.

(** The loop of [iscsid_threads_destroy] over the rows from [t] on: the
    table with the threads taken out, and the threads handed to
    [iscsi_thread_destroy]. *)
Fixpoint threads_destroy_loop (tbl : list iscsid_thr_table)
    : list iscsid_thr_table * list nat :=
  match tbl with
  | [] => ([], [])
  | t :: rest =>
      if method t =? iSCSIDiscoveryMethodUnknown then (tbl, [])
      else
        let (rest', thrs) := threads_destroy_loop rest in
        match thr_id t with
        | Some thr =>
            ({| thr_id := None; method := method t; name := name t |}
               :: rest',
             thr :: thrs)
        | None => (t :: rest', thrs)
        end
  end.

(** [iscsid_threads_destroy]; the value is the list of the threads
    destroyed. *)
Definition iscsid_threads_destroy : M (list nat) :=
  fun w =>
    let (tbl, thrs) := threads_destroy_loop (iscsid_thr w) in
    (thrs, set_iscsid_thr w tbl).

(** [iscsid_fini]; the value is the list of the calls made. *)
Definition iscsid_fini : M (list fini_call) :=
  thrs <- iscsid_threads_destroy ;;
  ret (map call_thread_destroy thrs
       ++ [call_persistent_fini; call_sema_destroy]).

Lemma threads_destroy_loop_spec tbl :
  snd (threads_destroy_loop tbl) = row_threads (thr_rows tbl)
  /\ map method (fst (threads_destroy_loop tbl)) = map method tbl
  /\ map name (fst (threads_destroy_loop tbl)) = map name tbl
  /\ row_threads (thr_rows (fst (threads_destroy_loop tbl))) = []
  /\ map method (filter (fun dt => match thr_id dt with
                                   | None => true
                                   | Some _ => false
                                   end)
                   (thr_rows (fst (threads_destroy_loop tbl))))
     = map method (thr_rows tbl).
Proof.
  unfold row_threads.
  induction tbl as [|t rest IH]; cbn [threads_destroy_loop thr_rows].
  - cbn. repeat split; reflexivity.
  - destruct (method t =? iSCSIDiscoveryMethodUnknown) eqn:Hm.
    + cbn [fst snd thr_rows]. rewrite Hm. cbn. repeat split; reflexivity.
    + destruct IH as (IHt & IHm & IHn & IHr & IHf).
      destruct (threads_destroy_loop rest) as [rest' thrs].
      cbn [fst snd] in *.
      destruct (thr_id t) as [thr|] eqn:Ht;
        cbn [fst snd map thr_rows method thr_id flat_map app filter];
        rewrite Hm; cbn [flat_map filter thr_id map method];
        rewrite ?Ht; cbn [app map];
        rewrite IHt, IHm, IHn, IHr, IHf; repeat split; reflexivity.
Qed.

(** X12. [iscsid_fini] destroys the thread of every row before the
    terminating row, each once and in table order, then closes the
    persistent store and destroys the semaphore.  It leaves a table without
    threads: [iscsid_enable_discovery] then starts nothing and still
    returns [B_TRUE], and [iscsid_threads_create] creates a thread for
    every row again. *)
Theorem iscsid_fini_destroys_threads :
  forall w,
    let w' := snd (iscsid_fini w) in
    fst (iscsid_fini w)
      = map call_thread_destroy (row_threads (thr_rows (iscsid_thr w)))
        ++ [call_persistent_fini; call_sema_destroy]
    /\ map method (iscsid_thr w') = map method (iscsid_thr w)
    /\ hba_sess_list w' = hba_sess_list w
    /\ trace w' = trace w
    /\ (forall idm poke, iscsid_enable_discovery idm poke w' = (true, w'))
    /\ trace (snd (iscsid_threads_create w'))
       = trace w ++ map (fun dt => ev_thread_create (method dt))
                        (thr_rows (iscsid_thr w)).
Proof.
  intros w. cbv zeta.
  destruct (threads_destroy_loop_spec (iscsid_thr w))
    as (Ht & Hm & Hn & Hr & Hf).
  unfold iscsid_fini, iscsid_threads_destroy, bind, ret.
  destruct (threads_destroy_loop (iscsid_thr w)) as [tbl thrs].
  cbn [fst snd iscsid_thr set_iscsid_thr hba_sess_list trace] in *.
  subst thrs. repeat split; auto.
  - intros idm poke.
    assert (Hsel : selected_threads idm tbl = []).
    { unfold selected_threads. clear - Hr. unfold row_threads in *.
      induction (thr_rows tbl) as [|dt rows IH]; [reflexivity|].
      cbn [flat_map] in Hr. apply app_eq_nil in Hr. destruct Hr as [Hd Hrs].
      cbn [filter]. destruct (method_selected idm dt); [|exact (IH Hrs)].
      cbn [flat_map]. rewrite Hd. exact (IH Hrs). }
    match goal with
    | |- iscsid_enable_discovery idm poke ?x = _ =>
        destruct (iscsid_enable_loop_spec idm poke (iscsid_thr x) true x)
          as [(r & Hres & Heq)|(pre & thr & post & Hs & _)];
        cbn [iscsid_thr set_iscsid_thr] in *
    end.
    + unfold iscsid_enable_discovery. cbn [iscsid_thr set_iscsid_thr].
      rewrite Heq, Hsel. cbn [flat_map]. unfold log.
      cbn [trace set_iscsid_thr]. rewrite app_nil_r.
      assert (r = true) by (destruct Hres; assumption). subst r.
      reflexivity.
    + rewrite Hsel in Hs. destruct pre; discriminate.
  - destruct (threads_create_loop_spec tbl) as (_ & _ & He & _).
    unfold iscsid_threads_create. cbn [iscsid_thr set_iscsid_thr].
    destruct (threads_create_loop tbl) as [tbl' evs].
    cbn [fst snd trace set_trace set_iscsid_thr] in *. subst evs.
    f_equal. clear - Hf.
    revert Hf. generalize (thr_rows tbl) as rows.
    generalize (thr_rows (iscsid_thr w)) as rows0.
    intros rows0 rows Hf. rewrite <- (map_map method ev_thread_create).
    rewrite Hf. rewrite map_map. reflexivity.
Qed.

(** ** Discovery events of the loops over the thread table *)

(** The subclasses of the sysevents in a trace, in order. *)
Definition sysevents (evs : list event) : list (option esc_iscsi) :=
  flat_map (fun e => match e with
                     | ev_sysevent subclass => [subclass]
                     | _ => []
                     end) evs.

(** The threads woken in a trace, in order. *)
Definition wakeups (evs : list event) : list nat :=
  flat_map (fun e => match e with
                     | ev_thread_send_wakeup thr => [thr]
                     | _ => []
                     end) evs.

(** The start and the end event of a method. *)
Definition start_end (m : Z) : list (option esc_iscsi) :=
  [discovery_subclass m true; discovery_subclass m false].

Lemma sysevents_app evs evs' :
  sysevents (evs ++ evs') = sysevents evs ++ sysevents evs'.
Proof. unfold sysevents. apply flat_map_app. Qed.

Lemma wakeups_app evs evs' :
  wakeups (evs ++ evs') = wakeups evs ++ wakeups evs'.
Proof. unfold wakeups. apply flat_map_app. Qed.

Lemma iscsid_del_loop_sysevents target_name m addr_dsc pre rest rtn evs :
  sysevents (snd (iscsid_del_loop target_name m addr_dsc pre rest rtn evs))
    = sysevents evs
  /\ wakeups (snd (iscsid_del_loop target_name m addr_dsc pre rest rtn evs))
     = wakeups evs.
Proof.
  del_loop_induction target_name m addr_dsc pre rest rtn evs.
  - split; reflexivity.
  - destruct IH as [IHs IHw]. rewrite IHs, IHw, sysevents_app, wakeups_app.
    unfold iscsid_remove_target_param.
    destruct (_ && _); cbn; rewrite !app_nil_r; split; reflexivity.
  - destruct IH as [IHs IHw]. rewrite IHs, IHw, sysevents_app, wakeups_app.
    cbn. rewrite !app_nil_r. split; reflexivity.
  - exact IH.
Qed.

Lemma iscsid_del_effects target_name m addr_dsc w :
  exists evs,
    trace (snd (iscsid_del target_name m addr_dsc w)) = trace w ++ evs
    /\ sysevents evs = [] /\ wakeups evs = []
    /\ hba_discovery_events (snd (iscsid_del target_name m addr_dsc w))
       = hba_discovery_events w
    /\ iscsid_thr (snd (iscsid_del target_name m addr_dsc w)) = iscsid_thr w.
Proof.
  rewrite iscsid_del_unfold. cbn [snd trace set_trace hba_discovery_events
    set_hba_sess_list iscsid_thr].
  eexists. split; [reflexivity|].
  destruct (iscsid_del_loop_sysevents target_name m addr_dsc []
              (hba_sess_list w) true []) as [Hs Hw].
  repeat split; assumption.
Qed.

Lemma filter_filter_sub {A} (p q : A -> bool) l :
  (forall x, p x = true -> q x = true) ->
  filter p (filter q l) = filter p l.
Proof.
  intros Hpq. induction l as [|x l IH]; [reflexivity|]. cbn [filter].
  destruct (q x) eqn:Hq; cbn [filter].
  - rewrite IH. reflexivity.
  - destruct (p x) eqn:Hp; [|exact IH].
    rewrite (Hpq x Hp) in Hq. discriminate.
Qed.

Lemma iscsid_del_filter target_name m addr_dsc (p : iscsi_sess_t -> bool) w :
  (forall s, p s = true -> del_candidate target_name m addr_dsc s = false) ->
  filter p (hba_sess_list (snd (iscsid_del target_name m addr_dsc w)))
    = filter p (hba_sess_list w)
  /\ incl (hba_sess_list (snd (iscsid_del target_name m addr_dsc w)))
          (hba_sess_list w).
Proof.
  intros Hp. rewrite iscsid_del_unfold.
  cbn [snd hba_sess_list set_trace set_hba_sess_list].
  destruct (iscsid_del_loop_keeps target_name m addr_dsc []
              (hba_sess_list w) true []) as [Hf Hi].
  cbn [rev app] in Hf, Hi. split; [|exact Hi].
  rewrite <- (filter_filter_sub p
                (fun s => negb (del_candidate target_name m addr_dsc s))).
  - rewrite Hf. apply filter_filter_sub.
    intros s Hs. rewrite (Hp s Hs). reflexivity.
  - intros s Hs. rewrite (Hp s Hs). reflexivity.
Qed.

(** A property of the state that each step of the loop of
    [iscsid_disable_discovery] carries over is carried over by the
    loop. *)
Lemma iscsid_disable_loop_inv (R : world -> world -> Prop) idm :
  (forall w, R w w) ->
  (forall a b c, R a b -> R b c -> R a c) ->
  (forall m start w, R w (snd (iscsi_discovery_event m start w))) ->
  (forall dt w, method_selected idm dt = true ->
                R w (snd (iscsid_del None (method dt) None w))) ->
  (forall thr w, R w (snd (thread_stop thr w))) ->
  forall tbl rval w, R w (snd (iscsid_disable_loop idm tbl rval w)).
Proof.
  intros Hrefl Htrans Hev Hdel Hstop.
  induction tbl as [|dt rest IH]; intros rval w;
    cbn [iscsid_disable_loop]; [apply Hrefl|].
  destruct (method dt =? iSCSIDiscoveryMethodUnknown); [apply Hrefl|].
  destruct (method_selected idm dt) eqn:Hsel; [|apply IH].
  unfold bind, ret.
  pose proof (Hev (method dt) true w) as H1.
  destruct (iscsi_discovery_event (method dt) true w) as [[] w1].
  cbn [snd] in H1.
  pose proof (Hdel dt w1 Hsel) as H2.
  destruct (iscsid_del None (method dt) None w1) as [rval1 w2].
  cbn [snd] in H2.
  assert (H12 : R w w2) by (eapply Htrans; eassumption).
  assert (Hend : forall r w0, R w w0 ->
            R w (snd (let (_, w3) := iscsi_discovery_event (method dt) false w0
                      in iscsid_disable_loop idm rest r w3))).
  { intros r w0 H0. pose proof (Hev (method dt) false w0) as H3.
    destruct (iscsi_discovery_event (method dt) false w0) as [[] w3].
    cbn [snd] in H3. eapply Htrans; [|apply IH]. eapply Htrans; eassumption. }
  destruct rval1; [|apply Hend; exact H12].
  destruct (thr_id dt) as [thr|]; [|apply Hend; exact H12].
  pose proof (Hstop thr w2) as H3.
  destruct (thread_stop thr w2) as [rval2 w3]. cbn [snd] in H3.
  assert (H13 : R w w3) by (eapply Htrans; eassumption).
  destruct rval2; cbn [negb]; [apply Hend; exact H13|].
  pose proof (Hev (method dt) false w3) as H4.
  destruct (iscsi_discovery_event (method dt) false w3) as [[] w4].
  cbn [snd] in *. eapply Htrans; eassumption.
Qed.

(** X13. [iscsid_disable_discovery] logs out only sessions of the methods
    it was given: the sessions discovered by a method outside [idm] are
    all still in the list afterwards, in their order; no session is added;
    and the thread table is not changed. *)
Theorem iscsid_disable_discovery_keeps_unselected :
  forall idm w,
    let w' := snd (iscsid_disable_discovery idm w) in
    filter (fun s => Z.land idm (sess_discovered_by s) =? 0)
           (hba_sess_list w')
      = filter (fun s => Z.land idm (sess_discovered_by s) =? 0)
               (hba_sess_list w)
    /\ incl (hba_sess_list w') (hba_sess_list w)
    /\ iscsid_thr w' = iscsid_thr w.
Proof.
  intros idm w. cbv zeta. unfold iscsid_disable_discovery.
  set (p := fun s => Z.land idm (sess_discovered_by s) =? 0).
  apply (iscsid_disable_loop_inv
           (fun a b => filter p (hba_sess_list b) = filter p (hba_sess_list a)
                       /\ incl (hba_sess_list b) (hba_sess_list a)
                       /\ iscsid_thr b = iscsid_thr a) idm).
  - intros a. repeat split. apply incl_refl.
  - intros a b c (Hf1 & Hi1 & Ht1) (Hf2 & Hi2 & Ht2). repeat split.
    + rewrite Hf2. exact Hf1.
    + eapply incl_tran; eassumption.
    + rewrite Ht2. exact Ht1.
  - intros m start a. rewrite iscsi_discovery_event_eq. cbn [snd].
    destruct (negb start && is_discovery_method m);
      cbn [hba_sess_list set_trace set_hba_discovery_events iscsid_thr];
      repeat split; apply incl_refl.
  - intros dt a Hsel.
    destruct (iscsid_del_filter None (method dt) None p a) as [Hf Hi].
    + intros s Hs. unfold del_candidate, del_name_method_match.
      cbn [andb]. destruct (Z.eqb_spec (sess_discovered_by s) (method dt))
        as [Heq|]; [|reflexivity].
      exfalso. unfold p in Hs. rewrite Heq in Hs.
      unfold method_selected in Hsel. rewrite Hs in Hsel. discriminate.
    + destruct (iscsid_del_effects None (method dt) None a)
        as (evs & _ & _ & _ & _ & Ht).
      repeat split; assumption.
  - intros thr a. cbn. repeat split. apply incl_refl.
Qed.

Lemma iscsid_disable_loop_sysevents idm tbl rval w :
  exists evs done rest,
    trace (snd (iscsid_disable_loop idm tbl rval w)) = trace w ++ evs
    /\ sysevents evs = flat_map start_end (map method done)
    /\ wakeups evs = []
    /\ filter (method_selected idm) (thr_rows tbl) = done ++ rest
    /\ (fst (iscsid_disable_loop idm tbl rval w) = true -> rest = [])
    /\ ((forall w0 thr, iscsi_thread_stop w0 thr = true) -> rest = []).
Proof.
  revert rval w. induction tbl as [|dt tbl IH]; intros rval w;
    cbn [iscsid_disable_loop thr_rows].
  - exists [], [], []. cbn. rewrite app_nil_r. repeat split; reflexivity.
  - destruct (method dt =? iSCSIDiscoveryMethodUnknown).
    + exists [], [], []. cbn. rewrite app_nil_r. repeat split; reflexivity.
    + cbn [filter]. destruct (method_selected idm dt); [|apply IH].
      unfold bind, ret. rewrite iscsi_discovery_event_eq. cbn [negb andb].
      set (w1 := set_trace w _).
      destruct (iscsid_del_effects None (method dt) None w1)
        as (dev & Hdt & Hds & Hdw & _).
      destruct (iscsid_del None (method dt) None w1) as [rval1 w2].
      cbn [snd] in Hdt. subst w1. cbn [trace set_trace] in Hdt.
      assert (Hend : forall r w0 mid,
                trace w0 = trace w ++ mid ->
                sysevents mid = [discovery_subclass (method dt) true] ->
                wakeups mid = [] ->
                exists evs done rest,
                  trace (snd (let (_, w3) :=
                                iscsi_discovery_event (method dt) false w0 in
                              iscsid_disable_loop idm tbl r w3))
                    = trace w ++ evs
                  /\ sysevents evs = flat_map start_end (map method done)
                  /\ wakeups evs = []
                  /\ dt :: filter (method_selected idm) (thr_rows tbl)
                     = done ++ rest
                  /\ (fst (let (_, w3) :=
                             iscsi_discovery_event (method dt) false w0 in
                           iscsid_disable_loop idm tbl r w3) = true ->
                      rest = [])
                  /\ ((forall w0 thr, iscsi_thread_stop w0 thr = true) ->
                      rest = [])).
      { intros r w0 mid Ht Hs Hw. rewrite iscsi_discovery_event_eq.
        set (w3 := set_trace _ _).
        destruct (IH r w3) as (evs & done & rest & Ht' & Hs' & Hw' & Hsel
                               & Hok & Hall).
        exists (mid ++ ev_sysevent (discovery_subclass (method dt) false)
                    :: evs), (dt :: done), rest.
        split; [|split; [|split; [|split; [|split]]]].
        - rewrite Ht'. subst w3. cbn [trace set_trace]. rewrite Ht.
          rewrite <- !app_assoc. reflexivity.
        - rewrite sysevents_app, Hs. cbn [sysevents flat_map app map].
          fold (sysevents evs). rewrite Hs'. reflexivity.
        - rewrite wakeups_app, Hw. cbn [wakeups flat_map app].
          fold (wakeups evs). exact Hw'.
        - cbn [app]. rewrite Hsel. reflexivity.
        - exact Hok.
        - exact Hall. }
      assert (Hmid : sysevents
                       ([ev_sysevent (discovery_subclass (method dt) true)]
                        ++ dev)
                     = [discovery_subclass (method dt) true]
                     /\ wakeups
                          ([ev_sysevent (discovery_subclass (method dt) true)]
                           ++ dev) = []).
      { rewrite sysevents_app, wakeups_app, Hds, Hdw. split; reflexivity. }
      destruct Hmid as [Hms Hmw].
      assert (Ht2 : trace w2
                    = trace w ++
                      ([ev_sysevent (discovery_subclass (method dt) true)]
                       ++ dev))
        by (rewrite Hdt, <- app_assoc; reflexivity).
      destruct rval1; [|exact (Hend false w2 _ Ht2 Hms Hmw)].
      destruct (thr_id dt) as [thr|]; [|exact (Hend true w2 _ Ht2 Hms Hmw)].
      unfold thread_stop.
      destruct (iscsi_thread_stop w2 thr) eqn:Hstop; cbn [negb].
      * apply (Hend true _
                 (([ev_sysevent (discovery_subclass (method dt) true)]
                   ++ dev) ++ [ev_thread_stop thr])).
        -- cbn [trace set_trace]. rewrite Ht2, <- !app_assoc. reflexivity.
        -- rewrite sysevents_app, Hms. reflexivity.
        -- rewrite wakeups_app, Hmw. reflexivity.
      * rewrite iscsi_discovery_event_eq. cbn [fst snd negb andb].
        exists ((([ev_sysevent (discovery_subclass (method dt) true)]
                  ++ dev) ++ [ev_thread_stop thr])
                ++ [ev_sysevent (discovery_subclass (method dt) false)]),
          [dt], (filter (method_selected idm) (thr_rows tbl)).
        split; [|split; [|split; [|split; [|split]]]].
        -- cbn [trace set_trace]. rewrite Ht2, <- !app_assoc. reflexivity.
        -- rewrite (sysevents_app (_ ++ _)), (sysevents_app (_ ++ _)), Hms.
           reflexivity.
        -- rewrite (wakeups_app (_ ++ _)), (wakeups_app (_ ++ _)), Hmw.
           reflexivity.
        -- reflexivity.
        -- discriminate.
        -- intros Hall. rewrite Hall in Hstop. discriminate.
Qed.

(** X14. The discovery events of [iscsid_disable_discovery] come in
    pairs: for each selected row it gets to, in table order, the start
    event and then the end event of the row's method, with no other
    discovery event and no wakeup in between.  It gets to every selected
    row when it returns [B_TRUE], and whenever no thread fails to stop. *)
Theorem iscsid_disable_discovery_event_pairs :
  forall idm w,
    exists evs done rest,
      trace (snd (iscsid_disable_discovery idm w)) = trace w ++ evs
      /\ sysevents evs = flat_map start_end (map method done)
      /\ wakeups evs = []
      /\ filter (method_selected idm) (thr_rows (iscsid_thr w))
         = done ++ rest
      /\ (fst (iscsid_disable_discovery idm w) = true -> rest = [])
      /\ ((forall w0 thr, iscsi_thread_stop w0 thr = true) -> rest = []).
Proof.
  intros idm w. unfold iscsid_disable_discovery.
  apply iscsid_disable_loop_sysevents.
Qed.

(** ** [iscsid_poke_discovery]: whom it wakes *)

(** The rows whose thread [iscsid_poke_discovery] wakes: the method is
    the one asked for (or any, for Unknown), it is enabled in the store,
    and the row has a thread. *)
Definition poke_wakes (m dm : Z) (dt : iscsid_thr_table) : bool :=
  ((m =? iSCSIDiscoveryMethodUnknown) || (m =? method dt))
  && method_selected dm dt
  && match thr_id dt with
     | Some _ => true
     | None => false
     end.

(** The flags after the end events of some rows. *)
Definition record_ends (rows : list iscsid_thr_table) (events : Z) : Z :=
  fold_left (fun e dt => if is_discovery_method (method dt)
                         then Z.lor e (method dt) else e) rows events.

(** The state after the body of the loop of [iscsid_poke_discovery] for a
    row. *)
Definition poke_row (m dm : Z) (dt : iscsid_thr_table) (w : world) : world :=
  if poke_wakes m dm dt then
    match thr_id dt with
    | Some thr => log [ev_thread_send_wakeup thr] w
    | None => w
    end
  else
    set_trace
      (if is_discovery_method (method dt)
       then set_hba_discovery_events w
              (Z.lor (hba_discovery_events w) (method dt))
       else w)
      (trace w ++ [ev_sysevent (discovery_subclass (method dt) true);
                   ev_sysevent (discovery_subclass (method dt) false)]).

Lemma iscsid_poke_loop_cons m dm dt tbl w :
  (method dt =? iSCSIDiscoveryMethodUnknown) = false ->
  iscsid_poke_loop m dm (dt :: tbl) w
    = iscsid_poke_loop m dm tbl (poke_row m dm dt w).
Proof.
  intros Hm. cbn [iscsid_poke_loop]. rewrite Hm.
  assert (Hpair : forall w0,
            (iscsi_discovery_event (method dt) true ;;
             iscsi_discovery_event (method dt) false) w0
            = (tt,
               set_trace
                 (if is_discovery_method (method dt)
                  then set_hba_discovery_events w0
                         (Z.lor (hba_discovery_events w0) (method dt))
                  else w0)
                 (trace w0 ++
                  [ev_sysevent (discovery_subclass (method dt) true);
                   ev_sysevent (discovery_subclass (method dt) false)]))).
  { intros w0. unfold bind. rewrite iscsi_discovery_event_eq.
    rewrite iscsi_discovery_event_eq. cbn [negb andb].
    destruct (is_discovery_method (method dt));
      cbn [trace set_trace set_hba_discovery_events hba_discovery_events];
      rewrite <- app_assoc; reflexivity. }
  unfold bind at 1. unfold poke_row, poke_wakes, method_selected.
  destruct ((m =? iSCSIDiscoveryMethodUnknown) || (m =? method dt));
    cbn [andb]; [|rewrite Hpair; reflexivity].
  destruct (negb (Z.land dm (method dt) =? 0)); cbn [andb];
    [|rewrite Hpair; reflexivity].
  destruct (thr_id dt) as [thr|]; [reflexivity|].
  rewrite Hpair. reflexivity.
Qed.

Lemma iscsid_poke_loop_spec m dm tbl w :
  exists evs,
    trace (snd (iscsid_poke_loop m dm tbl w)) = trace w ++ evs
    /\ wakeups evs = row_threads (filter (poke_wakes m dm) (thr_rows tbl))
    /\ sysevents evs
       = flat_map start_end
           (map method (filter (fun dt => negb (poke_wakes m dm dt))
                               (thr_rows tbl)))
    /\ hba_discovery_events (snd (iscsid_poke_loop m dm tbl w))
       = record_ends (filter (fun dt => negb (poke_wakes m dm dt))
                             (thr_rows tbl))
                     (hba_discovery_events w)
    /\ hba_sess_list (snd (iscsid_poke_loop m dm tbl w)) = hba_sess_list w
    /\ hba_discovery_in_progress (snd (iscsid_poke_loop m dm tbl w))
       = hba_discovery_in_progress w.
Proof.
  revert w. induction tbl as [|dt tbl IH]; intros w.
  - exists []. cbn. rewrite app_nil_r. repeat split; reflexivity.
  - destruct (method dt =? iSCSIDiscoveryMethodUnknown) eqn:Hm.
    + exists []. cbn [iscsid_poke_loop thr_rows]. rewrite Hm. cbn.
      rewrite app_nil_r. repeat split; reflexivity.
    + rewrite iscsid_poke_loop_cons by exact Hm. cbn [thr_rows].
      rewrite Hm. cbn [filter].
      destruct (IH (poke_row m dm dt w))
        as (evs & Ht & Hwk & Hs & He & Hl & Hp).
      unfold poke_row in *. destruct (poke_wakes m dm dt) eqn:Hw;
        cbn [negb].
      * unfold poke_wakes in Hw. destruct (thr_id dt) as [thr|] eqn:Hthr;
          [|rewrite andb_false_r in Hw; discriminate].
        exists (ev_thread_send_wakeup thr :: evs).
        unfold log in *. cbn [trace set_trace hba_discovery_events
          hba_sess_list hba_discovery_in_progress] in *.
        split; [|split; [|split; [|split; [|split]]]]; try assumption.
        -- rewrite Ht, <- app_assoc. reflexivity.
        -- cbn [wakeups flat_map app]. fold (wakeups evs). rewrite Hwk.
           unfold row_threads. cbn [flat_map]. rewrite Hthr. reflexivity.
      * exists ([ev_sysevent (discovery_subclass (method dt) true);
                 ev_sysevent (discovery_subclass (method dt) false)] ++ evs).
        cbn [trace set_trace] in Ht.
        split; [|split; [|split; [|split; [|split]]]].
        -- rewrite Ht, <- app_assoc. reflexivity.
        -- rewrite wakeups_app. cbn [wakeups flat_map app].
           fold (wakeups evs). exact Hwk.
        -- rewrite sysevents_app. cbn [sysevents flat_map app map].
           fold (sysevents evs). rewrite Hs. reflexivity.
        -- rewrite He. cbn [record_ends fold_left].
           destruct (is_discovery_method (method dt)); reflexivity.
        -- rewrite Hl. destruct (is_discovery_method (method dt)); reflexivity.
        -- rewrite Hp. destruct (is_discovery_method (method dt)); reflexivity.
Qed.

(** X15. After resetting the flags, [iscsid_poke_discovery] wakes the
    threads of the rows that match its method, are enabled in the store
    and have a thread, in table order, and sends the start and the end
    event itself for every other row; the end events it sends itself are
    what the flags hold when it starts to wait.  It does not touch the
    session list. *)
Theorem iscsid_poke_loop_wakes :
  forall m dm w,
    let w0 := set_hba_discovery_events (set_hba_discovery_in_progress w true)
                iSCSIDiscoveryMethodUnknown in
    let w' := snd (iscsid_poke_loop m dm (iscsid_thr w0) w0) in
    exists evs,
      trace w' = trace w ++ evs
      /\ wakeups evs
         = row_threads (filter (poke_wakes m dm) (thr_rows (iscsid_thr w)))
      /\ sysevents evs
         = flat_map start_end
             (map method (filter (fun dt => negb (poke_wakes m dm dt))
                                 (thr_rows (iscsid_thr w))))
      /\ hba_discovery_events w'
         = record_ends (filter (fun dt => negb (poke_wakes m dm dt))
                               (thr_rows (iscsid_thr w)))
                       iSCSIDiscoveryMethodUnknown
      /\ hba_sess_list w' = hba_sess_list w
      /\ hba_discovery_in_progress w' = true.
Proof.
  intros m dm w. cbv zeta.
  cbn [iscsid_thr set_hba_discovery_events set_hba_discovery_in_progress].
  match goal with
  | |- context [iscsid_poke_loop m dm (iscsid_thr w) ?x] =>
      destruct (iscsid_poke_loop_spec m dm (iscsid_thr w) x)
        as (evs & Ht & Hwk & Hs & He & Hl & Hp)
  end.
  exists evs. repeat split; assumption.
Qed.

Lemma thr_rows_methods tbl tbl' :
  map method tbl = map method tbl' ->
  map method (thr_rows tbl) = map method (thr_rows tbl').
Proof.
  revert tbl'. induction tbl as [|dt tbl IH]; intros [|dt' tbl'] H;
    try discriminate; [reflexivity|].
  cbn [map] in H. inversion H as [[Hm Ht]]. cbn [thr_rows]. rewrite Hm.
  destruct (method dt' =? iSCSIDiscoveryMethodUnknown); [reflexivity|].
  cbn [map]. rewrite Hm, (IH _ Ht). reflexivity.
Qed.

Lemma record_ends_methods rows events :
  record_ends rows events
    = fold_left (fun e k => if is_discovery_method k then Z.lor e k else e)
                (map method rows) events.
Proof.
  unfold record_ends. revert events.
  induction rows as [|dt rows IH]; intros events; [reflexivity|].
  cbn [map fold_left]. apply IH.
Qed.

(** X16. When the table holds the four methods and none of its rows is
    to be woken (the method is not enabled, or the row has no thread),
    [iscsid_poke_discovery] needs no discovery thread: it sends the eight
    events itself, finds the flags complete at its first test and returns
    with [hba_discovery_in_progress] cleared, whatever the other threads
    do. *)
Theorem iscsid_poke_discovery_nothing_to_wake :
  forall m w,
    map method (iscsid_thr w) = map method iscsid_thr_initial ->
    (forall dt, In dt (thr_rows (iscsid_thr w)) ->
                poke_wakes m persistent_disc_meth_get dt = false) ->
    forall sched,
    exists w' evs,
      iscsid_poke_discovery m [] sched w = Some w'
      /\ trace w' = trace w ++ evs
      /\ wakeups evs = []
      /\ sysevents evs
         = flat_map start_end
             [ iSCSIDiscoveryMethodStatic; iSCSIDiscoveryMethodSendTargets;
               iSCSIDiscoveryMethodSLP; iSCSIDiscoveryMethodISNS ]
      /\ hba_discovery_in_progress w' = false
      /\ hba_sess_list w' = hba_sess_list w.
Proof.
  intros m w Hmeth Hnone sched. unfold iscsid_poke_discovery.
  cbn [run_env fold_left].
  cbn [iscsid_thr set_hba_discovery_events set_hba_discovery_in_progress].
  match goal with
  | |- context [iscsid_poke_loop m ?dm (iscsid_thr w) ?x] =>
      destruct (iscsid_poke_loop_spec m dm (iscsid_thr w) x)
        as (evs & Ht & Hwk & Hs & He & Hl & Hp);
      set (w2 := snd (iscsid_poke_loop m dm (iscsid_thr w) x)) in *
  end.
  cbn [trace hba_discovery_events hba_sess_list hba_discovery_in_progress
       set_hba_discovery_events set_hba_discovery_in_progress] in *.
  assert (Hrows : map method (thr_rows (iscsid_thr w))
                  = [ iSCSIDiscoveryMethodStatic;
                      iSCSIDiscoveryMethodSendTargets;
                      iSCSIDiscoveryMethodSLP; iSCSIDiscoveryMethodISNS ])
    by (rewrite (thr_rows_methods _ _ Hmeth); reflexivity).
  assert (Hall : filter (fun dt => negb (poke_wakes m persistent_disc_meth_get
                                           dt))
                        (thr_rows (iscsid_thr w))
                 = thr_rows (iscsid_thr w)).
  { apply forallb_filter_id. apply forallb_forall. intros dt Hdt.
    rewrite (Hnone dt Hdt). reflexivity. }
  assert (Hno : filter (poke_wakes m persistent_disc_meth_get)
                       (thr_rows (iscsid_thr w)) = []).
  { clear - Hnone. induction (thr_rows (iscsid_thr w)) as [|dt rows IH];
      [reflexivity|].
    cbn [filter]. rewrite (Hnone dt (or_introl eq_refl)).
    apply IH. intros dt' Hdt'. apply Hnone. right. exact Hdt'. }
  rewrite Hall in Hs, He. rewrite Hno in Hwk. rewrite Hrows in Hs.
  rewrite record_ends_methods, Hrows in He.
  assert (Hdone : hba_discovery_events w2 = ISCSI_ALL_DISCOVERY_METHODS)
    by (rewrite He; reflexivity).
  exists (set_hba_discovery_in_progress w2 false), evs.
  split; [|split; [|split; [|split; [|split]]]]; try assumption;
    try reflexivity.
  destruct sched; cbn [iscsid_poke_wait]; rewrite Hdone; reflexivity.
Qed.

(** ** [iscsid_addr_to_sockaddr]: the bytes it leaves *)

(** X17. The layout [iscsid_addr_to_sockaddr] writes into a 32-byte
    [iscsi_sockaddr_t].  For an IPv4 source: family, port in network
    order, the four address bytes and eight zero bytes; nothing of the
    first sixteen bytes comes from what [dst_addr] held.  For any other
    size the source is taken as IPv6: family, port, a zeroed flow label
    and the sixteen address bytes; the last eight bytes, which hold the
    scope and source ids, are what [dst_addr] held before the call, since
    [bzero] clears [sizeof (struct sockaddr)] bytes only. *)
Theorem iscsid_addr_to_sockaddr_layout :
  forall src_insize src_addr src_port dst_addr,
    length dst_addr = 32%nat ->
    length (native_u16 AF_INET) = 2%nat ->
    length (native_u16 AF_INET6) = 2%nat ->
    (src_insize = 4 -> (4 <= length src_addr)%nat ->
       iscsid_addr_to_sockaddr src_insize src_addr src_port dst_addr
       = native_u16 AF_INET ++ htons_bytes src_port ++ firstn 4 src_addr
         ++ repeat 0 8 ++ skipn 16 dst_addr)
    /\ (src_insize <> 4 -> (16 <= length src_addr)%nat ->
          iscsid_addr_to_sockaddr src_insize src_addr src_port dst_addr
          = native_u16 AF_INET6 ++ htons_bytes src_port ++ repeat 0 4
            ++ firstn 16 src_addr ++ skipn 24 dst_addr).
Proof.
  intros src_insize src_addr src_port dst_addr Hdst H4 H6.
  do 32 (destruct dst_addr as [|? dst_addr]; [discriminate Hdst|]).
  destruct dst_addr; [|discriminate Hdst]. clear Hdst.
  unfold iscsid_addr_to_sockaddr. split.
  - intros -> Hsrc. cbn [Z.eqb Pos.eqb].
    destruct (native_u16 AF_INET) as [|f0 [|f1 [|]]]; try discriminate H4.
    do 4 (destruct src_addr as [|? src_addr]; [cbn in Hsrc; lia|]).
    reflexivity.
  - intros Hne Hsrc. destruct (Z.eqb_spec src_insize 4) as [|_];
      [contradiction|].
    destruct (native_u16 AF_INET6) as [|f0 [|f1 [|]]]; try discriminate H6.
    do 16 (destruct src_addr as [|? src_addr]; [cbn in Hsrc; lia|]).
    reflexivity.
Qed.

(** ** [iscsid_do_sendtgts]: the buffer and the session list *)

Lemma iscsid_add_ext a w :
  ext (hba_sess_list w) (hba_sess_list (snd (iscsid_add a w))).
Proof.
  unfold iscsid_add.
  destruct (configured_sessions (a_target_name a) (hba_name w)) as [n|];
    [|apply ext_refl].
  pose proof (iscsid_add_loop_ext a (isid_range n) (hba_sess_list w)) as He.
  destruct (iscsid_add_loop a (isid_range n) (hba_sess_list w)). exact He.
Qed.

(** What a part of the code that only adds sessions and writes notes and
    buffer events does to the state: the other fields are kept, the list
    is extended, and the trace gets [evs]. *)
Definition adds_only (w w' : world) (evs : list event) : Prop :=
  trace w' = trace w ++ evs
  /\ ext (hba_sess_list w) (hba_sess_list w')
  /\ hba_name w' = hba_name w
  /\ hba_discovery_events w' = hba_discovery_events w
  /\ hba_discovery_in_progress w' = hba_discovery_in_progress w
  /\ iscsid_thr w' = iscsid_thr w.

Lemma adds_only_refl w : adds_only w w [].
Proof.
  unfold adds_only. rewrite app_nil_r. repeat split. apply ext_refl.
Qed.

Lemma adds_only_trans w1 w2 w3 e1 e2 :
  adds_only w1 w2 e1 -> adds_only w2 w3 e2 -> adds_only w1 w3 (e1 ++ e2).
Proof.
  intros (Ht1 & He1 & Hn1 & Hd1 & Hp1 & Hr1) (Ht2 & He2 & Hn2 & Hd2 & Hp2 & Hr2).
  unfold adds_only. rewrite Ht2, Ht1, app_assoc.
  split; [reflexivity|]. split; [eapply ext_trans; eassumption|].
  rewrite Hn2, Hd2, Hp2, Hr2. repeat split; assumption.
Qed.

Lemma adds_only_log evs w : adds_only w (log evs w) evs.
Proof. unfold adds_only, log. cbn. repeat split. apply ext_refl. Qed.

(** The notes in a trace are of no account to what follows. *)
Definition is_note (e : event) : bool :=
  match e with
  | ev_note _ => true
  | _ => false
  end.

Lemma adds_only_add a w :
  exists evs, adds_only w (snd (iscsid_add a w)) evs
              /\ forallb is_note evs = true.
Proof.
  pose proof (iscsid_add_ext a w) as He. unfold iscsid_add in *.
  destruct (configured_sessions (a_target_name a) (hba_name w)) as [n|].
  - destruct (iscsid_add_loop a (isid_range n) (hba_sess_list w)) as [r l].
    exists []. split; [|reflexivity]. unfold adds_only. cbn in *.
    rewrite app_nil_r. repeat split. exact He.
  - exists [ev_note "unable to get configured session information"].
    split; [|reflexivity]. unfold adds_only. cbn.
    split; [reflexivity|]. repeat split. apply ext_refl.
Qed.

Lemma adds_only_run_adds args w :
  exists evs, adds_only w (run_adds args w) evs
              /\ forallb is_note evs = true.
Proof.
  unfold run_adds. revert w. induction args as [|a args IH]; intros w.
  - exists []. split; [apply adds_only_refl | reflexivity].
  - cbn [fold_left]. destruct (adds_only_add a w) as (e1 & H1 & N1).
    destruct (IH (snd (iscsid_add a w))) as (e2 & H2 & N2).
    exists (e1 ++ e2). split; [eapply adds_only_trans; eassumption|].
    rewrite forallb_app, N1, N2. reflexivity.
Qed.

(** Allocations and releases of the SendTargets buffer, and ioctls, in a
    trace. *)
Definition stl_allocs (evs : list event) : nat :=
  length (filter (fun e => match e with
                           | ev_kmem_zalloc obj_sendtgts_list _ => true
                           | _ => false
                           end) evs).

Definition stl_frees (evs : list event) : nat :=
  length (filter (fun e => match e with
                           | ev_kmem_free obj_sendtgts_list => true
                           | _ => false
                           end) evs).

Definition stl_ioctls (evs : list event) : nat :=
  length (filter (fun e => match e with
                           | ev_ioctl_sendtgts_get _ => true
                           | _ => false
                           end) evs).

(** What one call of [iscsid_do_sendtgts] may leave in the trace. *)
Definition sendtgts_balance (evs : list event) (allocs : nat) : Prop :=
  (stl_frees evs = allocs)%nat
  /\ (stl_allocs evs + 1 = allocs)%nat
  /\ (stl_ioctls evs <= allocs)%nat
  /\ sysevents evs = [] /\ wakeups evs = [].

Lemma notes_count evs :
  forallb is_note evs = true ->
  stl_allocs evs = 0%nat /\ stl_frees evs = 0%nat /\ stl_ioctls evs = 0%nat
  /\ sysevents evs = [] /\ wakeups evs = [].
Proof.
  induction evs as [|e evs IH]; [repeat split|].
  cbn [forallb]. intros H. apply andb_prop in H. destruct H as [He Hr].
  destruct e; try discriminate He. exact (IH Hr).
Qed.

Lemma counts_app evs evs' :
  stl_allocs (evs ++ evs') = (stl_allocs evs + stl_allocs evs')%nat
  /\ stl_frees (evs ++ evs') = (stl_frees evs + stl_frees evs')%nat
  /\ stl_ioctls (evs ++ evs') = (stl_ioctls evs + stl_ioctls evs')%nat.
Proof.
  unfold stl_allocs, stl_frees, stl_ioctls.
  rewrite !filter_app, !length_app. repeat split.
Qed.

Lemma adds_only_sendtgts_add_loop disc_addr stl ctr n w :
  exists evs,
    adds_only w (snd (sendtgts_add_loop disc_addr stl ctr n w)) evs
    /\ forallb is_note evs = true.
Proof. rewrite sendtgts_add_loop_calls. apply adds_only_run_adds. Qed.

Lemma sendtgts_pass_last disc_addr attempt n w :
  exists evs,
    adds_only w
      (snd (sendtgts_pass disc_addr attempt n
              (fun _ =>
                 emit (ev_note
                         "iscsi discovery failure - SendTargets overflow") ;;
                 emit (ev_kmem_free obj_sendtgts_list)) w)) evs
    /\ sendtgts_balance evs 1.
Proof.
  unfold sendtgts_pass.
  destruct (ddi_get_soft_state w); cbn [negb].
  - destruct (iscsi_ioctl_sendtgts_get attempt disc_addr n)
      as [[rc out] reported].
    unfold bind, emit. cbn [fst snd].
    destruct (rc =? 0); cbn [negb].
    + destruct (n <? out).
      * eexists. split.
        -- cbn [snd trace set_trace]. rewrite <- !app_assoc.
           apply (adds_only_log _ w).
        -- repeat split. cbn. lia.
      * match goal with
        | |- context [sendtgts_add_loop ?d ?stl ?c ?k ?x] =>
            destruct (adds_only_sendtgts_add_loop d stl c k x)
              as (e1 & H1 & N1);
            destruct (sendtgts_add_loop d stl c k x) as [[] wl];
            cbn [snd] in H1
        end.
        destruct (notes_count e1 N1) as (Na & Nf & Ni & Ns & Nw).
        eexists. split.
        -- cbn [snd]. eapply adds_only_trans;
             [apply (adds_only_log [ev_ioctl_sendtgts_get n] w)|].
           eapply adds_only_trans; [exact H1|].
           apply (adds_only_log [ev_kmem_free obj_sendtgts_list]).
        -- unfold sendtgts_balance.
           destruct (counts_app [ev_ioctl_sendtgts_get n]
                       (e1 ++ [ev_kmem_free obj_sendtgts_list]))
             as (-> & -> & ->).
           destruct (counts_app e1 [ev_kmem_free obj_sendtgts_list])
             as (-> & -> & ->).
           rewrite Na, Nf, Ni, !sysevents_app, !wakeups_app, Ns, Nw.
           cbn. repeat split. lia.
    + eexists. split.
      * cbn [snd trace set_trace]. rewrite <- !app_assoc.
        apply (adds_only_log _ w).
      * repeat split. cbn. lia.
  - unfold bind, emit. cbn [snd trace set_trace]. eexists. split.
    + rewrite <- !app_assoc. apply (adds_only_log _ w).
    + repeat split. cbn. lia.
Qed.

Lemma iscsid_do_sendtgts_balanced disc_addr w :
    exists evs,
      adds_only w (snd (iscsid_do_sendtgts disc_addr w)) evs
      /\ stl_allocs evs = stl_frees evs
      /\ (1 <= stl_allocs evs <= 2)%nat
      /\ (stl_ioctls evs <= stl_allocs evs)%nat
      /\ sysevents evs = [] /\ wakeups evs = [].
Proof.
  unfold iscsid_do_sendtgts.
  unfold bind at 1. unfold emit at 1.
  set (w1 := set_trace w _).
  assert (H01 : adds_only w w1
                  [ev_kmem_zalloc obj_sendtgts_list
                     SENDTGTS_DEFAULT_NUM_TARGETS])
    by apply (adds_only_log _ w).
  unfold sendtgts_pass at 1.
  destruct (ddi_get_soft_state w1); cbn [negb].
  - destruct (iscsi_ioctl_sendtgts_get 0 disc_addr
                SENDTGTS_DEFAULT_NUM_TARGETS) as [[rc out] reported].
    unfold bind at 1. unfold emit at 1. cbn [fst snd].
    set (w2 := set_trace w1 _).
    assert (H12 : adds_only w1 w2
                    [ev_ioctl_sendtgts_get SENDTGTS_DEFAULT_NUM_TARGETS])
      by apply (adds_only_log _ w1).
    pose proof (adds_only_trans _ _ _ _ _ H01 H12) as H02.
    destruct (rc =? 0); cbn [negb].
    + destruct (SENDTGTS_DEFAULT_NUM_TARGETS <? out).
      * unfold bind at 1. unfold emit at 1. unfold bind at 1.
        unfold emit at 1. cbn [fst snd trace set_trace].
        match goal with
        | |- context [sendtgts_pass disc_addr 1%nat out ?k ?x] =>
            destruct (sendtgts_pass_last disc_addr 1%nat out x)
              as (e3 & H3 & (Bf & Ba & Bi & Bs & Bw));
            assert (H2x : adds_only w2 x
                            [ev_kmem_free obj_sendtgts_list;
                             ev_kmem_zalloc obj_sendtgts_list out])
              by (unfold adds_only; cbn; rewrite <- app_assoc;
                  repeat split; apply ext_refl)
        end.
        eexists. split.
        -- eapply adds_only_trans; [exact H02|].
           eapply adds_only_trans; [exact H2x | exact H3].
        -- destruct (counts_app
                       ([ev_kmem_zalloc obj_sendtgts_list
                           SENDTGTS_DEFAULT_NUM_TARGETS]
                        ++ [ev_ioctl_sendtgts_get
                              SENDTGTS_DEFAULT_NUM_TARGETS])
                       ([ev_kmem_free obj_sendtgts_list;
                         ev_kmem_zalloc obj_sendtgts_list out] ++ e3))
             as (-> & -> & ->).
           destruct (counts_app
                       [ev_kmem_free obj_sendtgts_list;
                        ev_kmem_zalloc obj_sendtgts_list out] e3)
             as (-> & -> & ->).
           rewrite !sysevents_app, !wakeups_app, Bs, Bw.
           cbn. repeat split; lia.
      * unfold bind, emit. cbn [fst snd].
        match goal with
        | |- context [sendtgts_add_loop ?d ?stl ?c ?k ?x] =>
            destruct (adds_only_sendtgts_add_loop d stl c k x)
              as (e1 & H1 & N1);
            destruct (sendtgts_add_loop d stl c k x) as [[] wl];
            cbn [snd] in H1
        end.
        destruct (notes_count e1 N1) as (Na & Nf & Ni & Ns & Nw).
        eexists. split.
        -- cbn [snd]. eapply adds_only_trans; [exact H02|].
           eapply adds_only_trans; [exact H1|].
           apply (adds_only_log [ev_kmem_free obj_sendtgts_list]).
        -- destruct (counts_app
                       ([ev_kmem_zalloc obj_sendtgts_list
                           SENDTGTS_DEFAULT_NUM_TARGETS]
                        ++ [ev_ioctl_sendtgts_get
                              SENDTGTS_DEFAULT_NUM_TARGETS])
                       (e1 ++ [ev_kmem_free obj_sendtgts_list]))
             as (-> & -> & ->).
           destruct (counts_app e1 [ev_kmem_free obj_sendtgts_list])
             as (-> & -> & ->).
           rewrite Na, Nf, Ni, !sysevents_app, !wakeups_app, Ns, Nw.
           cbn. repeat split; lia.
    + unfold bind, emit. cbn [snd trace set_trace]. eexists. split.
      * eapply adds_only_trans; [exact H02|].
        rewrite <- app_assoc. apply (adds_only_log _ w2).
      * cbn. repeat split; lia.
  - unfold bind, emit. cbn [snd trace set_trace]. eexists. split.
    + eapply adds_only_trans; [exact H01|].
      rewrite <- app_assoc. apply (adds_only_log _ w1).
    + cbn. repeat split; lia.
Qed.

Lemma iscsid_do_sendtgts_effects disc_addr w :
  exists evs, adds_only w (snd (iscsid_do_sendtgts disc_addr w)) evs
              /\ sysevents evs = [] /\ wakeups evs = [].
Proof.
  destruct (iscsid_do_sendtgts_balanced disc_addr w)
    as (evs & Ha & _ & _ & _ & Hs & Hw).
  exists evs. split; [exact Ha | split; assumption].
Qed.

(** X18. [iscsid_do_sendtgts] releases every buffer it allocates, on
    each of its paths: one or two allocations, as many releases, and at
    most one ioctl for each buffer.  It sends no discovery event, wakes no
    thread, takes no session or connection away, and leaves the rest of
    the state alone. *)
Theorem iscsid_do_sendtgts_releases_buffers :
  forall disc_addr w,
    exists evs,
      adds_only w (snd (iscsid_do_sendtgts disc_addr w)) evs
      /\ stl_allocs evs = stl_frees evs
      /\ (1 <= stl_allocs evs <= 2)%nat
      /\ (stl_ioctls evs <= stl_allocs evs)%nat
      /\ sysevents evs = [] /\ wakeups evs = [].
Proof. intros disc_addr w. apply iscsid_do_sendtgts_balanced. Qed.


(** ** [isns_scn_callback]: what a notification does to the session list *)

Lemma scn_added_loop_ext pgs w :
  ext (hba_sess_list w) (hba_sess_list (snd (scn_added_loop pgs w)))
  /\ hba_discovery_events (snd (scn_added_loop pgs w))
     = hba_discovery_events w
  /\ iscsid_thr (snd (scn_added_loop pgs w)) = iscsid_thr w.
Proof.
  revert w. induction pgs as [|pg rest IH]; intros w;
    cbn [scn_added_loop].
  - cbn. repeat split. apply ext_refl.
  - unfold bind.
    destruct (adds_only_add (pg_add_args pg) w)
      as (e1 & (_ & He1 & _ & Hd1 & _ & Hr1) & _).
    destruct (iscsid_add (pg_add_args pg) w) as [r1 w1]. cbn [snd] in *.
    rewrite iscsid_login_tgt_spec.
    match goal with
    | |- context [scn_added_loop rest ?x] =>
        destruct (IH x) as (He2 & Hd2 & Hr2)
    end.
    unfold log in *.
    cbn [hba_sess_list hba_discovery_events iscsid_thr set_trace] in *.
    rewrite Hd2, Hr2. repeat split; try assumption.
    eapply ext_trans; eassumption.
Qed.

(** X19. What a state change notification does to the session list.  A
    removal takes away only iSNS sessions of the notified name and adds
    none; an addition takes no session or connection away; an update or an
    unknown type leaves the list as it is, and so does a null argument or
    a missing driver instance.  The discovery flags and the thread table
    are never touched. *)
Theorem isns_scn_callback_sess_list :
  forall arg w,
    let w' := snd (isns_scn_callback arg w) in
    hba_discovery_events w' = hba_discovery_events w
    /\ iscsid_thr w' = iscsid_thr w
    /\ (arg = None \/ ddi_get_soft_state w = false -> w' = w)
    /\ (forall a,
          arg = Some a -> (scn_type a =? ISNS_OBJ_ADDED) = true ->
          ext (hba_sess_list w) (hba_sess_list w'))
    /\ (forall a,
          arg = Some a -> (scn_type a =? ISNS_OBJ_ADDED) = false ->
          incl (hba_sess_list w') (hba_sess_list w)
          /\ filter (fun s =>
                       negb (String.eqb (sess_name s) (source_key_attr a)
                             && (sess_discovered_by s
                                 =? iSCSIDiscoveryMethodISNS)))
                    (hba_sess_list w')
             = filter (fun s =>
                         negb (String.eqb (sess_name s) (source_key_attr a)
                               && (sess_discovered_by s
                                   =? iSCSIDiscoveryMethodISNS)))
                      (hba_sess_list w)
          /\ ((scn_type a =? ISNS_OBJ_REMOVED) = false ->
              hba_sess_list w' = hba_sess_list w)).
Proof.
  intros arg w. cbv zeta. destruct arg as [a|]; cbn [isns_scn_callback].
  2:{ cbn. repeat split; discriminate. }
  destruct (ddi_get_soft_state w) eqn:Hss; cbn [negb].
  2:{ cbn [snd]. repeat split; intros; try apply ext_refl;
        try apply incl_refl. }
  unfold bind, scn_switch.
  destruct (scn_type a =? ISNS_OBJ_ADDED) eqn:Hadd.
  - assert (Hgoal :
      ext (hba_sess_list w)
          (hba_sess_list
             (snd (let (_, w1) :=
                     match isns_query_one_node w (source_key_attr a) with
                     | (isns_failed, _) => (tt, w)
                     | (_, None) => (tt, w)
                     | (_, Some pg_list) =>
                         (let (_, w1) := scn_added_loop pg_list w in
                          emit (ev_kmem_free obj_portal_group_list) w1)
                     end in
                   emit (ev_kmem_free obj_scn_callback_arg) w1)))
      /\ hba_discovery_events
           (snd (let (_, w1) :=
                   match isns_query_one_node w (source_key_attr a) with
                   | (isns_failed, _) => (tt, w)
                   | (_, None) => (tt, w)
                   | (_, Some pg_list) =>
                       (let (_, w1) := scn_added_loop pg_list w in
                        emit (ev_kmem_free obj_portal_group_list) w1)
                   end in
                 emit (ev_kmem_free obj_scn_callback_arg) w1))
         = hba_discovery_events w
      /\ iscsid_thr
           (snd (let (_, w1) :=
                   match isns_query_one_node w (source_key_attr a) with
                   | (isns_failed, _) => (tt, w)
                   | (_, None) => (tt, w)
                   | (_, Some pg_list) =>
                       (let (_, w1) := scn_added_loop pg_list w in
                        emit (ev_kmem_free obj_portal_group_list) w1)
                   end in
                 emit (ev_kmem_free obj_scn_callback_arg) w1))
         = iscsid_thr w).
    { destruct (isns_query_one_node w (source_key_attr a))
        as [[| |] [pgs|]]; cbn; repeat split; try apply ext_refl.
      all: destruct (scn_added_loop_ext pgs w) as (He & Hd & Hr);
        destruct (scn_added_loop pgs w) as [[] w1]; cbn in *; assumption. }
    destruct Hgoal as (He & Hd & Hr).
    split; [exact Hd|]. split; [exact Hr|]. split.
    + intros [H|H]; discriminate.
    + split; [intros a0 _ _; exact He|].
      intros a0 Ha0 Hn. inversion Ha0; subst a0. rewrite Hadd in Hn.
      discriminate.
  - destruct (scn_type a =? ISNS_OBJ_REMOVED) eqn:Hrem.
    + unfold bind.
      destruct (iscsid_del_effects (Some (source_key_attr a))
                  iSCSIDiscoveryMethodISNS None w)
        as (evs & _ & _ & _ & Hd & Hr).
      destruct (iscsid_del_filter (Some (source_key_attr a))
                  iSCSIDiscoveryMethodISNS None
                  (fun s => negb (String.eqb (sess_name s) (source_key_attr a)
                                  && (sess_discovered_by s
                                      =? iSCSIDiscoveryMethodISNS))) w)
        as [Hf Hi].
      { intros s Hs. unfold del_candidate, del_name_method_match.
        apply negb_true_iff in Hs. rewrite Hs. reflexivity. }
      destruct (iscsid_del (Some (source_key_attr a))
                  iSCSIDiscoveryMethodISNS None w) as [rv w1].
      cbn [snd] in *.
      assert (Hsame :
        forall w2, w2 = snd ((let (_, w3) :=
                                (if negb rv
                                 then emit (ev_note
                                   "isns remove scn failed for target")
                                 else ret tt) w1 in
                              emit (ev_kmem_free obj_scn_callback_arg) w3)) ->
          hba_sess_list w2 = hba_sess_list w1
          /\ hba_discovery_events w2 = hba_discovery_events w1
          /\ iscsid_thr w2 = iscsid_thr w1).
      { intros w2 ->. destruct rv; cbn; repeat split. }
      destruct (Hsame _ eq_refl) as (Hl2 & Hd2 & Hr2).
      rewrite Hl2, Hd2, Hr2.
      split; [exact Hd|]. split; [exact Hr|]. split.
      * intros [H|H]; discriminate.
      * split; [intros a0 Ha0 Hy; inversion Ha0; subst a0;
                rewrite Hadd in Hy; discriminate|].
        intros a0 Ha0 _. inversion Ha0; subst a0.
        split; [exact Hi|]. split; [exact Hf|].
        intros Hn. rewrite Hrem in Hn. discriminate.
    + assert (Hsame :
        hba_sess_list
          (snd (let (_, w1) :=
                  (if scn_type a =? ISNS_OBJ_UPDATED
                   then emit (ev_note "received iSNS update SCN")
                   else emit (ev_note "received unknown iSNS SCN type")) w in
                emit (ev_kmem_free obj_scn_callback_arg) w1))
        = hba_sess_list w)
        by (destruct (scn_type a =? ISNS_OBJ_UPDATED); reflexivity).
      rewrite Hsame.
      split; [destruct (scn_type a =? ISNS_OBJ_UPDATED); reflexivity|].
      split; [destruct (scn_type a =? ISNS_OBJ_UPDATED); reflexivity|].
      split; [intros [H|H]; discriminate|].
      split; [intros a0 Ha0 Hy; inversion Ha0; subst a0;
              rewrite Hadd in Hy; discriminate|].
      intros a0 Ha0 _. split; [apply incl_refl|]. split; reflexivity.
Qed.

(** ** The discovery threads *)

(** The static targets and the SendTargets discovery addresses of the
    persistent store, in the order [persistent_static_addr_next] and
    [persistent_disc_addr_next] yield them; and the two queries of the
    iSNS client, with the portal group list they hand back. *)
Variable persistent_static_addrs : list (string * entry_t).
Variable persistent_disc_addrs : list entry_t.

Record iscsi_addr_t := {
  a_port : Z;
  i_insize : Z;
  i_addr : list Z
}.

Variable isns_query_one_server :
  world -> iscsi_addr_t -> isns_status_t * option (list isns_portal_group_t).
Variable isns_query :
  world -> isns_status_t * option (list isns_portal_group_t).

(** The arguments [iscsid_thread_static] gives [iscsid_add] for a static
    target: the target address is also the discovery address. *)
Definition static_add_args (t : string * entry_t) : add_args :=
  let addr :=
    iscsid_addr_to_sockaddr (e_insize (snd t)) (e_u (snd t))
      (e_port (snd t)) stack_sockaddr in
  {| a_method := iSCSIDiscoveryMethodStatic;
     a_addr_dsc := addr;
     a_target_name := fst t;
     a_tpgt := e_tpgt (snd t);
     a_addr_tgt := addr |}.

(** The walk over the static targets of the store. *)
Fixpoint static_addr_loop (ts : list (string * entry_t)) : M unit :=
  match ts with
  | [] => ret tt
  | t :: rest =>
      iscsid_add (static_add_args t) ;;
      static_addr_loop rest
  end.

(** The walk over the discovery addresses of the store. *)
Fixpoint disc_addr_loop (es : list entry_t) : M unit :=
  match es with
  | [] => ret tt
  | e :: rest =>
      iscsid_do_sendtgts e ;;
      disc_addr_loop rest
  end.

(** [iscsid_add_pg_list_to_cache], over the [pg_out_cnt] entries of the
    list. *)
Fixpoint iscsid_add_pg_list_to_cache (pgs : list isns_portal_group_t)
    : M unit :=
  match pgs with
  | [] => ret tt
  | pg :: rest =>
      iscsid_add (pg_add_args pg) ;;
      iscsid_add_pg_list_to_cache rest
  end.

(** The address [iscsid_do_isns_query_one_server] builds in a zeroed
    [iscsi_addr_t]. *)
Definition isns_server_addr (isns_server : entry_t) : iscsi_addr_t :=
  {| a_port := e_port isns_server;
     i_insize := e_insize isns_server;
     i_addr :=
       if e_insize isns_server =? 4
       then firstn 4 (e_u isns_server) ++ repeat 0 12
       else firstn 16 (e_u isns_server) |}.

(** [iscsid_do_isns_query_one_server].  The address buffer, which is
    allocated at the start and released on each of the paths, is not
    followed; the release of the portal group list is. *)
Definition iscsid_do_isns_query_one_server (isns_server : entry_t) : M unit :=
  fun w =>
    if (e_insize isns_server =? 4) || (e_insize isns_server =? 16) then
      match isns_query_one_server w (isns_server_addr isns_server) with
      | (isns_ok, Some pg_list) =>
          (iscsid_add_pg_list_to_cache pg_list ;;
           emit (ev_kmem_free obj_portal_group_list)) w
      | _ => (tt, w)
      end
    else (tt, w).

(** [iscsid_do_isns_query] *)
Definition iscsid_do_isns_query : M unit :=
  fun w =>
    match isns_query w with
    | (isns_failed, _) => (tt, w)
    | (_, None) => (tt, w)
    | (_, Some pg_list) =>
        (iscsid_add_pg_list_to_cache pg_list ;;
         emit (ev_kmem_free obj_portal_group_list)) w
    end.

(** The body of the [while] loop of a discovery thread, run once for each
    wakeup: the start event, the test of the enabled methods, the work of
    the method, the end event. *)
Definition thread_body (m : Z) (msg : string) (work : M unit) : M unit :=
  iscsi_discovery_event m true ;;
  if Z.land persistent_disc_meth_get m =? 0 then
    emit (ev_note msg) ;;
    iscsi_discovery_event m false
  else
    work ;;
    iscsi_discovery_event m false.

(** [while (iscsi_thread_wait(thread, -1) != 0)], for the number of
    wakeups the thread gets before it is told to stop. *)
Fixpoint thread_loop (body : M unit) (n : nat) : M unit :=
  match n with
  | O => ret tt
  | S n' => body ;; thread_loop body n'
  end.

(** [iscsid_thread_static] *)
Definition iscsid_thread_static (n : nat) : M unit :=
  thread_loop
    (thread_body iSCSIDiscoveryMethodStatic
       "iscsi discovery failure - StaticTargets method is not enabled"
       (static_addr_loop persistent_static_addrs)) n.

(** [iscsid_thread_sendtgts] *)
Definition iscsid_thread_sendtgts (n : nat) : M unit :=
  thread_loop
    (thread_body iSCSIDiscoveryMethodSendTargets
       "iscsi discovery failure - SendTargets method is not enabled"
       (disc_addr_loop persistent_disc_addrs)) n.

(** [iscsid_thread_slp]: a [do ... while], so the events are sent once
    before the first wait. *)
Definition iscsid_thread_slp (n : nat) : M unit :=
  let body :=
    iscsi_discovery_event iSCSIDiscoveryMethodSLP true ;;
    iscsi_discovery_event iSCSIDiscoveryMethodSLP false in
  body ;; thread_loop body n.

(** [iscsid_thread_isns].  The registration with the iSNS servers before
    the query, and the deregistration when the thread stops, are calls
    into the iSNS client that leave the state modelled here alone. *)
Definition iscsid_thread_isns (n : nat) : M unit :=
  thread_loop
    (thread_body iSCSIDiscoveryMethodISNS
       "iscsi discovery failure - iSNS method is not enabled"
       iscsid_do_isns_query) n.

(** What a discovery thread may do to the state in one turn: send the
    start and the end event of its method, add sessions in between, and
    record its method in the flags. *)
Definition thread_turns (m : Z) (k : nat) (w w' : world) : Prop :=
  exists evs,
    trace w' = trace w ++ evs
    /\ sysevents evs = concat (repeat (start_end m) k)
    /\ wakeups evs = []
    /\ ext (hba_sess_list w) (hba_sess_list w')
    /\ hba_discovery_events w'
       = match k with
         | O => hba_discovery_events w
         | S _ => Z.lor (hba_discovery_events w) m
         end
    /\ iscsid_thr w' = iscsid_thr w
    /\ hba_name w' = hba_name w.

Lemma thread_turns_trans m j k w1 w2 w3 :
  thread_turns m j w1 w2 -> thread_turns m k w2 w3 ->
  thread_turns m (j + k) w1 w3.
Proof.
  intros (e1 & Ht1 & Hs1 & Hw1 & He1 & Hd1 & Hr1 & Hn1)
         (e2 & Ht2 & Hs2 & Hw2 & He2 & Hd2 & Hr2 & Hn2).
  exists (e1 ++ e2). rewrite Ht2, Ht1, app_assoc.
  split; [reflexivity|].
  split; [rewrite sysevents_app, Hs1, Hs2, repeat_app, concat_app;
          reflexivity|].
  split; [rewrite wakeups_app, Hw1, Hw2; reflexivity|].
  split; [eapply ext_trans; eassumption|].
  split; [|rewrite Hr2, Hn2; split; assumption].
  rewrite Hd2, Hd1. destruct j, k; cbn [plus]; try reflexivity.
  rewrite <- Z.lor_assoc, Z.lor_diag. reflexivity.
Qed.

Lemma thread_loop_turns m body n :
  (forall w, thread_turns m 1 w (snd (body w))) ->
  forall w, thread_turns m n w (snd (thread_loop body n w)).
Proof.
  intros Hbody. induction n as [|n IH]; intros w; cbn [thread_loop].
  - exists []. cbn. rewrite app_nil_r. repeat split. apply ext_refl.
  - unfold bind. pose proof (Hbody w) as H1.
    destruct (body w) as [[] w1]. cbn [snd] in H1.
    apply (thread_turns_trans m 1 n w w1); [exact H1 | apply IH].
Qed.

Lemma thread_body_turns m msg work :
  is_discovery_method m = true ->
  (forall w, exists evs, adds_only w (snd (work w)) evs
                         /\ sysevents evs = [] /\ wakeups evs = []) ->
  forall w, thread_turns m 1 w (snd (thread_body m msg work w)).
Proof.
  intros Hm Hwork w. unfold thread_body, bind.
  rewrite iscsi_discovery_event_eq. cbn [negb andb].
  set (w1 := set_trace w _).
  assert (Hdone : forall w2 mid,
            adds_only w1 w2 mid -> sysevents mid = [] -> wakeups mid = [] ->
            thread_turns m 1 w (snd (iscsi_discovery_event m false w2))).
  { intros w2 mid (Ht & He & Hn & Hd & _ & Hr) Hs Hw.
    rewrite iscsi_discovery_event_eq. cbn [negb andb snd]. rewrite Hm.
    exists ([ev_sysevent (discovery_subclass m true)] ++ mid
            ++ [ev_sysevent (discovery_subclass m false)]).
    subst w1. cbn [trace set_trace hba_sess_list hba_discovery_events
      iscsid_thr hba_name set_hba_discovery_events] in *.
    split; [rewrite Ht, <- !app_assoc; reflexivity|].
    split; [rewrite !sysevents_app, Hs; reflexivity|].
    split; [rewrite !wakeups_app, Hw; reflexivity|].
    split; [exact He|]. split; [rewrite Hd; reflexivity|].
    split; assumption. }
  destruct (Z.land persistent_disc_meth_get m =? 0).
  - unfold emit. cbn [snd].
    apply (Hdone _ [ev_note msg]); [apply (adds_only_log _ w1) | |];
      reflexivity.
  - destruct (Hwork w1) as (mid & Ha & Hs & Hw).
    destruct (work w1) as [[] w2]. cbn [snd] in *.
    exact (Hdone w2 mid Ha Hs Hw).
Qed.

Lemma adds_only_static_addr_loop ts w :
  exists evs, adds_only w (snd (static_addr_loop ts w)) evs
              /\ sysevents evs = [] /\ wakeups evs = [].
Proof.
  revert w. induction ts as [|t ts IH]; intros w; cbn [static_addr_loop].
  - exists []. split; [apply adds_only_refl | split; reflexivity].
  - unfold bind. destruct (adds_only_add (static_add_args t) w)
      as (e1 & H1 & N1).
    destruct (iscsid_add (static_add_args t) w) as [r w1]. cbn [snd] in H1.
    destruct (IH w1) as (e2 & H2 & Hs2 & Hw2).
    destruct (notes_count e1 N1) as (_ & _ & _ & Hs1 & Hw1).
    exists (e1 ++ e2). split; [eapply adds_only_trans; eassumption|].
    rewrite sysevents_app, wakeups_app, Hs1, Hs2, Hw1, Hw2.
    split; reflexivity.
Qed.

Lemma adds_only_pg_list pgs w :
  exists evs, adds_only w (snd (iscsid_add_pg_list_to_cache pgs w)) evs
              /\ forallb is_note evs = true
              /\ snd (iscsid_add_pg_list_to_cache pgs w)
                 = run_adds (map pg_add_args pgs) w.
Proof.
  revert w. induction pgs as [|pg pgs IH]; intros w;
    cbn [iscsid_add_pg_list_to_cache].
  - exists []. split; [apply adds_only_refl | split; reflexivity].
  - unfold bind. destruct (adds_only_add (pg_add_args pg) w)
      as (e1 & H1 & N1).
    unfold run_adds. cbn [map fold_left].
    destruct (iscsid_add (pg_add_args pg) w) as [r w1]. cbn [snd] in *.
    destruct (IH w1) as (e2 & H2 & N2 & Hrun).
    exists (e1 ++ e2). split; [eapply adds_only_trans; eassumption|].
    split; [rewrite forallb_app, N1, N2; reflexivity | exact Hrun].
Qed.

Lemma adds_only_disc_addr_loop es w :
  exists evs, adds_only w (snd (disc_addr_loop es w)) evs
              /\ sysevents evs = [] /\ wakeups evs = [].
Proof.
  revert w. induction es as [|e es IH]; intros w; cbn [disc_addr_loop].
  - exists []. split; [apply adds_only_refl | split; reflexivity].
  - unfold bind.
    destruct (iscsid_do_sendtgts_effects e w) as (e1 & H1 & Hs1 & Hw1).
    destruct (iscsid_do_sendtgts e w) as [[] w1]. cbn [snd] in H1.
    destruct (IH w1) as (e2 & H2 & Hs2 & Hw2).
    exists (e1 ++ e2). split; [eapply adds_only_trans; eassumption|].
    rewrite sysevents_app, wakeups_app, Hs1, Hs2, Hw1, Hw2.
    split; reflexivity.
Qed.

Lemma adds_only_isns_query w :
  exists evs, adds_only w (snd (iscsid_do_isns_query w)) evs
              /\ sysevents evs = [] /\ wakeups evs = [].
Proof.
  unfold iscsid_do_isns_query.
  assert (Hid : exists evs, adds_only w w evs
                            /\ sysevents evs = [] /\ wakeups evs = [])
    by (exists []; split; [apply adds_only_refl | split; reflexivity]).
  assert (Hadd : forall pgs,
            exists evs,
              adds_only w
                (snd ((iscsid_add_pg_list_to_cache pgs ;;
                       emit (ev_kmem_free obj_portal_group_list)) w)) evs
              /\ sysevents evs = [] /\ wakeups evs = []).
  { intros pgs. unfold bind.
    destruct (adds_only_pg_list pgs w) as (e1 & H1 & N1 & _).
    destruct (iscsid_add_pg_list_to_cache pgs w) as [[] w1].
    cbn [snd] in *.
    destruct (notes_count e1 N1) as (_ & _ & _ & Hs1 & Hw1).
    exists (e1 ++ [ev_kmem_free obj_portal_group_list]). split.
    - eapply adds_only_trans; [exact H1 | apply (adds_only_log _ w1)].
    - rewrite sysevents_app, wakeups_app, Hs1, Hw1. split; reflexivity. }
  destruct (isns_query w) as [[| |] [pgs|]]; cbn [snd];
    first [exact Hid | apply Hadd].
Qed.

(** X20. The events of the discovery threads.  Each turn of a thread
    sends the start event of its method first and its end event last, with
    no other discovery event and no wakeup in between, whether or not the
    method is enabled in the store; so a thread woken [n] times has sent
    [n] such pairs, and the SLP thread, which sends its pair before it
    first waits, one more.  A turn records the method in the flags, takes
    no session or connection away and leaves the thread table alone. *)
Theorem discovery_thread_event_pairs :
  forall n w,
    thread_turns iSCSIDiscoveryMethodStatic n w
      (snd (iscsid_thread_static n w))
    /\ thread_turns iSCSIDiscoveryMethodSendTargets n w
         (snd (iscsid_thread_sendtgts n w))
    /\ thread_turns iSCSIDiscoveryMethodISNS n w
         (snd (iscsid_thread_isns n w))
    /\ thread_turns iSCSIDiscoveryMethodSLP (S n) w
         (snd (iscsid_thread_slp n w))
    /\ hba_sess_list (snd (iscsid_thread_slp n w)) = hba_sess_list w.
Proof.
  intros n w.
  assert (Hslp : forall w0,
            thread_turns iSCSIDiscoveryMethodSLP 1 w0
              (snd ((iscsi_discovery_event iSCSIDiscoveryMethodSLP true ;;
                     iscsi_discovery_event iSCSIDiscoveryMethodSLP false) w0))
            /\ hba_sess_list
                 (snd ((iscsi_discovery_event iSCSIDiscoveryMethodSLP true ;;
                        iscsi_discovery_event iSCSIDiscoveryMethodSLP false)
                         w0))
               = hba_sess_list w0).
  { intros w0. unfold bind. rewrite !iscsi_discovery_event_eq.
    change (is_discovery_method iSCSIDiscoveryMethodSLP) with true.
    cbn [negb andb snd]. split; [|reflexivity].
    exists [ev_sysevent (discovery_subclass iSCSIDiscoveryMethodSLP true);
            ev_sysevent (discovery_subclass iSCSIDiscoveryMethodSLP false)].
    cbn. rewrite <- app_assoc. repeat split. apply ext_refl. }
  split; [|split; [|split; [|split]]].
  - apply thread_loop_turns. apply thread_body_turns; [reflexivity|].
    apply adds_only_static_addr_loop.
  - apply thread_loop_turns. apply thread_body_turns; [reflexivity|].
    apply adds_only_disc_addr_loop.
  - apply thread_loop_turns. apply thread_body_turns; [reflexivity|].
    apply adds_only_isns_query.
  - unfold iscsid_thread_slp. cbv zeta. unfold bind at 1.
    destruct (Hslp w) as [H1 _].
    destruct ((iscsi_discovery_event iSCSIDiscoveryMethodSLP true ;;
               iscsi_discovery_event iSCSIDiscoveryMethodSLP false) w)
      as [[] w1]. cbn [snd] in H1.
    apply (thread_turns_trans iSCSIDiscoveryMethodSLP 1 n w w1);
      [exact H1|].
    apply thread_loop_turns. intros w0. apply Hslp.
  - unfold iscsid_thread_slp. cbv zeta. unfold bind at 1.
    destruct (Hslp w) as [_ H1].
    destruct ((iscsi_discovery_event iSCSIDiscoveryMethodSLP true ;;
               iscsi_discovery_event iSCSIDiscoveryMethodSLP false) w)
      as [[] w1]. cbn [snd] in H1. rewrite <- H1. clear H1.
    revert w1. induction n as [|n IH]; intros w1; [reflexivity|].
    cbn [thread_loop]. unfold bind at 1.
    destruct (Hslp w1) as [_ H1].
    destruct ((iscsi_discovery_event iSCSIDiscoveryMethodSLP true ;;
               iscsi_discovery_event iSCSIDiscoveryMethodSLP false) w1)
      as [[] w2]. cbn [snd] in H1. rewrite <- H1. apply IH.
Qed.

(** X21. How the two iSNS queries read the answer of the client.
    [iscsid_do_isns_query] takes the portal groups of an answer that is
    [isns_ok] or [isns_op_partially_failed]; [iscsid_do_isns_query_one_server]
    takes them for [isns_ok] only, and makes no query when the size of the
    server's address is neither that of an IPv4 nor that of an IPv6
    address.  An answer that is not taken leaves the state as it was: no
    session is added and the list that came with it is not released.  An
    answer that is taken has its portal groups added, in order, as iSNS
    sessions, and its list released. *)
Theorem iscsid_do_isns_query_answers :
  forall w,
    (forall st pgs,
        isns_query w = (st, Some pgs) -> st <> isns_failed ->
        snd (iscsid_do_isns_query w)
          = log [ev_kmem_free obj_portal_group_list]
                (run_adds (map pg_add_args pgs) w))
    /\ (forall st opt,
          isns_query w = (st, opt) -> st = isns_failed \/ opt = None ->
          iscsid_do_isns_query w = (tt, w))
    /\ (forall server pgs,
          e_insize server = 4 \/ e_insize server = 16 ->
          isns_query_one_server w (isns_server_addr server)
            = (isns_ok, Some pgs) ->
          snd (iscsid_do_isns_query_one_server server w)
            = log [ev_kmem_free obj_portal_group_list]
                  (run_adds (map pg_add_args pgs) w))
    /\ (forall server st opt,
          isns_query_one_server w (isns_server_addr server) = (st, opt) ->
          st <> isns_ok \/ opt = None ->
          iscsid_do_isns_query_one_server server w = (tt, w))
    /\ (forall server,
          e_insize server <> 4 -> e_insize server <> 16 ->
          iscsid_do_isns_query_one_server server w = (tt, w)).
Proof.
  intros w.
  assert (Hadd : forall pgs,
            snd ((iscsid_add_pg_list_to_cache pgs ;;
                  emit (ev_kmem_free obj_portal_group_list)) w)
            = log [ev_kmem_free obj_portal_group_list]
                  (run_adds (map pg_add_args pgs) w)).
  { intros pgs. unfold bind.
    destruct (adds_only_pg_list pgs w) as (e1 & _ & _ & Hrun).
    destruct (iscsid_add_pg_list_to_cache pgs w) as [[] w1].
    cbn [snd] in *. subst w1. reflexivity. }
  split; [|split; [|split; [|split]]].
  - intros st pgs Hq Hst. unfold iscsid_do_isns_query. rewrite Hq.
    destruct st; [apply Hadd | apply Hadd | contradiction].
  - intros st opt Hq Hor. unfold iscsid_do_isns_query. rewrite Hq.
    destruct Hor as [-> | ->]; [reflexivity|]. destruct st; reflexivity.
  - intros server pgs Hsz Hq. unfold iscsid_do_isns_query_one_server.
    rewrite Hq.
    replace ((e_insize server =? 4) || (e_insize server =? 16)) with true
      by (destruct Hsz as [-> | ->]; reflexivity).
    apply Hadd.
  - intros server st opt Hq Hor. unfold iscsid_do_isns_query_one_server.
    rewrite Hq. destruct (_ || _); [|reflexivity].
    destruct Hor as [Hst | ->].
    + destruct st; [contradiction | reflexivity | reflexivity].
    + destruct st; reflexivity.
  - intros server H4 H16. unfold iscsid_do_isns_query_one_server.
    destruct (Z.eqb_spec (e_insize server) 4); [contradiction|].
    destruct (Z.eqb_spec (e_insize server) 16); [contradiction|].
    reflexivity.
Qed.

(** ** The bootstrap: what is pushed to the login parameters *)

Lemma iscsid_copyto_param_set_keeps param_id params ipsp :
  let r := Param.iscsid_copyto_param_set param_id params ipsp in
  Param.s_oid (snd r) = Param.s_oid ipsp
  /\ Param.s_vers (snd r) = Param.s_vers ipsp
  /\ (fst r = 0 -> Param.s_param (snd r) = param_id /\ 0 <= param_id <= 10).
Proof.
  cbv zeta. unfold Param.iscsid_copyto_param_set.
  unfold Param.ISCSI_NUM_LOGIN_PARAM, Param.EINVAL,
    Param.ISCSI_LOGIN_PARAM_DATA_SEQUENCE_IN_ORDER,
    Param.ISCSI_LOGIN_PARAM_IMMEDIATE_DATA,
    Param.ISCSI_LOGIN_PARAM_INITIAL_R2T,
    Param.ISCSI_LOGIN_PARAM_DATA_PDU_IN_ORDER,
    Param.ISCSI_LOGIN_PARAM_HEADER_DIGEST,
    Param.ISCSI_LOGIN_PARAM_DATA_DIGEST,
    Param.ISCSI_LOGIN_PARAM_DEFAULT_TIME_2_RETAIN,
    Param.ISCSI_LOGIN_PARAM_DEFAULT_TIME_2_WAIT,
    Param.ISCSI_LOGIN_PARAM_MAX_RECV_DATA_SEGMENT_LENGTH,
    Param.ISCSI_LOGIN_PARAM_FIRST_BURST_LENGTH,
    Param.ISCSI_LOGIN_PARAM_MAX_BURST_LENGTH.
  destruct (14 <=? param_id); [cbn; repeat split; discriminate|].
  repeat match goal with
  | |- context [param_id =? ?k] =>
      destruct (Z.eqb_spec param_id k);
        [cbn; repeat split; solve [reflexivity | lia | assumption]|]
  end.
  cbn. repeat split; discriminate.
Qed.

Lemma iscsid_copyto_param_set_value param_id params ipsp :
  let r := Param.iscsid_copyto_param_set param_id params ipsp in
  fst r = 0 -> carries_name (snd r) = false.
Proof.
  cbv zeta. unfold Param.iscsid_copyto_param_set.
  destruct (Param.ISCSI_NUM_LOGIN_PARAM <=? param_id);
    [cbn; discriminate|].
  repeat match goal with
  | |- context [param_id =? ?k] =>
      destruct (param_id =? k); [cbn; reflexivity|]
  end.
  cbn. discriminate.
Qed.

Lemma set_params_log ips w :
  carries_name ips = false ->
  set_params ips w
    = (iscsi_set_params ips,
       log [ev_set_params ips (iscsi_set_params ips)] w).
Proof. intros H. unfold set_params. rewrite H. reflexivity. Qed.

(** A parameter pushed for the entry [pp] under the object [oid]: it is
    one of the settable parameters, overridden in the entry, and carries
    the object and the interface version it was set up with. *)
Definition pushed_for (pp : persistent_param_t) (oid vers : Z) (e : event)
    : Prop :=
  match e with
  | ev_set_params p _ =>
      Param.s_oid p = oid /\ Param.s_vers p = vers
      /\ 0 <= Param.s_param p <= 10
      /\ Z.land (p_bitmap pp) (Z.shiftl 1 (Param.s_param p)) <> 0
  | ev_note _ => True
  | _ => False
  end.

Lemma push_params_spec ids pp ips w :
  exists evs,
    snd (push_params ids pp ips w) = log evs w
    /\ Param.s_oid (fst (push_params ids pp ips w)) = Param.s_oid ips
    /\ Param.s_vers (fst (push_params ids pp ips w)) = Param.s_vers ips
    /\ Forall (pushed_for pp (Param.s_oid ips) (Param.s_vers ips)) evs.
Proof.
  revert ips w. induction ids as [|param_id ids IH]; intros ips w;
    cbn [push_params].
  - exists []. unfold log. cbn. rewrite app_nil_r.
    split; [destruct w; reflexivity|]. repeat split. constructor.
  - destruct (Z.eqb_spec (Z.land (p_bitmap pp) (Z.shiftl 1 param_id)) 0)
      as [|Hbit]; cbn [negb]; [apply IH|].
    pose proof (iscsid_copyto_param_set_keeps param_id (p_params pp) ips)
      as Hkeep. cbv zeta in Hkeep.
    pose proof (iscsid_copyto_param_set_value param_id (p_params pp) ips)
      as Hval. cbv zeta in Hval.
    destruct (Param.iscsid_copyto_param_set param_id (p_params pp) ips)
      as [rc ips1]. cbn [fst snd] in Hkeep, Hval.
    destruct Hkeep as (Ho & Hv & Hok).
    unfold bind.
    destruct (Z.eqb_spec rc 0) as [Hrc|Hrc].
    + destruct (Hok Hrc) as [Hp Hr].
      rewrite (set_params_log ips1 w (Hval Hrc)). unfold log.
      assert (Hpush : pushed_for pp (Param.s_oid ips) (Param.s_vers ips)
                        (ev_set_params ips1 (iscsi_set_params ips1))).
      { cbn. rewrite Hp. repeat split; try assumption; lia. }
      destruct (iscsi_set_params ips1 =? 0); cbn [negb];
        unfold emit, ret;
        match goal with
        | |- context [push_params ids pp ips1 ?x] =>
            destruct (IH ips1 x) as (evs & Hs & Ho' & Hv' & Hall)
        end;
        rewrite Hs, Ho', Hv', Ho, Hv; rewrite Ho, Hv in Hall;
        eexists; (split; [unfold log; cbn [trace set_trace];
                          rewrite <- ?app_assoc; reflexivity|]);
        repeat split; repeat (constructor; [first [exact Hpush | exact I]|]);
        exact Hall.
    + unfold ret. destruct (rc =? 0) eqn:E;
        [apply Z.eqb_eq in E; contradiction|]. cbn [negb]. unfold emit.
      match goal with
      | |- context [push_params ids pp ips1 ?x] =>
          destruct (IH ips1 x) as (evs & Hs & Ho' & Hv' & Hall)
      end.
      rewrite Hs, Ho', Hv', Ho, Hv. rewrite Ho, Hv in Hall.
      eexists. split; [unfold log; cbn [trace set_trace];
                       rewrite <- ?app_assoc; reflexivity|].
      repeat split. constructor; [exact I | exact Hall].
Qed.

(** The initiator name [iscsid_init_targets] reads from the store. *)
Definition stored_initiator_name (w : world) : string :=
  match ps_initiator_name w with
  | Some nm => nm
  | None => ""%string
  end.

Lemma init_targets_params_spec iname entries ips w :
  exists evs,
    snd (init_targets_params iname entries ips w) = log evs w
    /\ Forall (fun e =>
                 exists nm pp,
                   In (nm, pp) entries /\ nm <> iname
                   /\ pushed_for pp (iscsi_targetparam_get_oid nm)
                        (Param.s_vers ips) e) evs.
Proof.
  revert ips w. induction entries as [|[nm pp] entries IH]; intros ips w;
    cbn [init_targets_params].
  - exists []. unfold log. cbn. rewrite app_nil_r.
    split; [destruct w; reflexivity | constructor].
  - destruct (String.eqb_spec iname nm) as [Heq|Hne].
    + destruct (IH ips w) as (evs & Hs & Hall). exists evs.
      split; [exact Hs|]. eapply Forall_impl; [|exact Hall].
      intros e (nm0 & pp0 & Hin & Hn & Hp). exists nm0, pp0.
      split; [right; exact Hin | split; assumption].
    + unfold bind.
      match goal with
      | |- context [push_params login_param_ids pp ?i w] =>
          destruct (push_params_spec login_param_ids pp i w)
            as (e1 & Hs1 & Ho1 & Hv1 & Hall1);
          destruct (push_params login_param_ids pp i w) as [ips2 w1]
      end.
      cbn [fst snd Param.s_oid Param.s_vers] in *. subst w1.
      destruct (IH ips2 (log e1 w)) as (e2 & Hs2 & Hall2).
      exists (e1 ++ e2). rewrite Hs2, log_log. split; [reflexivity|].
      apply Forall_app. split.
      * eapply Forall_impl; [|exact Hall1].
        intros e Hp. exists nm, pp. split; [left; reflexivity|].
        split; [intros H; apply Hne; symmetry; exact H | exact Hp].
      * eapply Forall_impl; [|exact Hall2].
        intros e (nm0 & pp0 & Hin & Hn & Hp). exists nm0, pp0.
        split; [right; exact Hin|]. split; [exact Hn|].
        rewrite <- Hv1. exact Hp.
Qed.

(** X22. [iscsid_init_targets] returns [B_TRUE] and changes nothing but
    the login parameters it pushes: each is a settable parameter that an
    entry of the store overrides, the entry is not the initiator's own,
    and the parameter is pushed under the object id of the entry's target
    and the interface version.  Everything else it does is to note a push
    that failed. *)
Theorem iscsid_init_targets_pushes :
  forall w,
    exists evs,
      iscsid_init_targets w = (true, log evs w)
      /\ Forall (fun e =>
                   exists nm pp,
                     In (nm, pp) persistent_params
                     /\ nm <> stored_initiator_name w
                     /\ pushed_for pp (iscsi_targetparam_get_oid nm)
                          ISCSI_INTERFACE_VERSION e) evs.
Proof.
  intros w. unfold iscsid_init_targets, stored_initiator_name.
  match goal with
  | |- context [init_targets_params ?n persistent_params ?i w] =>
      destruct (init_targets_params_spec n persistent_params i w)
        as (evs & Hs & Hall)
  end.
  exists evs. rewrite Hs. split; [reflexivity | exact Hall].
Qed.

Lemma init_config_params_log initiatorName entries ips w :
  exists evs,
    snd (init_config_params initiatorName entries ips w) = log evs w.
Proof.
  induction entries as [|[nm pp] entries IH]; cbn [init_config_params].
  - exists []. unfold log. cbn. rewrite app_nil_r. destruct w; reflexivity.
  - destruct (String.eqb nm initiatorName); [|exact IH].
    match goal with
    | |- context [push_params login_param_ids pp ?i w] =>
        destruct (push_params_spec login_param_ids pp i w)
          as (evs & Hs & _)
    end.
    exists evs. exact Hs.
Qed.

Lemma default_node_settings_fields w :
  let w' := snd (iscsid_set_default_initiator_node_settings w) in
  ps_initiator_name w'
    = (if persistent_initiator_name_set default_node_name
       then Some default_node_name else ps_initiator_name w)
  /\ hba_name w' = match ps_initiator_name w' with
                   | Some nm => nm
                   | None => default_node_name
                   end
  /\ hba_alias w'
     = (if String.eqb (hba_alias w) "" then utsname_nodename
        else hba_alias w)
  /\ ps_alias_name w'
     = (if String.eqb (hba_alias w) ""
           && persistent_alias_name_set utsname_nodename
        then Some utsname_nodename else ps_alias_name w)
  /\ trace w'
     = trace w ++ match ps_initiator_name w' with
                  | Some nm =>
                      if persistent_chap_get nm then []
                      else [ev_persistent_chap_set nm]
                  | None => []
                  end
  /\ hba_oid w' = hba_oid w
  /\ hba_sess_list w' = hba_sess_list w
  /\ hba_discovery_events w' = hba_discovery_events w
  /\ hba_discovery_in_progress w' = hba_discovery_in_progress w
  /\ iscsid_thr w' = iscsid_thr w.
Proof.
  destruct w as [n a o l ev ip thr pn pa t]. cbv zeta.
  unfold iscsid_set_default_initiator_node_settings, initiator_name_set,
    alias_name_set, emit.
  cbn.
  destruct (persistent_initiator_name_set default_node_name); cbn;
    destruct (String.eqb a ""); cbn;
    try destruct (persistent_alias_name_set utsname_nodename); cbn;
    try destruct pn as [nm|]; cbn;
    repeat match goal with
    | |- context [persistent_chap_get ?x] =>
        let E := fresh "E" in
        destruct (persistent_chap_get x) eqn:E; cbn in E; cbn;
        rewrite ?E; cbn
    end;
    rewrite ?app_nil_r; repeat split; reflexivity.
Qed.

(** X23. [iscsid_set_default_initiator_node_settings] hands the default
    name to the store, which holds it afterwards exactly when
    [persistent_initiator_name_set] took it and else keeps what it had.
    The host name becomes the alias only when the adapter has none, and
    only then, and only if [persistent_alias_name_set] takes it, is it in
    the store.  The CHAP user is recorded exactly when a name reads back
    from the store and has no CHAP record, under the name read back, which
    is then the node name of the adapter; when none reads back nothing is
    recorded.  The session list, the discovery flags, the thread table and
    the object id are not touched. *)
Theorem iscsid_default_node_settings :
  forall w,
    let w' := snd (iscsid_set_default_initiator_node_settings w) in
    ps_initiator_name w'
      = (if persistent_initiator_name_set default_node_name
         then Some default_node_name else ps_initiator_name w)
    /\ (forall nm, ps_initiator_name w' = Some nm -> hba_name w' = nm)
    /\ hba_alias w'
       = (if String.eqb (hba_alias w) "" then utsname_nodename
          else hba_alias w)
    /\ ps_alias_name w'
       = (if String.eqb (hba_alias w) ""
             && persistent_alias_name_set utsname_nodename
          then Some utsname_nodename else ps_alias_name w)
    /\ trace w'
       = trace w ++ match ps_initiator_name w' with
                    | Some nm =>
                        if persistent_chap_get nm then []
                        else [ev_persistent_chap_set nm]
                    | None => []
                    end
    /\ hba_oid w' = hba_oid w
    /\ hba_sess_list w' = hba_sess_list w
    /\ hba_discovery_events w' = hba_discovery_events w
    /\ hba_discovery_in_progress w' = hba_discovery_in_progress w
    /\ iscsid_thr w' = iscsid_thr w.
Proof.
  intros w. cbv zeta.
  destruct (default_node_settings_fields w)
    as (Hn & Hh & Ha & Hp & Ht & Ho & Hl & He & Hi & Hr). cbv zeta in *.
  split; [exact Hn|]. split.
  - intros nm Hnm. rewrite Hh, Hnm. reflexivity.
  - split; [exact Ha|]. split; [exact Hp|]. split; [exact Ht|].
    split; [exact Ho|]. split; [exact Hl|]. split; [exact He|].
    split; [exact Hi | exact Hr].
Qed.

(** ** Configuration requests: [iscsid_config_one] and [iscsid_config_all] *)

(** [SEC_TO_TICK], a macro of the system headers: seconds as clock
    ticks. *)
Variable SEC_TO_TICK : Z -> Z.

(** The test that lets a request start a discovery: no protection is
    asked for, or more than the storm delay has passed since the last
    discovery.  [lbolt] is what [ddi_get_lbolt] returns; the sum is taken
    in the integers. *)
Definition config_storm_over (protect : bool)
    (lbolt hba_config_lbolt hba_config_storm_delay : Z) : bool :=
  negb protect
  || (hba_config_lbolt + SEC_TO_TICK hba_config_storm_delay <? lbolt).

(** [iscsid_config_one].  The fields [hba_config_lbolt] and
    [hba_config_storm_delay] of the adapter are carried beside the state;
    [lbolt] and [lbolt'] are the two readings of [ddi_get_lbolt]; [first]
    and [sched] are what the other threads do during the discovery.  The
    value is [hba_config_lbolt] as the call has left it, and the state at
    the return, [None] while the discovery has not ended:
    [hba_config_lbolt] is assigned before [iscsid_poke_discovery] is
    called, so it has its new value also while the discovery goes on. *)
Definition iscsid_config_one (nm : string) (protect : bool)
    (lbolt lbolt' : Z) (first : list env_action)
    (sched : list (list env_action))
    (hba_config_lbolt hba_config_storm_delay : Z) (w : world)
    : Z * option world :=
  let (rc, w1) :=
    iscsid_login_tgt (Some nm) iSCSIDiscoveryMethodUnknown None w in
  if negb rc then
    if config_storm_over protect lbolt hba_config_lbolt
         hba_config_storm_delay
    then
      (lbolt',
       match iscsid_poke_discovery iSCSIDiscoveryMethodUnknown first sched w1
       with
       | Some w2 =>
           Some (snd (iscsid_login_tgt (Some nm) iSCSIDiscoveryMethodUnknown
                        None w2))
       | None => None
       end)
    else (hba_config_lbolt, Some w1)
  else (hba_config_lbolt, Some w1).

(** [iscsid_config_all] *)
Definition iscsid_config_all (protect : bool) (lbolt lbolt' : Z)
    (first : list env_action) (sched : list (list env_action))
    (hba_config_lbolt hba_config_storm_delay : Z) (w : world)
    : option (Z * world) :=
  let st :=
    if config_storm_over protect lbolt hba_config_lbolt
         hba_config_storm_delay
    then
      match iscsid_poke_discovery iSCSIDiscoveryMethodUnknown first sched w
      with
      | Some w1 => Some (lbolt', w1)
      | None => None
      end
    else Some (hba_config_lbolt, w) in
  match st with
  | Some (l, w1) =>
      Some (l, snd (iscsid_login_tgt None iSCSIDiscoveryMethodUnknown None
                      w1))
  | None => None
  end.

(** X24. [iscsid_config_one] starts no discovery for a target it can log
    in: when a session of the name is in the list, the sessions of that
    name are asked to log in and nothing else happens, whatever the clock
    and the other threads do.  When there is none and the request falls
    within the storm delay of a protected call, nothing happens at all and
    the recorded time stays.  Otherwise the time is recorded first, so it
    is recorded whether or not the discovery ever ends; then the discovery
    is run and, once it has ended, the login is tried again on the list
    the discovery left. *)
Theorem iscsid_config_one_storm :
  forall nm protect lbolt lbolt' first sched hba_config_lbolt
         hba_config_storm_delay w,
    let known :=
      existsb (fun s => String.eqb nm (sess_name s)) (hba_sess_list w) in
    let r := iscsid_config_one nm protect lbolt lbolt' first sched
               hba_config_lbolt hba_config_storm_delay w in
    (known = true ->
       r = (hba_config_lbolt,
            Some (log (map ev_sess_online
                         (filter (fun s => String.eqb nm (sess_name s))
                                 (hba_sess_list w))) w)))
    /\ (known = false -> protect = true ->
        lbolt <= hba_config_lbolt + SEC_TO_TICK hba_config_storm_delay ->
        r = (hba_config_lbolt, Some w))
    /\ (known = false ->
        config_storm_over protect lbolt hba_config_lbolt
          hba_config_storm_delay = true ->
        fst r = lbolt'
        /\ snd r
           = match iscsid_poke_discovery iSCSIDiscoveryMethodUnknown first
                     sched w with
             | Some w2 =>
                 Some (log (map ev_sess_online
                              (filter (fun s => String.eqb nm (sess_name s))
                                      (hba_sess_list w2))) w2)
             | None => None
             end).
Proof.
  intros nm protect lbolt lbolt' first sched hba_config_lbolt
    hba_config_storm_delay w. cbv zeta. unfold iscsid_config_one.
  rewrite iscsid_login_tgt_spec.
  change (login_try_online (Some nm) iSCSIDiscoveryMethodUnknown None)
    with (fun s => String.eqb nm (sess_name s)).
  assert (Hnone : existsb (fun s => String.eqb nm (sess_name s))
                          (hba_sess_list w) = false ->
                  log (map ev_sess_online
                         (filter (fun s => String.eqb nm (sess_name s))
                                 (hba_sess_list w))) w = w).
  { intros Hn. replace (filter _ (hba_sess_list w)) with (@nil iscsi_sess_t).
    - unfold log. cbn [map]. rewrite app_nil_r. destruct w; reflexivity.
    - symmetry. clear - Hn. induction (hba_sess_list w) as [|s l IH];
        [reflexivity|].
      cbn [existsb] in Hn. apply orb_false_elim in Hn.
      destruct Hn as [Hs Hl]. cbn [filter]. rewrite Hs. exact (IH Hl). }
  destruct (existsb (fun s => String.eqb nm (sess_name s)) (hba_sess_list w))
    eqn:Hk; cbn [negb].
  - split; [reflexivity|]. split; intros; discriminate.
  - rewrite (Hnone eq_refl). split; [discriminate|]. split.
    + intros _ -> Hle. unfold config_storm_over. cbn [negb orb].
      destruct (Z.ltb_spec (hba_config_lbolt
                            + SEC_TO_TICK hba_config_storm_delay) lbolt);
        [lia | reflexivity].
    + intros _ ->. cbn [fst snd]. split; [reflexivity|].
      destruct (iscsid_poke_discovery iSCSIDiscoveryMethodUnknown first sched
                  w) as [w2|]; [|reflexivity].
      rewrite iscsid_login_tgt_spec. reflexivity.
Qed.

(** X25. [iscsid_config_all] asks every session of the list to log in.
    Within the storm delay of a protected call that is all it does; else
    it first runs the discovery and records the time, and the sessions it
    asks are those of the list the discovery left.  It returns once the
    discovery has. *)
Theorem iscsid_config_all_storm :
  forall protect lbolt lbolt' first sched hba_config_lbolt
         hba_config_storm_delay w,
    let r := iscsid_config_all protect lbolt lbolt' first sched
               hba_config_lbolt hba_config_storm_delay w in
    (protect = true ->
     lbolt <= hba_config_lbolt + SEC_TO_TICK hba_config_storm_delay ->
     r = Some (hba_config_lbolt,
               log (map ev_sess_online (hba_sess_list w)) w))
    /\ (config_storm_over protect lbolt hba_config_lbolt
          hba_config_storm_delay = true ->
        r = match iscsid_poke_discovery iSCSIDiscoveryMethodUnknown first
                    sched w with
            | Some w1 =>
                Some (lbolt', log (map ev_sess_online (hba_sess_list w1)) w1)
            | None => None
            end)
    /\ (forall l w', r = Some (l, w') ->
          exists w1, w' = log (map ev_sess_online (hba_sess_list w1)) w1
                     /\ hba_sess_list w' = hba_sess_list w1).
Proof.
  intros protect lbolt lbolt' first sched hba_config_lbolt
    hba_config_storm_delay w. cbv zeta. unfold iscsid_config_all.
  assert (Hall : forall w1,
            snd (iscsid_login_tgt None iSCSIDiscoveryMethodUnknown None w1)
            = log (map ev_sess_online (hba_sess_list w1)) w1).
  { intros w1. rewrite iscsid_login_tgt_spec. cbn [snd]. f_equal. f_equal.
    apply forallb_filter_id. apply forallb_forall. intros s _. reflexivity. }
  split; [|split].
  - intros -> Hle. unfold config_storm_over. cbn [negb orb].
    destruct (Z.ltb_spec (hba_config_lbolt
                          + SEC_TO_TICK hba_config_storm_delay) lbolt);
      [lia|]. rewrite Hall. reflexivity.
  - intros ->.
    destruct (iscsid_poke_discovery iSCSIDiscoveryMethodUnknown first sched w)
      as [w1|]; [|reflexivity]. rewrite Hall. reflexivity.
  - intros l w' Hr.
    destruct (config_storm_over protect lbolt hba_config_lbolt
                hba_config_storm_delay).
    + destruct (iscsid_poke_discovery iSCSIDiscoveryMethodUnknown first sched
                  w) as [w1|]; [|discriminate].
      rewrite Hall in Hr. inversion Hr; subst. exists w1.
      split; reflexivity.
    + rewrite Hall in Hr. inversion Hr; subst. exists w.
      split; reflexivity.
Qed.

(** ** [iscsid_props] *)

(** The values of [iSNSDiscoveryMethod], from [iscsi_if.h]. *)
Inductive iSNSDiscoveryMethod_t :=
| iSNSDiscoveryMethodStatic
| iSNSDiscoveryMethodDHCP
| iSNSDiscoveryMethodSLP.

Record iSCSIDiscoveryProperties_t := {
  vers : Z;
  iSNSDiscoverySettable : bool;
  iSNSDiscoveryEnabled : bool;
  iSNSDiscoveryMethod : iSNSDiscoveryMethod_t;
  SLPDiscoverySettable : bool;
  SLPDiscoveryEnabled : bool;
  StaticDiscoverySettable : bool;
  StaticDiscoveryEnabled : bool;
  SendTargetsDiscoverySettable : bool;
  SendTargetsDiscoveryEnabled : bool
}.

(** The macro [CHECK_METHOD]. *)
Definition CHECK_METHOD (dm v : Z) : bool := negb (Z.land dm v =? 0).

(** [iscsid_props]: what it writes into [props]. *)
Definition iscsid_props : iSCSIDiscoveryProperties_t :=
  let dm := persistent_disc_meth_get in
  {| vers := ISCSI_INTERFACE_VERSION;
     iSNSDiscoverySettable := false;
     SLPDiscoverySettable := false;
     StaticDiscoverySettable := true;
     SendTargetsDiscoverySettable := true;
     iSNSDiscoveryMethod := iSNSDiscoveryMethodStatic;
     iSNSDiscoveryEnabled := CHECK_METHOD dm iSCSIDiscoveryMethodISNS;
     StaticDiscoveryEnabled := CHECK_METHOD dm iSCSIDiscoveryMethodStatic;
     SendTargetsDiscoveryEnabled :=
       CHECK_METHOD dm iSCSIDiscoveryMethodSendTargets;
     SLPDiscoveryEnabled := CHECK_METHOD dm iSCSIDiscoveryMethodSLP |}.

(** X26. The four enabled flags [iscsid_props] reports are the four
    method bits of the stored method set and together give them back; and
    a method is reported enabled exactly when [iscsid_enable_discovery],
    called with the stored set as [iscsid_init] does, selects the row of
    that method in the thread table. *)
Theorem iscsid_props_enabled :
  Z.land persistent_disc_meth_get ISCSI_ALL_DISCOVERY_METHODS
    = (if StaticDiscoveryEnabled iscsid_props
       then iSCSIDiscoveryMethodStatic else 0)
      + (if SLPDiscoveryEnabled iscsid_props
         then iSCSIDiscoveryMethodSLP else 0)
      + (if iSNSDiscoveryEnabled iscsid_props
         then iSCSIDiscoveryMethodISNS else 0)
      + (if SendTargetsDiscoveryEnabled iscsid_props
         then iSCSIDiscoveryMethodSendTargets else 0)
  /\ map (method_selected persistent_disc_meth_get)
         (thr_rows iscsid_thr_initial)
     = [ StaticDiscoveryEnabled iscsid_props;
         SendTargetsDiscoveryEnabled iscsid_props;
         SLPDiscoveryEnabled iscsid_props;
         iSNSDiscoveryEnabled iscsid_props ].
Proof.
  split; [|reflexivity].
  unfold iscsid_props, CHECK_METHOD. cbv zeta.
  cbn [StaticDiscoveryEnabled SLPDiscoveryEnabled iSNSDiscoveryEnabled
       SendTargetsDiscoveryEnabled].
  set (dm := persistent_disc_meth_get).
  assert (Hbit : forall k, Z.land 15 k = k ->
                           Z.land dm k = Z.land (Z.land dm 15) k).
  { intros k Hk. rewrite <- Z.land_assoc, Hk. reflexivity. }
  unfold ISCSI_ALL_DISCOVERY_METHODS, iSCSIDiscoveryMethodStatic,
    iSCSIDiscoveryMethodSLP, iSCSIDiscoveryMethodISNS,
    iSCSIDiscoveryMethodSendTargets.
  change (Z.lor (Z.lor (Z.lor 1 8) 4) 2) with 15.
  rewrite (Hbit 1 eq_refl), (Hbit 2 eq_refl), (Hbit 4 eq_refl),
    (Hbit 8 eq_refl).
  assert (Hr : 0 <= Z.land dm 15 < 16).
  { change 15 with (Z.ones 4). rewrite Z.land_ones by lia.
    apply Z.mod_pos_bound. reflexivity. }
  generalize dependent (Z.land dm 15). intros r _ Hr.
  assert (Hcases : r = 0 \/ r = 1 \/ r = 2 \/ r = 3 \/ r = 4 \/ r = 5
                   \/ r = 6 \/ r = 7 \/ r = 8 \/ r = 9 \/ r = 10 \/ r = 11
                   \/ r = 12 \/ r = 13 \/ r = 14 \/ r = 15) by lia.
  repeat (destruct Hcases as [->|Hcases]; [reflexivity|]).
  subst r. reflexivity.
Qed.

(** ** [iscsid_del] and the target parameters *)

(** The mappings [iscsid_del] asks [iscsi_targetparam_remove_target] to
    drop, and those that the destroys of a trace call for: one for each
    session destroyed whose target has neither overridden parameters nor
    configured sessions in the store. *)
Definition target_removals (evs : list event) : list event :=
  filter (fun e => match e with
                   | ev_targetparam_remove_target _ => true
                   | _ => false
                   end) evs.

Definition removals_due (evs : list event) : list event :=
  flat_map (fun e => match e with
                     | ev_sess_destroy isp status =>
                         if ISCSI_SUCCESS status
                         then iscsid_remove_target_param (sess_name isp)
                         else []
                     | _ => []
                     end) evs.

Lemma iscsid_del_loop_removals target_name m addr_dsc pre rest rtn evs :
  target_removals evs = removals_due evs ->
  target_removals
    (snd (iscsid_del_loop target_name m addr_dsc pre rest rtn evs))
  = removals_due
      (snd (iscsid_del_loop target_name m addr_dsc pre rest rtn evs)).
Proof.
  del_loop_induction target_name m addr_dsc pre rest rtn evs; auto.
  - intros H. apply IH. unfold target_removals, removals_due in *.
    rewrite filter_app, flat_map_app, H. f_equal.
    cbn [filter flat_map]. rewrite Hstatus.
    unfold iscsid_remove_target_param.
    destruct (_ && _); cbn; reflexivity.
  - intros H. apply IH. unfold target_removals, removals_due in *.
    rewrite filter_app, flat_map_app, H. f_equal.
    cbn [filter flat_map]. rewrite Hstatus. reflexivity.
Qed.

(** X27. The target-parameter mappings [iscsid_del] removes are those of
    the sessions it destroyed, in order: a mapping is removed only after a
    successful [iscsi_sess_destroy] of a session of that target, and only
    when the store holds neither overridden parameters nor configured
    sessions for the target's name; a failed destroy removes nothing. *)
Theorem iscsid_del_target_param_removals :
  forall target_name m addr_dsc w,
    exists evs,
      trace (snd (iscsid_del target_name m addr_dsc w)) = trace w ++ evs
      /\ target_removals evs = removals_due evs
      /\ (forall t_oid,
            In (ev_targetparam_remove_target t_oid) evs ->
            exists isp status,
              In (ev_sess_destroy isp status) evs
              /\ ISCSI_SUCCESS status = true
              /\ t_oid = iscsi_targetparam_get_oid (sess_name isp)
              /\ persistent_param_get (sess_name isp) = false
              /\ persistent_get_config_session (sess_name isp) 1 = None).
Proof.
  intros target_name m addr_dsc w. rewrite iscsid_del_unfold.
  cbn [snd trace set_trace]. eexists. split; [reflexivity|].
  pose proof (iscsid_del_loop_removals target_name m addr_dsc []
                (hba_sess_list w) true [] eq_refl) as Hrem.
  split; [exact Hrem|].
  intros t_oid Hin.
  assert (Hf : In (ev_targetparam_remove_target t_oid)
                  (target_removals
                     (snd (iscsid_del_loop target_name m addr_dsc []
                             (hba_sess_list w) true []))))
    by (apply filter_In; split; [exact Hin | reflexivity]).
  rewrite Hrem in Hf. unfold removals_due in Hf.
  apply in_flat_map in Hf. destruct Hf as (e & He & Hd).
  destruct e as [| | | | |isp status| | | | | | | |]; try destruct Hd.
  destruct (ISCSI_SUCCESS status) eqn:Hs; [|destruct Hd].
  unfold iscsid_remove_target_param in Hd.
  destruct (persistent_param_get (sess_name isp)) eqn:Hp;
    cbn [negb andb] in Hd; [destruct Hd|].
  destruct (persistent_get_config_session (sess_name isp) 1) eqn:Hc;
    cbn [negb] in Hd; [destruct Hd|].
  destruct Hd as [Hd|[]]. inversion Hd; subst t_oid.
  exists isp, status. repeat split; assumption.
Qed.

(** ** [iscsid_del] and [iscsid_login_tgt] select alike *)

Lemma del_candidate_login target_name m addr_dsc s :
  del_candidate target_name m addr_dsc s = true ->
  login_try_online target_name m addr_dsc s = true.
Proof.
  unfold del_candidate, del_name_method_match, del_try_destroy,
    login_try_online.
  intros H. apply andb_prop in H. destruct H as [Hnm Htry].
  apply andb_prop in Hnm. destruct Hnm as [Hn Hm].
  destruct target_name as [n|].
  - rewrite String.eqb_sym. exact Hn.
  - apply Z.eqb_eq in Hm.
    destruct (Z.eqb_spec m iSCSIDiscoveryMethodUnknown) as [|Hu];
      [reflexivity|].
    rewrite Hm, Z.land_diag.
    destruct (Z.eqb_spec m 0) as [H0|_]; [contradiction|]. cbn [negb].
    destruct ((m =? iSCSIDiscoveryMethodISNS)
              || (m =? iSCSIDiscoveryMethodSendTargets)); [|reflexivity].
    destruct addr_dsc as [a|]; [|reflexivity].
    unfold bcmp in *.
    destruct (list_eq_dec Z.eq_dec
                (firstn (SIZEOF_SOCKADDR (sess_discovered_addr s)) a)
                (firstn (SIZEOF_SOCKADDR (sess_discovered_addr s))
                        (sess_discovered_addr s))) as [He|]; [|discriminate].
    destruct (list_eq_dec Z.eq_dec
                (firstn (SIZEOF_SOCKADDR (sess_discovered_addr s))
                        (sess_discovered_addr s))
                (firstn (SIZEOF_SOCKADDR (sess_discovered_addr s)) a))
      as [|Hne]; [reflexivity|].
    exfalso. apply Hne. symmetry. exact He.
Qed.

(** X28. Every session [iscsid_del] would hand to [iscsi_sess_destroy]
    is one that [iscsid_login_tgt], given the same name, method and
    address, asks to log in.  So when [iscsid_login_tgt] returns [B_FALSE],
    [iscsid_del] with the same arguments finds nothing to do: it returns
    [B_TRUE] and leaves the state as it is. *)
Theorem iscsid_login_false_del_noop :
  forall target_name m addr_dsc w,
    (forall s, del_candidate target_name m addr_dsc s = true ->
               login_try_online target_name m addr_dsc s = true)
    /\ (fst (iscsid_login_tgt target_name m addr_dsc w) = false ->
        iscsid_del target_name m addr_dsc w = (true, w)).
Proof.
  intros target_name m addr_dsc w.
  split; [intros s; apply del_candidate_login|].
  rewrite iscsid_login_tgt_spec. cbn [fst]. intros Hnone.
  assert (Hc : existsb (del_candidate target_name m addr_dsc)
                       (hba_sess_list w) = false).
  { induction (hba_sess_list w) as [|s l IH]; [reflexivity|].
    cbn [existsb] in *. apply orb_false_elim in Hnone.
    destruct Hnone as [Hs Hl]. rewrite (IH Hl), orb_false_r.
    destruct (del_candidate target_name m addr_dsc s) eqn:Hd;
      [|reflexivity].
    rewrite (del_candidate_login _ _ _ _ Hd) in Hs. discriminate. }
  assert (Hskip : forall rest pre rtn evs,
            existsb (del_candidate target_name m addr_dsc) rest = false ->
            iscsid_del_loop target_name m addr_dsc pre rest rtn evs
              = (rtn, rev pre ++ rest, evs)).
  { induction rest as [|s rest IHr]; intros pre rtn evs Hn.
    - rewrite iscsid_del_loop_nil, app_nil_r. reflexivity.
    - cbn [existsb] in Hn. apply orb_false_elim in Hn.
      destruct Hn as [Hs Hn].
      rewrite iscsid_del_loop_step, Hs, (IHr _ _ _ Hn). cbn [rev].
      rewrite <- app_assoc. reflexivity. }
  rewrite iscsid_del_unfold, (Hskip _ [] true [] Hc).
  cbn [fst snd rev app]. rewrite app_nil_r. destruct w; reflexivity.
Qed.

(** ** [iscsid_init] when the store does not open, and what
       [iscsid_init_config] pushes *)

(** The flags after the events [iscsid_init] sends for the methods of
    [fdm], up to the terminating value. *)
Fixpoint failure_flags (fdm : list Z) (events : Z) : Z :=
  match fdm with
  | [] => events
  | m :: rest =>
      if m =? iSCSIDiscoveryMethodUnknown then events
      else failure_flags rest
             (if is_discovery_method m then Z.lor events m else events)
  end.

Lemma init_failure_events_fields fdm w :
  let w' := snd (init_failure_events fdm w) in
  hba_discovery_events w' = failure_flags fdm (hba_discovery_events w)
  /\ hba_sess_list w' = hba_sess_list w
  /\ iscsid_thr w' = iscsid_thr w
  /\ hba_name w' = hba_name w
  /\ hba_alias w' = hba_alias w
  /\ ps_initiator_name w' = ps_initiator_name w
  /\ ps_alias_name w' = ps_alias_name w.
Proof.
  cbv zeta. revert w. induction fdm as [|m rest IH]; intros w;
    cbn [init_failure_events failure_flags].
  - cbn. repeat split.
  - destruct (m =? iSCSIDiscoveryMethodUnknown); [cbn; repeat split|].
    unfold bind. rewrite iscsi_discovery_event_eq. cbn [negb andb].
    rewrite iscsi_discovery_event_eq. cbn [negb andb].
    match goal with
    | |- context [init_failure_events rest ?x] =>
        destruct (IH x) as (He & Hl & Ht & Hn & Ha & Hi & Hp)
    end.
    rewrite He, Hl, Ht, Hn, Ha, Hi, Hp.
    destruct (is_discovery_method m); cbn; repeat split.
Qed.

(** X29. When [persistent_init] fails, [iscsid_init] configures
    nothing: no parameter is pushed, no thread is created, started or
    stopped, and the names, the session list and the thread table are
    left as they were.  It sends the eight discovery events, which sets
    the four method flags, and returns [B_FALSE]. *)
Theorem iscsid_init_store_failure :
  forall restart w,
    persistent_init restart = false ->
    let r := iscsid_init restart w in
    fst r = false
    /\ trace (snd r) = trace w ++ failure_events
    /\ hba_discovery_events (snd r)
       = Z.lor (hba_discovery_events w) ISCSI_ALL_DISCOVERY_METHODS
    /\ hba_sess_list (snd r) = hba_sess_list w
    /\ iscsid_thr (snd r) = iscsid_thr w
    /\ hba_name (snd r) = hba_name w
    /\ hba_alias (snd r) = hba_alias w
    /\ ps_initiator_name (snd r) = ps_initiator_name w
    /\ ps_alias_name (snd r) = ps_alias_name w.
Proof.
  intros restart w Hfail. cbv zeta.
  unfold iscsid_init, iscsid_init_attempt, bind, ret. rewrite Hfail.
  cbn [negb].
  pose proof (init_failure_events_trace w) as Htr.
  pose proof (init_failure_events_fields for_failure w) as Hf.
  cbv zeta in Hf.
  destruct (init_failure_events for_failure w) as [[] w1].
  cbn [fst snd] in *.
  destruct Hf as (He & Hl & Ht & Hn & Ha & Hi & Hp).
  split; [reflexivity|]. split; [exact Htr|]. split.
  - rewrite He. unfold for_failure. cbn [failure_flags].
    change (iSCSIDiscoveryMethodStatic =? iSCSIDiscoveryMethodUnknown)
      with false.
    change (iSCSIDiscoveryMethodSLP =? iSCSIDiscoveryMethodUnknown)
      with false.
    change (iSCSIDiscoveryMethodISNS =? iSCSIDiscoveryMethodUnknown)
      with false.
    change (iSCSIDiscoveryMethodSendTargets =? iSCSIDiscoveryMethodUnknown)
      with false.
    change (iSCSIDiscoveryMethodUnknown =? iSCSIDiscoveryMethodUnknown)
      with true.
    change (is_discovery_method iSCSIDiscoveryMethodStatic) with true.
    change (is_discovery_method iSCSIDiscoveryMethodSLP) with true.
    change (is_discovery_method iSCSIDiscoveryMethodISNS) with true.
    change (is_discovery_method iSCSIDiscoveryMethodSendTargets) with true.
    cbv iota. rewrite <- !Z.lor_assoc. reflexivity.
  - repeat split; assumption.
Qed.








End Iscsid.

(** ** Scenarios

    The collaborators of a little-endian host with one busy session and a
    target, ["TX"], that is configured for three sessions of which the
    third cannot be allocated. *)

Module Scenario.

Definition AF_INET : Z := 2.
Definition AF_INET6 : Z := 26.

Definition native_u16 (v : Z) : list Z := [v mod 256; (v / 256) mod 256].

Definition SIZEOF_SOCKADDR (so : sockaddr) : nat :=
  match so with
  | lo :: hi :: _ => if lo + 256 * hi =? AF_INET then 16%nat else 32%nat
  | _ => 32%nat
  end.

Definition stack_sockaddr : sockaddr := repeat 0 32.

Definition sockaddr_in4 (a b c d port : Z) : sockaddr :=
  iscsid_addr_to_sockaddr AF_INET AF_INET6 native_u16 4 [a; b; c; d] port
    stack_sockaddr.

Definition EBUSY : Z := 16.

Definition iscsi_sess_destroy (l : list iscsi_sess_t) (isp : iscsi_sess_t) : Z :=
  if sess_oid isp =? 100 then EBUSY else 0.

Definition persistent_param_get (nm : string) : bool := false.

Definition persistent_get_config_session (nm : string) (ics_in : Z)
    : option (Z * bool) :=
  if String.eqb nm "TX" then Some (3, true) else None.

Definition iscsi_targetparam_get_oid (nm : string) : Z := 0.

Definition sess_alloc_ok (l : list iscsi_sess_t) (m : Z) (addr_dsc : sockaddr)
    (target_name : string) (tpgt isid : Z) : bool :=
  negb (String.eqb target_name "TX" && (isid =? 2)).

Definition sess_alloc_oid (l : list iscsi_sess_t) : Z :=
  Z.of_nat (length l) + 1.

Definition conn_alloc_ok (l : list iscsi_sess_t) (i : nat) (addr : sockaddr)
    : bool := true.

Definition iscsi_thread_stop (w : world) (thr : nat) : bool := true.

Definition row (thr : nat) (m : Z) (nm : string) : iscsid_thr_table :=
  {| thr_id := Some thr; method := m; name := Some nm |}.

(** The thread table once [iscsid_threads_create] has run. *)
Definition threads : list iscsid_thr_table :=
  [ row 0 iSCSIDiscoveryMethodStatic "Static";
    row 1 iSCSIDiscoveryMethodSendTargets "SendTarget";
    row 2 iSCSIDiscoveryMethodSLP "SLP";
    row 3 iSCSIDiscoveryMethodISNS "iSNS";
    {| thr_id := None; method := iSCSIDiscoveryMethodUnknown; name := None |} ].

Definition sess (oid : Z) (nm : string) (m : Z) (addr : sockaddr)
    : iscsi_sess_t :=
  {| sess_oid := oid; sess_name := nm; sess_discovered_by := m;
     sess_discovered_addr := addr; sess_tpgt_conf := 1; sess_isid := 0;
     sess_type := ISCSI_SESS_TYPE_NORMAL; sess_conn_list := [];
     sess_conn_act := None |}.

Definition world_with (l : list iscsi_sess_t) : world :=
  {| hba_name := "iqn.1986-03.com.sun:01:0003ba0a1b2c.4b1d2e3f";
     hba_alias := "host"; hba_oid := 1; hba_sess_list := l;
     hba_discovery_events := 0; hba_discovery_in_progress := false;
     iscsid_thr := threads; ps_initiator_name := None;
     ps_alias_name := None; trace := [] |}.

Definition portal_a : sockaddr := sockaddr_in4 10 0 0 1 3260.
Definition portal_b : sockaddr := sockaddr_in4 10 0 0 2 3260.

(** A Static session that is busy, and nothing else. *)
Definition w_busy : world :=
  world_with [sess 100 "T1" iSCSIDiscoveryMethodStatic portal_a].

(** Disabling Static and SLP on [w_busy]: the Static session cannot be
    destroyed, its end event is sent, and the loop goes on to SLP, whose
    thread is stopped; the call returns [B_TRUE]. *)
Example disable_busy_static_then_slp :
  let r := iscsid_disable_discovery SIZEOF_SOCKADDR iscsi_sess_destroy
             persistent_param_get persistent_get_config_session
             iscsi_targetparam_get_oid iscsi_thread_stop
             (Z.lor iSCSIDiscoveryMethodStatic iSCSIDiscoveryMethodSLP)
             w_busy in
  fst r = true
  /\ trace (snd r)
     = [ ev_sysevent (Some ESC_ISCSI_STATIC_START);
         ev_sess_destroy
           (sess 100 "T1" iSCSIDiscoveryMethodStatic portal_a) EBUSY;
         ev_note "session logout failed";
         ev_sysevent (Some ESC_ISCSI_STATIC_END);
         ev_sysevent (Some ESC_ISCSI_SLP_START);
         ev_thread_stop 2;
         ev_sysevent (Some ESC_ISCSI_SLP_END) ]
  /\ hba_sess_list (snd r) = hba_sess_list w_busy.
Proof. vm_compute. repeat split. Qed.

(** C1, as stated, fails: on [w_busy] the Static row's [iscsid_del]
    returns [B_FALSE], and the loop over Static and SLP does not end
    there. *)
Lemma disable_continues_after_del_failure :
  ~ disable_aborts_on_del_failure SIZEOF_SOCKADDR iscsi_sess_destroy
      persistent_param_get persistent_get_config_session
      iscsi_targetparam_get_oid iscsi_thread_stop.
Proof.
  intros H.
  specialize (H (Z.lor iSCSIDiscoveryMethodStatic iSCSIDiscoveryMethodSLP)
                (row 0 iSCSIDiscoveryMethodStatic "Static")
                (tl threads) true w_busy).
  assert (Hm : method (row 0 iSCSIDiscoveryMethodStatic "Static")
               <> iSCSIDiscoveryMethodUnknown) by (vm_compute; discriminate).
  specialize (H Hm eq_refl eq_refl).
  vm_compute in H. discriminate H.
Qed.

Lemma iscsid_disable_loop_row_witness :
  iscsid_disable_loop SIZEOF_SOCKADDR iscsi_sess_destroy
    persistent_param_get persistent_get_config_session
    iscsi_targetparam_get_oid iscsi_thread_stop
    (Z.lor iSCSIDiscoveryMethodStatic iSCSIDiscoveryMethodSLP)
    threads true w_busy
  = iscsid_disable_loop SIZEOF_SOCKADDR iscsi_sess_destroy
      persistent_param_get persistent_get_config_session
      iscsi_targetparam_get_oid iscsi_thread_stop
      (Z.lor iSCSIDiscoveryMethodStatic iSCSIDiscoveryMethodSLP)
      (tl threads) false
      (snd (iscsi_discovery_event iSCSIDiscoveryMethodStatic false
              (snd (iscsid_del SIZEOF_SOCKADDR iscsi_sess_destroy
                      persistent_param_get persistent_get_config_session
                      iscsi_targetparam_get_oid None
                      iSCSIDiscoveryMethodStatic None
                      (snd (iscsi_discovery_event iSCSIDiscoveryMethodStatic
                              true w_busy)))))).
Proof.
  assert (Hm : method (row 0 iSCSIDiscoveryMethodStatic "Static")
               <> iSCSIDiscoveryMethodUnknown) by (vm_compute; discriminate).
  exact (proj1 (proj2
    (iscsid_disable_loop_row SIZEOF_SOCKADDR iscsi_sess_destroy
       persistent_param_get persistent_get_config_session
       iscsi_targetparam_get_oid iscsi_thread_stop
       (Z.lor iSCSIDiscoveryMethodStatic iSCSIDiscoveryMethodSLP)
       (row 0 iSCSIDiscoveryMethodStatic "Static") (tl threads) true w_busy
       Hm eq_refl)) eq_refl).
Defined.

(** *** Deleting the sessions of a method *)

Definition w_three : world :=
  world_with [ sess 1 "T1" iSCSIDiscoveryMethodStatic portal_a;
               sess 2 "T2" iSCSIDiscoveryMethodSendTargets portal_a;
               sess 3 "T3" iSCSIDiscoveryMethodSendTargets portal_b ].

Lemma iscsid_del_clears_method_witness :
  iscsid_del SIZEOF_SOCKADDR iscsi_sess_destroy persistent_param_get
    persistent_get_config_session iscsi_targetparam_get_oid None
    iSCSIDiscoveryMethodSendTargets None w_three
  = (true,
     snd (iscsid_del SIZEOF_SOCKADDR iscsi_sess_destroy persistent_param_get
            persistent_get_config_session iscsi_targetparam_get_oid None
            iSCSIDiscoveryMethodSendTargets None w_three))
  /\ hba_sess_list
       (snd (iscsid_del SIZEOF_SOCKADDR iscsi_sess_destroy
               persistent_param_get persistent_get_config_session
               iscsi_targetparam_get_oid None
               iSCSIDiscoveryMethodSendTargets None w_three))
     = filter
         (fun s => negb (sess_discovered_by s =? iSCSIDiscoveryMethodSendTargets))
         (hba_sess_list w_three).
Proof.
  assert (H : iscsid_del SIZEOF_SOCKADDR iscsi_sess_destroy persistent_param_get
                persistent_get_config_session iscsi_targetparam_get_oid None
                iSCSIDiscoveryMethodSendTargets None w_three
              = (true,
                 snd (iscsid_del SIZEOF_SOCKADDR iscsi_sess_destroy
                        persistent_param_get persistent_get_config_session
                        iscsi_targetparam_get_oid None
                        iSCSIDiscoveryMethodSendTargets None w_three)))
    by (vm_compute; reflexivity).
  split; [exact H|].
  exact (proj2 (iscsid_del_clears_method SIZEOF_SOCKADDR iscsi_sess_destroy
                  persistent_param_get persistent_get_config_session
                  iscsi_targetparam_get_oid iSCSIDiscoveryMethodSendTargets
                  w_three _ H)).
Defined.

(** What is left is the Static session. *)
Example del_sendtargets_leaves_static :
  hba_sess_list
    (snd (iscsid_del SIZEOF_SOCKADDR iscsi_sess_destroy persistent_param_get
            persistent_get_config_session iscsi_targetparam_get_oid None
            iSCSIDiscoveryMethodSendTargets None w_three))
  = [sess 1 "T1" iSCSIDiscoveryMethodStatic portal_a].
Proof. vm_compute. reflexivity. Qed.

(** *** Adding a target configured for three sessions *)

Definition add_tx : add_args :=
  {| a_method := iSCSIDiscoveryMethodStatic; a_addr_dsc := portal_a;
     a_target_name := "TX"; a_tpgt := 0; a_addr_tgt := portal_a |}.

Definition add_ty : add_args :=
  {| a_method := iSCSIDiscoveryMethodStatic; a_addr_dsc := portal_b;
     a_target_name := "TY"; a_tpgt := 0; a_addr_tgt := portal_b |}.

Definition w_none : world := world_with [].

(** The third slot of ["TX"] fails: the call returns [B_FALSE] and the two
    sessions of the first two slots are in the list, each with its
    connection. *)
Example add_tx_leaves_two_sessions :
  let r := iscsid_add persistent_get_config_session sess_alloc_ok
             sess_alloc_oid conn_alloc_ok add_tx w_none in
  fst r = false
  /\ map (fun s => (sess_oid s, sess_name s, sess_isid s,
                    length (sess_conn_list s)))
         (hba_sess_list (snd r))
     = [ (1, "TX"%string, 0, 1%nat); (2, "TX"%string, 1, 1%nat) ].
Proof. vm_compute. split; reflexivity. Qed.

Lemma iscsid_add_not_atomic_witness :
  fst (iscsid_add persistent_get_config_session sess_alloc_ok sess_alloc_oid
         conn_alloc_ok add_tx w_none) = false
  /\ hba_sess_list
       (snd (iscsid_add persistent_get_config_session sess_alloc_ok
               sess_alloc_oid conn_alloc_ok add_tx w_none))
     <> hba_sess_list w_none.
Proof.
  destruct (iscsid_add_not_atomic persistent_get_config_session sess_alloc_ok
              sess_alloc_oid conn_alloc_ok add_tx w_none 3 2
              (snd (iscsid_add_loop sess_alloc_ok sess_alloc_oid conn_alloc_ok
                      add_tx (isid_range 2) (hba_sess_list w_none))))
    as (Hrtn & _ & _ & _ & Hdiff).
  - vm_compute. reflexivity.
  - lia.
  - vm_compute. reflexivity.
  - vm_compute. reflexivity.
  - split; [exact Hrtn|]. apply Hdiff.
    intros (i & s & Hf & _). vm_compute in Hf. discriminate Hf.
Defined.



(** The list the five calls leave. *)
Example run_adds_tx_ty :
  map (fun s => (sess_oid s, sess_name s, sess_isid s))
      (hba_sess_list
         (run_adds persistent_get_config_session sess_alloc_ok sess_alloc_oid
            conn_alloc_ok [add_tx; add_ty; add_tx; add_ty; add_tx] w_none))
  = [ (1, "TX"%string, 0); (2, "TX"%string, 1); (3, "TY"%string, 0) ].
Proof. vm_compute. reflexivity. Qed.

(** *** An allocation that fails once *)

(** No session of ["TX"] can be allocated while the list is empty; every
    other allocation is granted. *)
Definition transient_alloc (l : list iscsi_sess_t) (m : Z)
    (addr_dsc : sockaddr) (target_name : string) (tpgt isid : Z) : bool :=
  match l with
  | [] => negb (String.eqb target_name "TX")
  | _ :: _ => true
  end.

(** The first call for ["TX"] leaves nothing, the call for ["TY"] one
    session, and the second call for ["TX"] its three sessions; the two
    distinct tuples alone leave the session of ["TY"] only. *)
Example run_adds_transient :
  map sess_name
      (hba_sess_list
         (run_adds persistent_get_config_session transient_alloc
            sess_alloc_oid conn_alloc_ok [add_tx; add_ty; add_tx] w_none))
    = ["TY"; "TX"; "TX"; "TX"]%string
  /\ map sess_name
         (hba_sess_list
            (run_adds persistent_get_config_session transient_alloc
               sess_alloc_oid conn_alloc_ok
               (distinct_args [] [add_tx; add_ty; add_tx]) w_none))
     = ["TY"]%string.
Proof. vm_compute. split; reflexivity. Qed.


(** *** A SendTargets response of seventeen targets *)

Definition target (k : nat) : iscsi_sendtgts_entry_t :=
  {| ste_name := String (Ascii.ascii_of_nat (97 + k)) "";
     ste_insize := 4; ste_addr := [10; 0; 1; Z.of_nat k];
     ste_port := 3260; ste_tpgt := 1 |}.

Definition targets : list iscsi_sendtgts_entry_t := map target (seq 0 17).

(** The target reports seventeen descriptors and writes as many as the
    buffer holds. *)
Definition iscsi_ioctl_sendtgts_get (attempt : nat) (disc_addr : entry_t)
    (stl_in_cnt : Z) : Z * Z * list iscsi_sendtgts_entry_t :=
  (0, 17, firstn (Z.to_nat stl_in_cnt) targets).

Definition soft_state_attached (w : world) : bool := true.

Definition soft_state_detached (w : world) : bool := false.

Definition disc_addr : entry_t :=
  {| e_insize := 4; e_u := [10; 0; 0; 9]; e_port := 3260; e_tpgt := 0 |}.

Lemma iscsid_do_sendtgts_overflow_witness :
  snd (iscsid_do_sendtgts persistent_get_config_session sess_alloc_ok
         sess_alloc_oid conn_alloc_ok AF_INET AF_INET6 native_u16
         stack_sockaddr iscsi_ioctl_sendtgts_get soft_state_attached
         disc_addr w_none)
  = log [ev_kmem_free obj_sendtgts_list]
      (run_adds persistent_get_config_session sess_alloc_ok sess_alloc_oid
         conn_alloc_ok
         (map (sendtgts_add_args AF_INET AF_INET6 native_u16 stack_sockaddr
                 disc_addr)
              (firstn 17 (stl_list 17 targets)))
         (log [ ev_kmem_zalloc obj_sendtgts_list 10;
                ev_ioctl_sendtgts_get 10;
                ev_kmem_free obj_sendtgts_list;
                ev_kmem_zalloc obj_sendtgts_list 17;
                ev_ioctl_sendtgts_get 17 ]
              w_none)).
Proof.
  assert (Hlt : SENDTGTS_DEFAULT_NUM_TARGETS < 17) by (vm_compute; reflexivity).
  assert (Hle : 17 <= 17) by lia.
  exact (proj1 (proj1 (proj2 (proj2 (proj2 (proj2 (proj2
    (iscsid_do_sendtgts_overflow persistent_get_config_session sess_alloc_ok
       sess_alloc_oid conn_alloc_ok AF_INET AF_INET6 native_u16
       stack_sockaddr iscsi_ioctl_sendtgts_get soft_state_attached
       disc_addr w_none 0 17 (firstn 10 targets) 0 17 targets
       eq_refl eq_refl))))))
    eq_refl eq_refl Hlt eq_refl eq_refl Hle)).
Defined.

(** All seventeen targets are in the list afterwards, and the buffer was
    allocated twice and released twice. *)
Example sendtgts_seventeen_sessions :
  let w := snd (iscsid_do_sendtgts persistent_get_config_session
                  sess_alloc_ok sess_alloc_oid conn_alloc_ok AF_INET AF_INET6
                  native_u16 stack_sockaddr iscsi_ioctl_sendtgts_get
                  soft_state_attached disc_addr w_none) in
  map sess_name (hba_sess_list w) = map ste_name targets
  /\ trace w
     = [ ev_kmem_zalloc obj_sendtgts_list 10; ev_ioctl_sendtgts_get 10;
         ev_kmem_free obj_sendtgts_list;
         ev_kmem_zalloc obj_sendtgts_list 17; ev_ioctl_sendtgts_get 17;
         ev_kmem_free obj_sendtgts_list ].
Proof. vm_compute. split; reflexivity. Qed.

(** *** The driver instance detached between the two passes *)

Definition is_kmem_free (e : event) : bool :=
  match e with
  | ev_kmem_free _ => true
  | _ => false
  end.

(** The instance is there until the first buffer has been released. *)
Definition soft_state_until_free (w : world) : bool :=
  negb (existsb is_kmem_free (trace w)).

(** The first response overflows, the buffer is allocated again for the
    seventeen descriptors, and the second lookup of the instance fails: no
    second ioctl and no session. *)
Example sendtgts_detached_on_retry :
  let w := snd (iscsid_do_sendtgts persistent_get_config_session
                  sess_alloc_ok sess_alloc_oid conn_alloc_ok AF_INET AF_INET6
                  native_u16 stack_sockaddr iscsi_ioctl_sendtgts_get
                  soft_state_until_free disc_addr w_none) in
  hba_sess_list w = []
  /\ trace w
     = [ ev_kmem_zalloc obj_sendtgts_list 10; ev_ioctl_sendtgts_get 10;
         ev_kmem_free obj_sendtgts_list;
         ev_kmem_zalloc obj_sendtgts_list 17;
         ev_note "SendTargets: failure to get soft state";
         ev_kmem_free obj_sendtgts_list ].
Proof. vm_compute. split; reflexivity. Qed.

Lemma overflow_without_retry :
  ~ overflow_retries_ioctl persistent_get_config_session sess_alloc_ok
      sess_alloc_oid conn_alloc_ok AF_INET AF_INET6 native_u16
      stack_sockaddr iscsi_ioctl_sendtgts_get soft_state_until_free.
Proof.
  intros H.
  destruct (H disc_addr w_none 17 (firstn 10 targets) eq_refl eq_refl eq_refl)
    as (evs & Htrace & Hin).
  vm_compute in Htrace. subst evs.
  repeat (destruct Hin as [Hin|Hin]; [discriminate Hin|]).
  exact Hin.
Qed.

(** *** A notification while the driver instance is gone *)

Definition ISNS_OBJ_UPDATED : Z := 1.
Definition ISNS_OBJ_ADDED : Z := 2.
Definition ISNS_OBJ_REMOVED : Z := 4.

Definition isns_query_one_node (w : world) (node : string)
    : isns_status_t * option (list isns_portal_group_t) :=
  (isns_failed, None).

Definition scn_removed_ty : isns_scn_callback_arg_t :=
  {| scn_type := ISNS_OBJ_REMOVED; source_key_attr := "TY" |}.

(** With the instance in place the argument is released, once. *)
Example scn_callback_releases_argument :
  arg_frees
    (trace
       (snd (isns_scn_callback SIZEOF_SOCKADDR iscsi_sess_destroy
               persistent_param_get persistent_get_config_session
               iscsi_targetparam_get_oid sess_alloc_ok sess_alloc_oid
               conn_alloc_ok AF_INET AF_INET6 native_u16 stack_sockaddr
               soft_state_attached ISNS_OBJ_ADDED ISNS_OBJ_REMOVED
               ISNS_OBJ_UPDATED isns_query_one_node (Some scn_removed_ty)
               w_three)))
  = 1%nat.
Proof. vm_compute. reflexivity. Qed.

(** A callback entered with an argument while [ddi_get_soft_state] finds
    no instance returns without releasing it. *)
Example scn_callback_keeps_argument :
  isns_scn_callback SIZEOF_SOCKADDR iscsi_sess_destroy
    persistent_param_get persistent_get_config_session
    iscsi_targetparam_get_oid sess_alloc_ok sess_alloc_oid
    conn_alloc_ok AF_INET AF_INET6 native_u16 stack_sockaddr
    soft_state_detached ISNS_OBJ_ADDED ISNS_OBJ_REMOVED
    ISNS_OBJ_UPDATED isns_query_one_node (Some scn_removed_ty) w_three
  = (tt, w_three)
  /\ arg_frees (trace w_three) = 0%nat.
Proof. vm_compute. split; reflexivity. Qed.

(** *** A store that does not open *)

Definition persistent_init_fails (restart : bool) : bool := false.

Definition iscsi_thread_start (w : world) (thr : nat) : bool := true.

Definition iscsi_thread_create (m : Z) : option nat := Some (Z.to_nat m).

Definition iscsi_set_params (ips : Param.iscsi_param_set_t) : Z := 0.

(** The store takes every name and alias it is given. *)
Definition persistent_initiator_name_set (nm : string) : bool := true.

Definition persistent_alias_name_set (al : string) : bool := true.

(** Pushed the node name (parameter 14) the collaborator puts it into
    [hba_name], pushed the alias (parameter 15) into [hba_alias]. *)
Definition iscsi_set_params_hba (ips : Param.iscsi_param_set_t) (w : world)
    : string * string :=
  match Param.s_value ips with
  | Param.v_name s =>
      if Param.s_param ips =? 14 then (s, hba_alias w)
      else if Param.s_param ips =? 15 then (hba_name w, s)
      else (hba_name w, hba_alias w)
  | _ => (hba_name w, hba_alias w)
  end.

Example init_without_store :
  let r := iscsid_init SIZEOF_SOCKADDR iscsi_sess_destroy
             persistent_param_get persistent_get_config_session
             iscsi_targetparam_get_oid iscsi_thread_start iscsi_thread_stop
             iscsi_thread_create persistent_init_fails
             iSCSIDiscoveryMethodStatic [] persistent_initiator_name_set
             persistent_alias_name_set (fun _ => false) iscsi_set_params
             iscsi_set_params_hba
             14 15 1 "iqn.1986-03.com.sun:01:0003ba0a1b2c.4b1d2e3f" "host"
             false w_none in
  fst r = false
  /\ trace (snd r) = failure_events
  /\ hba_discovery_events (snd r) = ISCSI_ALL_DISCOVERY_METHODS.
Proof. vm_compute. repeat split. Qed.

(** *** Creating the threads *)

(** On the table as the source initialises it, [iscsid_threads_create]
    gives each of the four methods its thread and leaves the sentinel
    row. *)
Example threads_created :
  let w := snd (iscsid_threads_create iscsi_thread_create
                  (set_iscsid_thr w_none iscsid_thr_initial)) in
  map (fun t => (method t, thr_id t)) (iscsid_thr w)
    = [ (iSCSIDiscoveryMethodStatic, Some 1%nat);
        (iSCSIDiscoveryMethodSendTargets, Some 8%nat);
        (iSCSIDiscoveryMethodSLP, Some 2%nat);
        (iSCSIDiscoveryMethodISNS, Some 4%nat);
        (iSCSIDiscoveryMethodUnknown, None) ]
  /\ trace w
     = [ ev_thread_create iSCSIDiscoveryMethodStatic;
         ev_thread_create iSCSIDiscoveryMethodSendTargets;
         ev_thread_create iSCSIDiscoveryMethodSLP;
         ev_thread_create iSCSIDiscoveryMethodISNS ].
Proof. vm_compute. split; reflexivity. Qed.

(** *** Poking Static discovery *)

(** Static is the only enabled method: its thread is woken, the other
    three methods get their events from the caller, and the caller returns
    at the test that follows the mutex section of the end event of the
    Static thread: the sysevent of that end event has not been sent
    yet. *)
Example poke_static :
  let sched := [ [env_event_locked iSCSIDiscoveryMethodStatic true;
                  env_send_sysevent (Some ESC_ISCSI_STATIC_START)];
                 [env_event_locked iSCSIDiscoveryMethodStatic false];
                 [env_send_sysevent (Some ESC_ISCSI_STATIC_END)] ] in
  iscsid_poke_discovery iSCSIDiscoveryMethodStatic
    iSCSIDiscoveryMethodStatic [] [] w_none = None
  /\ match iscsid_poke_discovery iSCSIDiscoveryMethodStatic
            iSCSIDiscoveryMethodStatic [] sched w_none with
     | Some w' =>
         hba_discovery_events w' = ISCSI_ALL_DISCOVERY_METHODS
         /\ hba_discovery_in_progress w' = false
         /\ trace w'
            = [ ev_thread_send_wakeup 0;
                ev_sysevent (Some ESC_ISCSI_SEND_TARGETS_START);
                ev_sysevent (Some ESC_ISCSI_SEND_TARGETS_END);
                ev_sysevent (Some ESC_ISCSI_SLP_START);
                ev_sysevent (Some ESC_ISCSI_SLP_END);
                ev_sysevent (Some ESC_ISCSI_ISNS_START);
                ev_sysevent (Some ESC_ISCSI_ISNS_END);
                ev_sysevent (Some ESC_ISCSI_STATIC_START) ]
     | None => False
     end.
Proof. vm_compute. repeat split. Qed.

(** *** Deleting with a busy session *)

Definition w_mixed : world :=
  world_with [ sess 100 "T1" iSCSIDiscoveryMethodStatic portal_a;
               sess 1 "T2" iSCSIDiscoveryMethodStatic portal_a;
               sess 2 "T3" iSCSIDiscoveryMethodSendTargets portal_b ].

(** The busy Static session stays, the other Static session goes, and the
    call reports the failure. *)
Lemma iscsid_del_fixed_status_witness :
  hba_sess_list
    (snd (iscsid_del SIZEOF_SOCKADDR iscsi_sess_destroy persistent_param_get
            persistent_get_config_session iscsi_targetparam_get_oid None
            iSCSIDiscoveryMethodStatic None w_mixed))
  = [ sess 100 "T1" iSCSIDiscoveryMethodStatic portal_a;
      sess 2 "T3" iSCSIDiscoveryMethodSendTargets portal_b ]
  /\ fst (iscsid_del SIZEOF_SOCKADDR iscsi_sess_destroy persistent_param_get
            persistent_get_config_session iscsi_targetparam_get_oid None
            iSCSIDiscoveryMethodStatic None w_mixed) = false.
Proof.
  destruct (iscsid_del_fixed_status SIZEOF_SOCKADDR iscsi_sess_destroy
              persistent_param_get persistent_get_config_session
              iscsi_targetparam_get_oid None iSCSIDiscoveryMethodStatic None
              w_mixed (fun _ _ => eq_refl)) as (Hl & Hr & _).
  split; [rewrite Hl | rewrite Hr]; vm_compute; reflexivity.
Defined.

(** *** Adding and logging in *)

Lemma iscsid_add_true_all_slots_witness :
  slot_present add_ty 0
    (hba_sess_list
       (snd (iscsid_add persistent_get_config_session sess_alloc_ok
               sess_alloc_oid conn_alloc_ok add_ty w_none))).
Proof.
  apply (iscsid_add_true_all_slots persistent_get_config_session
           sess_alloc_ok sess_alloc_oid conn_alloc_ok add_ty w_none 1).
  - vm_compute. reflexivity.
  - vm_compute. reflexivity.
  - lia.
Defined.

(** A store that configures no session for any name. *)
Definition no_config_session (nm : string) (ics_in : Z) : option (Z * bool) :=
  Some (0, true).

Lemma iscsid_add_no_slots_witness :
  iscsid_add no_config_session sess_alloc_ok sess_alloc_oid conn_alloc_ok
    add_ty w_none = (true, w_none).
Proof.
  apply (iscsid_add_no_slots no_config_session sess_alloc_ok sess_alloc_oid
           conn_alloc_ok add_ty w_none 0).
  - vm_compute. reflexivity.
  - lia.
Defined.

Lemma iscsid_add_then_login_witness :
  fst (iscsid_login_tgt SIZEOF_SOCKADDR (Some "TY"%string)
         iSCSIDiscoveryMethodUnknown None
         (snd (iscsid_add persistent_get_config_session sess_alloc_ok
                 sess_alloc_oid conn_alloc_ok add_ty w_none))) = true.
Proof.
  apply (iscsid_add_then_login SIZEOF_SOCKADDR persistent_get_config_session
           sess_alloc_ok sess_alloc_oid conn_alloc_ok add_ty w_none 1
           iSCSIDiscoveryMethodUnknown None).
  - vm_compute. reflexivity.
  - lia.
  - vm_compute. reflexivity.
Defined.

(** *** Poking with no method enabled *)

Lemma iscsid_poke_discovery_nothing_to_wake_witness :
  iscsid_poke_discovery 0 iSCSIDiscoveryMethodUnknown [] [] w_none <> None.
Proof.
  assert (Hnone : forall dt,
            In dt (thr_rows (iscsid_thr w_none)) ->
            poke_wakes iSCSIDiscoveryMethodUnknown 0 dt = false).
  { intros dt Hin. vm_compute in Hin.
    destruct Hin as [<-|[<-|[<-|[<-|[]]]]]; reflexivity. }
  destruct (iscsid_poke_discovery_nothing_to_wake 0
              iSCSIDiscoveryMethodUnknown w_none eq_refl Hnone [])
    as (w' & evs & Heq & _).
  rewrite Heq. discriminate.
Defined.

(** *** The bytes of an IPv4 portal *)

Lemma iscsid_addr_to_sockaddr_layout_witness :
  iscsid_addr_to_sockaddr AF_INET AF_INET6 native_u16 4 [10; 0; 0; 1] 3260
    stack_sockaddr
  = [2; 0; 12; 188; 10; 0; 0; 1] ++ repeat 0 24.
Proof.
  exact (proj1 (iscsid_addr_to_sockaddr_layout AF_INET AF_INET6 native_u16
                  4 [10; 0; 0; 1] 3260 stack_sockaddr
                  eq_refl eq_refl eq_refl)
               eq_refl (le_n 4)).
Defined.

(** *** A turn of the Static thread *)

Definition static_targets : list (string * entry_t) :=
  [ ("TY"%string,
     {| e_insize := 4; e_u := [10; 0; 0; 2]; e_port := 3260; e_tpgt := 1 |}) ].

(** Woken once with Static enabled, the thread sends its start event, adds
    the static target and sends its end event. *)
Example thread_static_one_turn :
  let w := snd (iscsid_thread_static persistent_get_config_session
                  sess_alloc_ok sess_alloc_oid conn_alloc_ok
                  iSCSIDiscoveryMethodStatic AF_INET AF_INET6 native_u16
                  stack_sockaddr static_targets 1 w_none) in
  trace w = [ ev_sysevent (Some ESC_ISCSI_STATIC_START);
              ev_sysevent (Some ESC_ISCSI_STATIC_END) ]
  /\ map sess_name (hba_sess_list w) = ["TY"%string]
  /\ hba_discovery_events w = iSCSIDiscoveryMethodStatic.
Proof. vm_compute. repeat split. Qed.

(** *** Shutting down *)

Example fini_destroys_four_threads :
  fst (iscsid_fini w_none)
  = [ call_thread_destroy 0; call_thread_destroy 1; call_thread_destroy 2;
      call_thread_destroy 3; call_persistent_fini; call_sema_destroy ]
  /\ map thr_id (iscsid_thr (snd (iscsid_fini w_none)))
     = [None; None; None; None; None].
Proof. vm_compute. split; reflexivity. Qed.

(** *** A store that does not open, again *)

Lemma iscsid_init_store_failure_witness :
  hba_discovery_events
    (snd (iscsid_init SIZEOF_SOCKADDR iscsi_sess_destroy
            persistent_param_get persistent_get_config_session
            iscsi_targetparam_get_oid iscsi_thread_start iscsi_thread_stop
            iscsi_thread_create persistent_init_fails
            iSCSIDiscoveryMethodStatic [] persistent_initiator_name_set
            persistent_alias_name_set (fun _ => false) iscsi_set_params
            iscsi_set_params_hba
            14 15 1 "iqn.1986-03.com.sun:01:0003ba0a1b2c.4b1d2e3f" "host"
            false w_none))
  = ISCSI_ALL_DISCOVERY_METHODS
  /\ iscsid_thr
       (snd (iscsid_init SIZEOF_SOCKADDR iscsi_sess_destroy
               persistent_param_get persistent_get_config_session
               iscsi_targetparam_get_oid iscsi_thread_start iscsi_thread_stop
               iscsi_thread_create persistent_init_fails
               iSCSIDiscoveryMethodStatic [] persistent_initiator_name_set
               persistent_alias_name_set (fun _ => false) iscsi_set_params
               iscsi_set_params_hba
               14 15 1 "iqn.1986-03.com.sun:01:0003ba0a1b2c.4b1d2e3f" "host"
               false w_none))
     = threads.
Proof.
  destruct (iscsid_init_store_failure SIZEOF_SOCKADDR iscsi_sess_destroy
              persistent_param_get persistent_get_config_session
              iscsi_targetparam_get_oid iscsi_thread_start iscsi_thread_stop
              iscsi_thread_create persistent_init_fails
              iSCSIDiscoveryMethodStatic [] persistent_initiator_name_set
              persistent_alias_name_set (fun _ => false) iscsi_set_params
              iscsi_set_params_hba
              14 15 1 "iqn.1986-03.com.sun:01:0003ba0a1b2c.4b1d2e3f" "host"
              false w_none eq_refl) as (_ & _ & He & _ & Ht & _).
  split; [rewrite He | rewrite Ht]; reflexivity.
Defined.

(** *** Parameters of the initiator's own entry *)

Definition login_params : Param.iscsi_login_params_t :=
  {| Param.immediate_data := true; Param.initial_r2t := false;
     Param.data_pdu_in_order := true; Param.header_digest := 1;
     Param.data_digest := 0; Param.default_time_to_retain := 20;
     Param.default_time_to_wait := 2;
     Param.max_recv_data_seg_len := 8192;
     Param.first_burst_length := 65536;
     Param.max_burst_length := 262144 |}.

(** The store holds the name ["I"], no alias, and an entry under that name
    that overrides the header digest (bit 4) and the maximum number of
    connections (bit 11, which cannot be set): the name is pushed, then the
    header digest under the adapter's object id, and the other is noted. *)
Example init_config_pushes_overrides :
  trace
    (snd (iscsid_init_config
            [("I"%string, {| p_bitmap := 2064; p_params := login_params |})]
            persistent_initiator_name_set persistent_alias_name_set
            (fun _ => false) iscsi_set_params iscsi_set_params_hba 14 15 1
            "iqn.1986-03.com.sun:01:0003ba0a1b2c.4b1d2e3f" "host"
            (set_ps_initiator_name w_none (Some "I"%string))))
  = [ ev_set_params
        {| Param.s_oid := 0; Param.s_vers := 1; Param.s_param := 14;
           Param.s_value := Param.v_name "I" |} 0;
      ev_set_params
        {| Param.s_oid := 1; Param.s_vers := 1; Param.s_param := 4;
           Param.s_value := Param.v_integer 1 |} 0;
      ev_note "Failed to set param" ].
Proof. vm_compute. reflexivity. Qed.

(** *** A fresh install *)

Definition default_node_name : string :=
  "iqn.1986-03.com.sun:01:0003ba0a1b2c.4b1d2e3f".

(** An adapter without node name and alias, and an empty store. *)
Definition w_fresh : world :=
  set_hba_alias (set_hba_name w_none "") "".

(** The store is empty and takes what it is given: the default name and
    the host name are in the adapter and in the store, the CHAP user of
    the default name is recorded, and the alias, now in the store, is
    pushed. *)
Example init_config_fresh_install :
  let w := snd (iscsid_init_config [] persistent_initiator_name_set
                  persistent_alias_name_set (fun _ => false)
                  iscsi_set_params iscsi_set_params_hba 14 15 1
                  default_node_name "host" w_fresh) in
  hba_name w = default_node_name
  /\ hba_alias w = "host"%string
  /\ ps_initiator_name w = Some default_node_name
  /\ ps_alias_name w = Some "host"%string
  /\ trace w
     = [ ev_persistent_chap_set default_node_name;
         ev_set_params
           {| Param.s_oid := 0; Param.s_vers := 0; Param.s_param := 15;
              Param.s_value := Param.v_name "host" |} 0 ].
Proof. vm_compute. repeat split. Qed.

(** The store is empty and takes nothing: the adapter has the default
    name and the host name, the store has neither, and neither a CHAP user
    is recorded nor anything pushed. *)
Example init_config_store_refuses :
  let w := snd (iscsid_init_config [] (fun _ => false) (fun _ => false)
                  (fun _ => false) iscsi_set_params iscsi_set_params_hba
                  14 15 1 default_node_name "host" w_fresh) in
  hba_name w = default_node_name
  /\ hba_alias w = "host"%string
  /\ ps_initiator_name w = None
  /\ ps_alias_name w = None
  /\ trace w = [].
Proof. vm_compute. repeat split. Qed.

End Scenario.
